(** * Daily task organizer: the synchronization hook, its adapters and the
      components around it

    A shallow embedding of [src/hooks/useTodos.js], [src/services/api.js],
    [src/utils/env.js], [src/services/storage.js], [src/hooks/useTheme.js]
    and the handlers of the [App], [TodoInput] and [TodoItem] components,
    with the properties of the task list they maintain.

    - [JS]        the fragment of JavaScript values and string operations
                  the sources use (truthiness, [??], [||], [===], [String],
                  [trim], [toLowerCase], [includes], [split], object spread,
                  numerals in base 36);
    - [Env]       [readEnv], [getApiBase], [getDataMode], the feature flags
                  and the other getters;
    - [Api]       [buildUrl], [throwForResponse], [requestJson] and the four
                  CRUD calls;
    - [UseTodos]  [normalizeTodo], [filterAndSearch], the mount effect,
                  [withOptimistic] and the five mutations;
    - [Browser]   [window.localStorage];
    - [Storage]   [loadTodos], [saveTodos], [generateId];
    - [Theme]     the theme hook;
    - [Search]    the debounced search text;
    - [App], [TodoInput], [TodoItem]  the handlers of the components;
    - [Session]   the persisting effect and a reload.

    React state is threaded explicitly: a state setter is an update of the
    [state] record, an awaited call is run to completion before the next
    step, and the component stays mounted. *)

From stdpp Require Import gmap strings list fin_maps.
From Stdlib Require Import ZArith Ascii String DecimalString DecimalNat.

Set Warnings "-register-all".
#[local] Open Scope string_scope.
#[local] Open Scope Z_scope.

(* ===================================================================== *)
(** ** JavaScript values *)
(* ===================================================================== *)

Module JS.

(** A string is a sequence of UTF-16 code units; the model covers the code
    units below 256, one [ascii] each. *)

(** WhiteSpace and LineTerminator code units removed by [trim]:
    TAB, LF, VT, FF, CR, SP and NBSP. *)
Definition isWhiteSpace (c : ascii) : bool :=
  let n := N_of_ascii c in
  ((9 <=? n) && (n <=? 13) || (n =? 32) || (n =? 160))%N.

Fixpoint trimStart (s : string) : string :=
  match s with
  | EmptyString => EmptyString
  | String c s' => if isWhiteSpace c then trimStart s' else s
  end.

Fixpoint trimEnd (s : string) : string :=
  match s with
  | EmptyString => EmptyString
  | String c s' =>
      match trimEnd s' with
      | EmptyString => if isWhiteSpace c then EmptyString else String c EmptyString
      | r => String c r
      end
  end.

(** [s.trim()] *)
Definition trim (s : string) : string := trimEnd (trimStart s).

(** Lower-casing of one code unit: A-Z, and the Latin-1 capitals
    U+00C0..U+00DE except the multiplication sign U+00D7. *)
Definition lowerChar (c : ascii) : ascii :=
  let n := N_of_ascii c in
  if ((65 <=? n) && (n <=? 90)
      || (192 <=? n) && (n <=? 222) && negb (n =? 215))%N
  then ascii_of_N (n + 32) else c.

(** [s.toLowerCase()] *)
Fixpoint toLowerCase (s : string) : string :=
  match s with
  | EmptyString => EmptyString
  | String c s' => String (lowerChar c) (toLowerCase s')
  end.

Fixpoint startsWith (s p : string) : bool :=
  match p, s with
  | EmptyString, _ => true
  | String _ _, EmptyString => false
  | String a p', String b s' => if Ascii.eqb a b then startsWith s' p' else false
  end.

(** [s.includes(q)] *)
Fixpoint includes (s q : string) : bool :=
  startsWith s q ||
  match s with
  | EmptyString => false
  | String _ s' => includes s' q
  end.

(** [s] begins, resp. ends, with a white-space code unit. *)
Definition leadingSpace (s : string) : bool :=
  match s with
  | EmptyString => false
  | String c _ => isWhiteSpace c
  end.

Fixpoint trailingSpace (s : string) : bool :=
  match s with
  | EmptyString => false
  | String c EmptyString => isWhiteSpace c
  | String _ s' => trailingSpace s'
  end.

(** Values.  Numbers are the integers (every numeral of the sources is one:
    status codes, lengths); objects are plain data objects, a finite map
    from property names to values, so that [{...a, ...b}] is a map union
    and two objects with the same properties are equal. *)
Inductive value : Type :=
  | VUndef
  | VNull
  | VBool (b : bool)
  | VNum (n : Z)
  | VStr (s : string)
  | VObj (o : gmap string value)
  | VArr (l : list value).

Abbreviation obj := (gmap string value).

(** ToBoolean: [!!v] *)
Definition truthy (v : value) : bool :=
  match v with
  | VUndef | VNull => false
  | VBool b => b
  | VNum n => negb (n =? 0)
  | VStr s => negb (String.eqb s "")
  | VObj _ | VArr _ => true
  end.

Definition typeof (v : value) : string :=
  match v with
  | VUndef => "undefined"
  | VBool _ => "boolean"
  | VNum _ => "number"
  | VStr _ => "string"
  | VNull | VObj _ | VArr _ => "object"
  end.

(** [a ?? b] *)
Definition nullish (a b : value) : value :=
  match a with
  | VUndef | VNull => b
  | _ => a
  end.

(** [a || b] and [a && b] *)
Definition or_ (a b : value) : value := if truthy a then a else b.
Definition and_ (a b : value) : value := if truthy a then b else a.

(** [a === b].  Primitives compare by value; two objects are taken to be
    distinct references (the identifiers the program compares are strings
    or numbers). *)
Definition strictEq (a b : value) : bool :=
  match a, b with
  | VUndef, VUndef | VNull, VNull => true
  | VBool x, VBool y => Bool.eqb x y
  | VNum x, VNum y => x =? y
  | VStr x, VStr y => String.eqb x y
  | _, _ => false
  end.

Fixpoint join (sep : string) (l : list string) : string :=
  match l with
  | [] => ""
  | [x] => x
  | x :: l' => x ++ sep ++ join sep l'
  end.

(** [String(v)].  A number prints in decimal; an object prints through
    [Object.prototype.toString], an array through [join]. *)
Fixpoint ToString (v : value) : string :=
  match v with
  | VUndef => "undefined"
  | VNull => "null"
  | VBool true => "true"
  | VBool false => "false"
  | VNum n => NilZero.string_of_int (Z.to_int n)
  | VStr s => s
  | VObj _ => "[object Object]"
  | VArr l =>
      join ","
        (List.map (fun x => match x with
                            | VUndef | VNull => ""
                            | _ => ToString x
                            end) l)
  end.

(** [v.k] for the property names the sources read ([id], [_id], [title],
    [completed], [message], [status], [isNetworkOrServerError]): an own
    property of an object, [undefined] on anything else. *)
Definition get (v : value) (k : string) : value :=
  match v with
  | VObj o => default VUndef (o !! k)
  | _ => VUndef
  end.

(** The own enumerable properties copied by a spread [...v]: those of an
    object, the indices of an array, none of a primitive. *)
Definition ownProps (v : value) : obj :=
  match v with
  | VObj o => o
  | VArr l =>
      list_to_map (imap (fun i x => (NilZero.string_of_uint (Nat.to_uint i), x)) l)
  | _ => ∅
  end.

(** [{...a, ...b}]: the properties of [b] win. *)
Definition spread (a b : obj) : obj := b ∪ a.

(** [s.split(sep)] for a separator of one code unit. *)
Fixpoint split (sep : ascii) (s : string) : list string :=
  match s with
  | EmptyString => [EmptyString]
  | String c s' =>
      if Ascii.eqb c sep then EmptyString :: split sep s'
      else match split sep s' with
           | [] => [String c EmptyString]
           | x :: xs => String c x :: xs
           end
  end.

(** [s.replace(/^c+/, "")] and [s.replace(/c+$/, "")] for one code unit. *)
Fixpoint dropLeading (c : ascii) (s : string) : string :=
  match s with
  | EmptyString => EmptyString
  | String a s' => if Ascii.eqb a c then dropLeading c s' else s
  end.

Fixpoint dropTrailing (c : ascii) (s : string) : string :=
  match s with
  | EmptyString => EmptyString
  | String a s' =>
      match dropTrailing c s' with
      | EmptyString => if Ascii.eqb a c then EmptyString else String a EmptyString
      | r => String a r
      end
  end.

(** [n.toString(36)] for a natural number: digits [0-9a-z], most
    significant first. *)
Definition digit36 (d : N) : ascii :=
  if (d <? 10)%N then ascii_of_N (48 + d) else ascii_of_N (87 + d).

Fixpoint toBase36 (fuel : nat) (n : N) : string :=
  match fuel with
  | O => EmptyString
  | S fuel' =>
      if (n <? 36)%N then String (digit36 n) EmptyString
      else toBase36 fuel' (n / 36) ++ String (digit36 (n mod 36)) EmptyString
  end.

Definition toString36 (n : N) : string := toBase36 (S (N.to_nat (N.log2 n))) n.

(** The number a base-36 numeral denotes. *)
Definition digitValue36 (c : ascii) : N :=
  let n := N_of_ascii c in
  if (n <? 58)%N then (n - 48)%N else (n - 87)%N.

Fixpoint fromBase36 (acc : N) (s : string) : N :=
  match s with
  | EmptyString => acc
  | String c s' => fromBase36 (acc * 36 + digitValue36 c) s'
  end.

(** [a || d] where [a] is a string or [undefined]. *)
Definition orString (a : option string) (d : string) : string :=
  match a with
  | Some s => if String.eqb s "" then d else s
  | None => d
  end.

End JS.

Import JS.

(* ===================================================================== *)
(** ** utils/env.js: the data mode *)
(* ===================================================================== *)

(** The provider of the task list: ["local"] or ["api"]. *)
Inductive mode : Type := ModeLocal | ModeApi.

Module Env.

(** [process.env]: the variables that are set, with their string values. *)
Abbreviation environment := (gmap string string).

Definition readEnv (env : environment) (key : string) (defaultValue : option string)
  : option string :=
  match env !! key with
  | Some v =>
      let trimmed := trim v in
      if (0 <? String.length trimmed)%nat then Some trimmed else defaultValue
  | None => defaultValue
  end.

Definition internalGetRawApiBase (env : environment) : option string :=
  match readEnv env "REACT_APP_API_BASE" None with
  | Some apiBase => Some apiBase
  | None =>
      match readEnv env "REACT_APP_BACKEND_URL" None with
      | Some backendUrl => Some backendUrl
      | None => None
      end
  end.

Definition getApiBase (env : environment) : option string := internalGetRawApiBase env.

Definition getDataMode (env : environment) : mode :=
  match internalGetRawApiBase env with
  | Some _ => ModeApi
  | None => ModeLocal
  end.

(** [parseCSVFlagsToSet(value)]: the flags of a comma-separated list,
    trimmed and lower-cased, blank items left out. *)
Definition parseCSVFlagsToSet (value : option string) : gset string :=
  match value with
  | None => ∅
  | Some value =>
      if negb (truthy (VStr value)) then ∅
      else
        fold_left (fun set s => {[ toLowerCase s ]} ∪ set)
          (List.filter (fun s => (0 <? String.length s)%nat)
             (List.map trim (split "," value)))
          ∅
  end.

(** [setToMap(set)]: [{ [flag]: true }] *)
Definition setToMap (set : gset string) : gmap string bool := gset_to_gmap true set.

Record featureFlags : Type := FeatureFlags {
  flags_set : gset string;
  flags_map : gmap string bool;
  flags_raw : string
}.

Definition getFeatureFlags (env : environment) : featureFlags :=
  let raw := orString (readEnv env "REACT_APP_FEATURE_FLAGS" (Some "")) "" in
  let set := parseCSVFlagsToSet (Some raw) in
  let map := setToMap set in
  FeatureFlags set map raw.

Definition isFeatureEnabled (env : environment) (flag : value) : bool :=
  match flag with
  | VStr s =>
      if negb (truthy flag) then false
      else
        let normalized := toLowerCase (trim s) in
        if negb (truthy (VStr normalized)) then false
        else bool_decide (normalized ∈ flags_set (getFeatureFlags env))
  | _ => false
  end.

Definition getLogLevel (env : environment) : string :=
  orString (readEnv env "REACT_APP_LOG_LEVEL" (Some "info")) "info".

Definition getNodeEnv (env : environment) : string :=
  orString (readEnv env "REACT_APP_NODE_ENV" None)
    (orString (readEnv env "NODE_ENV" None) "development").

Definition getFrontendUrl (env : environment) : option string :=
  readEnv env "REACT_APP_FRONTEND_URL" None.

Definition getWebsocketUrl (env : environment) : option string :=
  readEnv env "REACT_APP_WS_URL" None.

End Env.

(* ===================================================================== *)
(** ** services/api.js: the remote adapter *)
(* ===================================================================== *)

Module Api.

Inductive method : Type := GET | POST | PATCH | DELETE.

(** The path of a request: [todos], or [todos/<id>] where the identifier is
    [String(id)], escaped by [encodeURIComponent] on the wire. *)
Inductive path : Type := Todos | TodoById (id : string).

Record request : Type := Request {
  req_method : method;
  req_path : path;
  req_body : option value   (* the payload that is JSON.stringify-ed *)
}.

(** A response: its status and its body as [readBodySafely] decodes it. *)
Record response : Type := Response {
  status : Z;
  body : value
}.

(** [resp.ok] *)
Definition ok (resp : response) : bool := (200 <=? status resp) && (status resp <=? 299).

(** What a rejected [fetch] throws: an [Error] with its own properties, or
    a value that is no [Error]. *)
Inductive thrown : Type := ErrorObject (fields : obj) | NotAnError.

Inductive fetch_outcome : Type :=
  | Resolved (resp : response)
  | Rejected (e : thrown).

(** The network, as the adapter sees it. *)
Abbreviation network := (request → fetch_outcome).

(** The outcome of an adapter call: the decoded payload or the error raised. *)
Inductive result : Type := Ok (v : value) | Throw (err : obj).

(** An adapter call: the requests it put on the wire and its outcome. *)
Record call : Type := Call {
  sent : list request;
  outcome : result
}.

(** [throwForResponse(resp)]: the error it raises. *)
Definition throwForResponse (resp : response) : obj :=
  let body := body resp in
  let message :=
    or_ (or_ (and_ body (get body "message"))
             (if String.eqb (typeof body) "string" then body else VNull))
        (VStr ("Request failed with status " ++ ToString (VNum (status resp)))) in
  let err : obj := {[ "message" := VStr (ToString message) ]} in
  let err := <[ "status" := VNum (status resp) ]> err in
  let err := <[ "details" := body ]> err in
  <[ "isNetworkOrServerError" :=
       VBool ((500 <=? status resp) && (status resp <=? 599)) ]> err.

(** The [catch] clause of [requestJson]: the error it re-raises. *)
Definition requestJson_catch (e : thrown) : obj :=
  match e with
  | NotAnError =>
      <[ "isNetworkOrServerError" := VBool true ]>
        {[ "message" := VStr "Unknown error during request" ]}
  | ErrorObject e =>
      if negb (String.eqb (typeof (get (VObj e) "status")) "number")
      then <[ "isNetworkOrServerError" := VBool true ]> e
      else e
  end.

Definition requestJson (fetch : network) (req : request) : call :=
  Call [req]
    match fetch req with
    | Resolved resp =>
        if negb (ok resp)
        then Throw (requestJson_catch (ErrorObject (throwForResponse resp)))
        else Ok (body resp)
    | Rejected e => Throw (requestJson_catch e)
    end.

Definition listTodos (fetch : network) : call :=
  requestJson fetch (Request GET Todos None).

Definition createTodo (fetch : network) (payload : value) : call :=
  requestJson fetch (Request POST Todos (Some (or_ payload (VObj ∅)))).

Definition updateTodo (fetch : network) (id payload : value) : call :=
  if negb (truthy id)
  then Call [] (Throw (<[ "status" := VNum 400 ]>
                         {[ "message" := VStr "Missing id for updateTodo" ]}))
  else requestJson fetch
         (Request PATCH (TodoById (ToString id)) (Some (or_ payload (VObj ∅)))).

Definition deleteTodo (fetch : network) (id : value) : call :=
  if negb (truthy id)
  then Call [] (Throw (<[ "status" := VNum 400 ]>
                         {[ "message" := VStr "Missing id for deleteTodo" ]}))
  else requestJson fetch (Request DELETE (TodoById (ToString id)) None).

(** [URLSearchParams]: the list of its pairs, and [set] and [append]. *)
Definition usp_append (k v : string) (usp : list (string * string)) : list (string * string) :=
  (usp ++ [(k, v)])%list.

Fixpoint usp_replace (k v : string) (usp : list (string * string)) : list (string * string) :=
  match usp with
  | [] => []
  | (k', v') :: rest =>
      if String.eqb k' k
      then (k, v) :: List.filter (fun p => negb (String.eqb (fst p) k)) rest
      else (k', v') :: usp_replace k v rest
  end.

Definition usp_set (k v : string) (usp : list (string * string)) : list (string * string) :=
  if List.existsb (fun p => String.eqb (fst p) k) usp
  then usp_replace k v usp
  else usp_append k v usp.

Section Url.

(** The configured environment, and [usp.toString()], the serialization of
    the query pairs, which the browser provides. *)
Variable env : Env.environment.
Variable usp_toString : list (string * string) → string.

(** [buildUrl(path, params)]; [params] are the entries of the object in
    their order, or nothing when the argument is no object. *)
Definition buildUrl (path : value) (params : option (list (string * value))) : string :=
  let base := Env.getApiBase env in
  let baseUrl := dropTrailing "/" (orString base "") in
  let cleanPath := dropLeading "/" (ToString (or_ path (VStr ""))) in
  let url :=
    match base with
    | Some b => if String.eqb b "" then "/" ++ cleanPath else baseUrl ++ "/" ++ cleanPath
    | None => "/" ++ cleanPath
    end in
  match params with
  | None => url
  | Some entries =>
      let usp :=
        fold_left
          (fun usp '(k, v) =>
             match v with
             | VUndef | VNull => usp
             | VArr items =>
                 fold_left (fun usp item => usp_append k (ToString item) usp) items usp
             | _ => usp_set k (ToString v) usp
             end)
          entries [] in
      let qs := usp_toString usp in
      if String.eqb qs "" then url else url ++ "?" ++ qs
  end.

End Url.

End Api.

(* ===================================================================== *)
(** ** hooks/useTodos.js: the synchronization hook *)
(* ===================================================================== *)

Module UseTodos.

(** [err.status >= k], reached only when [typeof err.status === "number"]. *)
Definition geNum (v : value) (k : Z) : bool :=
  match v with
  | VNum n => k <=? n
  | _ => false
  end.

Definition isNetworkOrServerError (err : value) : bool :=
  truthy
    (and_ err
       (or_ (get err "isNetworkOrServerError")
            (VBool (String.eqb (typeof (get err "status")) "number"
                    && geNum (get err "status") 500)))).

(** [t.k] on a task. *)
Definition field (t : obj) (k : string) : value := get (VObj t) k.

(** The state the hook owns: the provider, the canonical task list, and the
    number of identifiers [generateId] has handed out so far. *)
Record state : Type := State {
  provider : mode;
  allTasks : list obj;
  generated : nat
}.

Definition setProvider (m : mode) (st : state) : state :=
  State m (allTasks st) (generated st).

Definition setAllTasks (ts : list obj) (st : state) : state :=
  State (provider st) ts (generated st).

(** [filterAndSearch(tasks, filter, search)] *)
Definition filterAndSearch (tasks : list obj) (filter search : string) : list obj :=
  let q := toLowerCase (trim (ToString (or_ (VStr search) (VStr "")))) in
  List.filter
    (fun t =>
       let matchesFilter :=
         if String.eqb filter "all" then true
         else if String.eqb filter "active" then negb (truthy (field t "completed"))
         else if String.eqb filter "completed" then truthy (field t "completed")
         else true in
       let matchesSearch :=
         if (0 <? String.length q)%nat
         then includes (toLowerCase (ToString (or_ (field t "title") (VStr "")))) q
         else true in
       matchesFilter && matchesSearch)
    tasks.

(** What the hook reads of a task: its flag, the text of its title, its
    identifier. *)
Definition completed (t : obj) : bool := truthy (field t "completed").

Definition title (t : obj) : string := ToString (or_ (field t "title") (VStr "")).

Definition hasId (id : value) (t : obj) : bool := strictEq (field t "id") id.

Definition ids (tasks : list obj) : list value := List.map (fun t => field t "id") tasks.

(** The five mutations the hook exposes. *)
Inductive mutation : Type :=
  | Add (title : value)
  | Toggle (id : value)
  | Update (id updates : value)
  | Delete (id : value)
  | ClearCompleted.

(** Computations that may draw identifiers from [generateId]: the count of
    identifiers drawn so far goes in and comes out. *)
Definition Gen (A : Type) : Type := nat → A * nat.

#[global] Instance Gen_ret : MRet Gen := λ A (a : A) n, (a, n).

#[global] Instance Gen_bind : MBind Gen :=
  λ A B (k : A → Gen B) (m : Gen A) n, let '(a, n') := m n in k a n'.

Section Hook.

(** What the hook takes from [services/storage.js] depends on the clock,
    on randomness and on the browser's storage, and enters as parameters.
    [generateId n] is the identifier returned by the call of [generateId()]
    made after [n] earlier calls, and [loadLocal] is what [loadLocal()]
    returns: a stored list, or nothing.  [saveLocal] writes the list out and
    gives nothing back to the hook.  The module [Storage] below models the
    three functions themselves. *)
Variable generateId : nat → string.
Variable loadLocal : option (list value).

(** The environment variables and the network the session runs against. *)
Variable env : Env.environment.
Variable fetch : Api.network.

Definition freshId : Gen value := fun n => (VStr (generateId n), S n).

Definition runGen {A} (m : Gen A) (st : state) : A * state :=
  let '(a, n) := m (generated st) in
  (a, State (provider st) (allTasks st) n).

(** [normalizeTodo(t)]: [None] is its [null]. *)
Definition normalizeTodo (t : value) : Gen (option obj) :=
  if negb (truthy t) || negb (String.eqb (typeof t) "object") then mret None
  else
    id ← match nullish (get t "id") (get t "_id") with
         | VUndef | VNull => freshId
         | v => mret v
         end;
    mret (Some
           (spread
              (<[ "id" := id ]>
                 (<[ "title" := VStr (trim (ToString (nullish (get t "title") (VStr "")))) ]>
                    {[ "completed" := VBool (truthy (get t "completed")) ]}))
              (ownProps t))).

(** [list.map(normalizeTodo).filter(Boolean)] *)
Fixpoint normalizeAll (items : list value) : Gen (list obj) :=
  match items with
  | [] => mret []
  | t :: rest =>
      o ← normalizeTodo t;
      os ← normalizeAll rest;
      mret (match o with
           | Some x => x :: os
           | None => os
           end)
  end.

(** [(loadLocal() || []).map(normalizeTodo).filter(Boolean)] *)
Definition normalizedLocal : Gen (list obj) :=
  normalizeAll (match loadLocal with
                | Some l => l
                | None => []
                end).

(** The initial values of the two [useState] cells. *)
Definition initialState : state :=
  let provider := Env.getDataMode env in
  match provider with
  | ModeLocal => let '(local, n) := normalizedLocal 0%nat in State provider local n
  | ModeApi => State provider [] 0%nat
  end.

(** The mount effect [init()]. *)
Definition init (st : state) : state :=
  let mode := Env.getDataMode env in
  let st := setProvider mode st in
  match mode with
  | ModeLocal =>
      let '(local, st) := runGen normalizedLocal st in
      setAllTasks local st
  | ModeApi =>
      match Api.outcome (Api.listTodos fetch) with
      | Api.Ok items =>
          let '(normalized, st) :=
            match items with
            | VArr l => runGen (normalizeAll l) st
            | _ => ([], st)
            end in
          setAllTasks normalized st
      | Api.Throw err =>
          if isNetworkOrServerError (VObj err) then
            let '(local, st) := runGen normalizedLocal st in
            setAllTasks local (setProvider ModeLocal st)
          else st
      end
  end.

(** The session after mount. *)
Definition mounted : state := init initialState.

(** An awaited [apiCall]: it may set state, and it resolves or rejects. *)
Definition async : Type := state → state * option obj.

(** Awaiting an adapter call whose payload is not used. *)
Definition await_ (c : Api.call) : async :=
  fun st =>
    match Api.outcome c with
    | Api.Ok _ => (st, None)
    | Api.Throw err => (st, Some err)
    end.

Definition withOptimistic (provider : mode)
    (applyLocalChange : list obj → list obj) (apiCall : async)
    (rollbackOnError : option (list obj → list obj → list obj))
    (st : state) : state :=
  match provider with
  | ModeLocal => setAllTasks (applyLocalChange (allTasks st)) st
  | ModeApi =>
      let snapshot := allTasks st in
      let st := setAllTasks (applyLocalChange snapshot) st in
      match apiCall st with
      | (st, None) => st
      | (st, Some err) =>
          let st :=
            setAllTasks
              (match rollbackOnError with
               | Some rollback => rollback (allTasks st) snapshot
               | None => snapshot
               end) st in
          if isNetworkOrServerError (VObj err) then setProvider ModeLocal st else st
      end
  end.

Definition restoreSnapshot : option (list obj → list obj → list obj) :=
  Some (fun prev snapshot => snapshot).

Definition addTodo (title : value) (st : state) : state :=
  let provider := provider st in
  let trimmed := trim (ToString (or_ title (VStr ""))) in
  if negb (truthy (VStr trimmed)) then st
  else
    let '(id, st) := runGen freshId st in
    let '(newItem, st) :=
      runGen (normalizeTodo
                (VObj (<[ "id" := id ]>
                         (<[ "title" := VStr trimmed ]>
                            {[ "completed" := VBool false ]})))) st in
    match newItem with
    | None => st    (* not reached: the argument is an object *)
    | Some newItem =>
        withOptimistic provider
          (fun prev => newItem :: prev)
          (fun st =>
             match provider with
             | ModeApi =>
                 match Api.outcome
                         (Api.createTodo fetch
                            (VObj (<[ "title" := VStr trimmed ]>
                                     {[ "completed" := VBool false ]}))) with
                 | Api.Throw err => (st, Some err)
                 | Api.Ok created =>
                     let '(normalized, st) := runGen (normalizeTodo created) st in
                     match normalized with
                     | Some normalized =>
                         (setAllTasks
                            (List.map
                               (fun t =>
                                  if strictEq (field t "id") (field newItem "id")
                                  then spread ∅ normalized
                                  else t)
                               (allTasks st)) st,
                          None)
                     | None => (st, None)
                     end
                 end
             | ModeLocal => (st, None)
             end)
          restoreSnapshot st
    end.

Definition toggleTodo (id : value) (st : state) : state :=
  let provider := provider st in
  if negb (truthy id) then st
  else
    match List.find (fun t => strictEq (field t "id") id) (allTasks st) with
    | None => st
    | Some target =>
        let nextCompleted := VBool (negb (truthy (field target "completed"))) in
        withOptimistic provider
          (List.map
             (fun t =>
                if strictEq (field t "id") id
                then spread t {[ "completed" := nextCompleted ]}
                else t))
          (match provider with
           | ModeApi =>
               await_ (Api.updateTodo fetch id (VObj {[ "completed" := nextCompleted ]}))
           | ModeLocal => fun st => (st, None)
           end)
          restoreSnapshot st
    end.

Definition updateTodo (id updates : value) (st : state) : state :=
  let provider := provider st in
  if negb (truthy id) || negb (truthy updates)
     || negb (String.eqb (typeof updates) "object")
  then st
  else
    let safeUpdates := spread ∅ (ownProps updates) in
    let safeUpdates :=
      match field safeUpdates "title" with
      | VStr title => <[ "title" := VStr (trim title) ]> safeUpdates
      | _ => safeUpdates
      end in
    withOptimistic provider
      (List.map
         (fun t => if strictEq (field t "id") id then spread t safeUpdates else t))
      (match provider with
       | ModeApi => await_ (Api.updateTodo fetch id (VObj safeUpdates))
       | ModeLocal => fun st => (st, None)
       end)
      restoreSnapshot st.

Definition deleteTodo (id : value) (st : state) : state :=
  let provider := provider st in
  if negb (truthy id) then st
  else
    withOptimistic provider
      (List.filter (fun t => negb (strictEq (field t "id") id)))
      (match provider with
       | ModeApi => await_ (Api.deleteTodo fetch id)
       | ModeLocal => fun st => (st, None)
       end)
      restoreSnapshot st.

(** [Promise.allSettled(calls)]: every call is made, no rejection escapes. *)
Definition allSettled (calls : list Api.call) : async :=
  fun st => (st, None).

Definition clearCompleted (st : state) : state :=
  let provider := provider st in
  let completedIds :=
    List.map (fun t => field t "id")
      (List.filter (fun t => truthy (field t "completed")) (allTasks st)) in
  if (List.length completedIds =? 0)%nat then st
  else
    withOptimistic provider
      (List.filter (fun t => negb (truthy (field t "completed"))))
      (match provider with
       | ModeApi => allSettled (List.map (fun id => Api.deleteTodo fetch id) completedIds)
       | ModeLocal => fun st => (st, None)
       end)
      restoreSnapshot st.

Definition mutate (m : mutation) : state → state :=
  match m with
  | Add title => addTodo title
  | Toggle id => toggleTodo id
  | Update id updates => updateTodo id updates
  | Delete id => deleteTodo id
  | ClearCompleted => clearCompleted
  end.

(** A run of mutations, one after the other. *)
Definition mutateAll (ms : list mutation) (st : state) : state :=
  fold_left (fun st m => mutate m st) ms st.

End Hook.

(** *** The derived view, in the words of the specification *)

(** The filter is one of [all], [active], [completed]. *)
Inductive filterValue : Type := FilterAll | FilterActive | FilterCompleted.

Definition filterName (f : filterValue) : string :=
  match f with
  | FilterAll => "all"
  | FilterActive => "active"
  | FilterCompleted => "completed"
  end.

(** [all] passes everything, [active] requires [completed = false],
    [completed] requires [completed = true]. *)
Definition filterCondition (f : filterValue) (t : obj) : bool :=
  match f with
  | FilterAll => true
  | FilterActive => negb (completed t)
  | FilterCompleted => completed t
  end.

(** Case-insensitive substring match of [text] against the title; an empty
    [text] passes everything. *)
Definition searchCondition (text : string) (t : obj) : bool :=
  if String.eqb text "" then true
  else includes (toLowerCase (title t)) (toLowerCase text).

(** The view as the specification words it: the search text is matched as
    it is given. *)
Definition statedView (tasks : list obj) (f : filterValue) (search : string) : list obj :=
  List.filter (fun t => filterCondition f t && searchCondition search t) tasks.

(** The view with the search text trimmed before it is matched. *)
Definition trimmedView (tasks : list obj) (f : filterValue) (search : string) : list obj :=
  List.filter (fun t => filterCondition f t && searchCondition (trim search) t) tasks.

(** *** Outcomes of adapter calls, as the hook classifies them *)

Definition succeeds (c : Api.call) : Prop := ∃ v, Api.outcome c = Api.Ok v.

(** The call raises an error the hook takes for transient, resp. rejected. *)
Definition failsTransient (c : Api.call) : Prop :=
  ∃ err, Api.outcome c = Api.Throw err ∧ isNetworkOrServerError (VObj err) = true.

Definition failsRejected (c : Api.call) : Prop :=
  ∃ err, Api.outcome c = Api.Throw err ∧ isNetworkOrServerError (VObj err) = false.

(** The backend call of a mutation fails with a rejected error: the adapter
    call it makes raises one; for [clearCompleted], each of the deletes it
    makes, one for every completed task of the list, raises one. *)
Definition commitRejected (fetch : Api.network) (m : mutation) (st : state) : Prop :=
  match m with
  | Add _ => ∀ payload, failsRejected (Api.createTodo fetch payload)
  | Toggle id | Update id _ => ∀ payload, failsRejected (Api.updateTodo fetch id payload)
  | Delete id => failsRejected (Api.deleteTodo fetch id)
  | ClearCompleted =>
      ∀ t, In t (allTasks st) → completed t = true →
           failsRejected (Api.deleteTodo fetch (field t "id"))
  end.

(** The commit of a mutation fails with a transient error. *)
Definition commitTransient (fetch : Api.network) (m : mutation) : Prop :=
  match m with
  | Add _ => ∀ payload, failsTransient (Api.createTodo fetch payload)
  | Toggle id | Update id _ => ∀ payload, failsTransient (Api.updateTodo fetch id payload)
  | Delete id => failsTransient (Api.deleteTodo fetch id)
  | ClearCompleted => False
  end.

(** The commit of a mutation succeeds. *)
Definition commitSucceeds (fetch : Api.network) (m : mutation) : Prop :=
  match m with
  | Add _ => ∀ payload, succeeds (Api.createTodo fetch payload)
  | Toggle id | Update id _ => ∀ payload, succeeds (Api.updateTodo fetch id payload)
  | Delete id => succeeds (Api.deleteTodo fetch id)
  | ClearCompleted => True
  end.

(** The guard at the head of each mutation: whether the mutation goes on to
    [withOptimistic]. *)
Definition passesGuard (m : mutation) (st : state) : bool :=
  match m with
  | Add title => truthy (VStr (trim (ToString (or_ title (VStr "")))))
  | Toggle id =>
      truthy id
      && match List.find (fun t => strictEq (field t "id") id) (allTasks st) with
         | Some _ => true
         | None => false
         end
  | Update id updates =>
      truthy id && truthy updates && String.eqb (typeof updates) "object"
  | Delete id => truthy id
  | ClearCompleted =>
      negb (List.length
              (List.map (fun t => field t "id")
                 (List.filter (fun t => truthy (field t "completed")) (allTasks st)))
            =? 0)%nat
  end.

(** A title that is a string has no white space at either end. *)
Definition titleTrimmed (t : obj) : Prop :=
  match field t "title" with
  | VStr s => leadingSpace s = false ∧ trailingSpace s = false
  | _ => True
  end.

(** A task with an identifier that is neither [undefined] nor [null], a
    title and a flag. *)
Definition complete (t : obj) : Prop :=
  (∃ id, t !! "id" = Some id ∧ id ≠ VUndef ∧ id ≠ VNull)
  ∧ is_Some (t !! "title") ∧ is_Some (t !! "completed").

(** What [normalizeTodo] does not turn into [null]: objects and arrays. *)
Definition isObject (v : value) : bool := truthy v && String.eqb (typeof v) "object".

(** The task is the stored value, normalized: it holds every own property
    of the value as the value has it, it has an identifier, a title and a
    flag, where the value has no title the empty one and where it has no
    flag [false], and it holds nothing else. *)
Definition normalizedFrom (v : value) (t : obj) : Prop :=
  (∀ k x, ownProps v !! k = Some x → t !! k = Some x)
  ∧ is_Some (t !! "id")
  ∧ (ownProps v !! "title" = None → t !! "title" = Some (VStr ""))
  ∧ (ownProps v !! "completed" = None → t !! "completed" = Some (VBool false))
  ∧ (∀ k, k ≠ "id" → k ≠ "title" → k ≠ "completed" → t !! k = ownProps v !! k).

(** The fields of an update carry no identifier. *)
Definition keepsId (m : mutation) : Prop :=
  match m with
  | Update _ updates => ownProps updates !! "id" = None
  | _ => True
  end.

(** Every identifier in the list was handed out by [generateId], and no
    two tasks share one. *)
Definition idsGenerated (generateId : nat → string) (st : state) : Prop :=
  NoDup (ids (allTasks st))
  ∧ ∀ v, In v (ids (allTasks st)) → ∃ k, (k < generated st)%nat ∧ v = VStr (generateId k).

End UseTodos.

(* ===================================================================== *)
(** ** The four adapter operations, as one entry point *)
(* ===================================================================== *)

Inductive operation : Type :=
  | OpList
  | OpCreate (payload : value)
  | OpUpdate (id payload : value)
  | OpDelete (id : value).

Definition perform (fetch : Api.network) (op : operation) : Api.call :=
  match op with
  | OpList => Api.listTodos fetch
  | OpCreate payload => Api.createTodo fetch payload
  | OpUpdate id payload => Api.updateTodo fetch id payload
  | OpDelete id => Api.deleteTodo fetch id
  end.

(** A transport-level failure carries no numeric status. *)
Definition noStatus (e : Api.thrown) : Prop :=
  match e with
  | Api.NotAnError => True
  | Api.ErrorObject fields => typeof (get (VObj fields) "status") ≠ "number"
  end.

(* ===================================================================== *)
(** ** Sample sessions *)
(* ===================================================================== *)

Module Sample.

Definition generateId (n : nat) : string :=
  "tmp-" ++ NilZero.string_of_uint (Nat.to_uint n).

Definition task (id title : string) (done : bool) : obj :=
  <[ "id" := VStr id ]> (<[ "title" := VStr title ]> {[ "completed" := VBool done ]}).

(** A network that is down, and a backend that answers every request with
    the same status and body. *)
Definition offline : Api.network := fun _ => Api.Rejected Api.NotAnError.

Definition answering (status : Z) (body : value) : Api.network :=
  fun _ => Api.Resolved (Api.Response status body).

Definition noEnv : Env.environment := ∅.

Definition remoteEnv : Env.environment :=
  {[ "REACT_APP_API_BASE" := "https://todos.example.test/api" ]}.

Definition remote (tasks : list obj) : UseTodos.state :=
  UseTodos.State ModeApi tasks 0.

Definition local (tasks : list obj) : UseTodos.state :=
  UseTodos.State ModeLocal tasks 0.

(** A stored list whose only task has a padded title. *)
Definition paddedStore : option (list value) :=
  Some [VObj (task "a" "  Buy milk " false)].

(** The list of the clear-completed scenario. *)
Definition threeTasks : list obj :=
  [task "1" "one" true; task "2" "two" false; task "3" "three" true].

End Sample.

(* ===================================================================== *)
(** ** The browser's storage *)
(* ===================================================================== *)

Module Browser.

(** [window.localStorage]: whether it can be reached at all, and what it
    holds.  A call on storage that cannot be reached raises; [None] is the
    raised exception. *)
Record localStorage : Type := LocalStorage {
  reachable : bool;
  items : gmap string string
}.

Section Quota.

(** Whether the browser, holding [items], takes the value under the key
    (the quota is the browser's). *)
Variable accepts : gmap string string → string → string → bool.

Definition getItem (ls : localStorage) (key : string) : option (option string) :=
  if reachable ls then Some (items ls !! key) else None.

Definition setItem (ls : localStorage) (key value : string) : option localStorage :=
  if reachable ls && accepts (items ls) key value
  then Some (LocalStorage true (<[ key := value ]> (items ls)))
  else None.

Definition removeItem (ls : localStorage) (key : string) : option localStorage :=
  if reachable ls then Some (LocalStorage true (delete key (items ls))) else None.

End Quota.

End Browser.

(* ===================================================================== *)
(** ** services/storage.js: the storage adapter *)
(* ===================================================================== *)

Module Storage.

Definition NAMESPACE : string := "todo_app".
Definition TODOS_KEY : string := NAMESPACE ++ "_todos".

Section Store.

Variable accepts : gmap string string → string → string → bool.

(** [JSON.parse] ([None] when it raises) and [JSON.stringify]. *)
Variable JSON_parse : string → option value.
Variable JSON_stringify : value → string.

Definition safeJsonParse (raw : option string) (fallback : value) : value :=
  match raw with
  | None => fallback
  | Some raw =>
      match JSON_parse raw with
      | Some (VArr parsed) => VArr parsed
      | _ => fallback
      end
  end.

Definition safeJsonStringify (value : value) (fallback : string) : string :=
  JSON_stringify (nullish value (VArr [])).

Definition hasLocalStorage (ls : Browser.localStorage) : bool * Browser.localStorage :=
  let testKey := NAMESPACE ++ "_ls_test" in
  match Browser.setItem accepts ls testKey "1" with
  | None => (false, ls)
  | Some ls =>
      match Browser.removeItem ls testKey with
      | Some ls => (true, ls)
      | None => (false, ls)
      end
  end.

Definition loadTodos (ls : Browser.localStorage) : value * Browser.localStorage :=
  let '(available, ls) := hasLocalStorage ls in
  if negb available then (VArr [], ls)
  else
    match Browser.getItem ls TODOS_KEY with
    | None => (VArr [], ls)
    | Some raw => (safeJsonParse raw (VArr []), ls)
    end.

Definition saveTodos (todos : value) (ls : Browser.localStorage) : Browser.localStorage :=
  let '(available, ls) := hasLocalStorage ls in
  if negb available then ls
  else
    let payload := match todos with
                   | VArr _ => todos
                   | _ => VArr []
                   end in
    match Browser.setItem accepts ls TODOS_KEY (safeJsonStringify payload "[]") with
    | Some ls => ls
    | None => ls
    end.

End Store.

(** [generateId()]: [now] is [Date.now()], [random] is
    [Math.random().toString(36)] and [c] the counter [generateId._c] before
    the call; the identifier and the counter after the call. *)
Definition generateId (now : N) (random : string) (c : N) : string * N :=
  let rand := String.substring 2 6 random in
  let ts := toString36 now in
  let c := (c + 1)%N in
  let counter := toString36 (c mod 65535) in
  (NAMESPACE ++ "_" ++ ts ++ "_" ++ rand ++ "_" ++ counter, c).

End Storage.

(* ===================================================================== *)
(** ** hooks/useTheme.js: the theme *)
(* ===================================================================== *)

Module Theme.

Definition THEME_STORAGE_KEY : string := "todo_app_theme".

(** The page: the browser's storage and the [data-theme] attribute of the
    root element. *)
Record page : Type := Page {
  storage : Browser.localStorage;
  dataTheme : option string
}.

Section Quota.

Variable accepts : gmap string string → string → string → bool.

Definition readLocalStorage (ls : Browser.localStorage) (key : string) : option string :=
  match Browser.getItem ls key with
  | Some (Some v) => Some v
  | _ => None
  end.

Definition writeLocalStorage (ls : Browser.localStorage) (key value : string)
  : Browser.localStorage :=
  match Browser.setItem accepts ls key value with
  | Some ls => ls
  | None => ls
  end.

Definition applyThemeAttribute (theme : string) (attribute : option string) : option string :=
  if truthy (VStr theme) then Some theme else None.

Definition getInitialTheme (ls : Browser.localStorage) : string :=
  match readLocalStorage ls THEME_STORAGE_KEY with
  | Some stored =>
      if String.eqb stored "light" || String.eqb stored "dark" then stored else "light"
  | None => "light"
  end.

Definition toggleTheme (prev : string) : string :=
  if String.eqb prev "light" then "dark" else "light".

(** The effect that runs when the theme has changed. *)
Definition themeEffect (theme : string) (p : page) : page :=
  Page (writeLocalStorage (storage p) THEME_STORAGE_KEY theme)
       (applyThemeAttribute theme (dataTheme p)).

End Quota.

End Theme.

(* ===================================================================== *)
(** ** The search box: the debounced setter of useTodos.js *)
(* ===================================================================== *)

Module Search.

(** The two search cells of the hook, the reference to the last timeout of
    [useDebouncedCallback], and the browser's table of pending timeouts:
    each with its handle and the text its callback will set. *)
Record state : Type := State {
  searchImmediate : string;
  search : string;
  timerRef : option nat;
  timers : list (nat * string);
  nextHandle : nat
}.

(** The cells at mount; the browser hands out handles from 1. *)
Definition initial : state := State "" "" None [] 1.

Definition clearTimer (st : state) : state :=
  match timerRef st with
  | Some handle =>
      if negb (handle =? 0)%nat
      then State (searchImmediate st) (search st) None
             (List.filter (fun t => negb (fst t =? handle)%nat) (timers st))
             (nextHandle st)
      else st
  | None => st
  end.

(** The debounced [setSearchRaw]. *)
Definition debouncedSetSearch (val : string) (st : state) : state :=
  let st := clearTimer st in
  State (searchImmediate st) (search st) (Some (nextHandle st))
        (timers st ++ [(nextHandle st, val)])%list (S (nextHandle st)).

Definition setSearch (val : string) (st : state) : state :=
  let st := State val (search st) (timerRef st) (timers st) (nextHandle st) in
  debouncedSetSearch val st.

(** The browser runs the timeout with the handle, if it is pending. *)
Definition timeout (handle : nat) (st : state) : state :=
  match List.find (fun t => (fst t =? handle)%nat) (timers st) with
  | Some (_, val) =>
      State (searchImmediate st) val (timerRef st)
            (List.filter (fun t => negb (fst t =? handle)%nat) (timers st))
            (nextHandle st)
  | None => st
  end.

Inductive event : Type :=
  | Typed (val : string)
  | Elapsed (handle : nat).

Definition step (st : state) (e : event) : state :=
  match e with
  | Typed val => setSearch val st
  | Elapsed handle => timeout handle st
  end.

Definition run (es : list event) (st : state) : state := fold_left step es st.

(** What holds between the cells and the timeouts: the only timeout that
    can be pending is the referenced one and it carries the text last
    typed; with none pending, the debounced text is the text last typed. *)
Definition settled (st : state) : Prop :=
  (1 ≤ nextHandle st)%nat
  ∧ match timers st with
    | [] => search st = searchImmediate st
    | [(handle, val)] =>
        timerRef st = Some handle ∧ val = searchImmediate st
        ∧ (1 ≤ handle < nextHandle st)%nat
    | _ => False
    end.

End Search.

(* ===================================================================== *)
(** ** The components that call the hook *)
(* ===================================================================== *)

Module App.

(** [totalCount] and [activeCount], computed on the derived view. *)
Definition totalCount (tasks : list obj) : nat := List.length tasks.

Definition activeCount (tasks : list obj) : nat :=
  List.length (List.filter (fun t => negb (truthy (UseTodos.field t "completed"))) tasks).

(** The [onAdd] handler given to the input. *)
Definition onAdd (generateId : nat → string) (fetch : Api.network)
    (payload : value) (st : UseTodos.state) : UseTodos.state :=
  let title :=
    if String.eqb (typeof payload) "string" then payload
    else match payload with
         | VUndef | VNull => VUndef
         | _ => get payload "title"
         end in
  if truthy title then UseTodos.addTodo generateId fetch title st else st.

End App.

Module TodoInput.

Record state : Type := State {
  title : string;
  due : string
}.

Record keyEvent : Type := KeyEvent {
  key : string;
  ctrlKey : bool;
  metaKey : bool;
  shiftKey : bool
}.

Definition dueEnabled (env : Env.environment) : bool :=
  Env.isFeatureEnabled env (VStr "due_date") || Env.isFeatureEnabled env (VStr "due-date").

Definition canAdd (st : state) : bool := (0 <? String.length (trim (title st)))%nat.

Section Props.

Context {W : Type}.
Variable env : Env.environment.
Variable onAdd : value → W → W.

Definition handleSubmit (s : state * W) : state * W :=
  let '(st, w) := s in
  let t := trim (title st) in
  if negb (truthy (VStr t)) then (st, w)
  else
    let payload : obj := {[ "title" := VStr t ]} in
    let payload :=
      if dueEnabled env && truthy (VStr (due st))
      then <[ "dueDate" := VStr (due st) ]> payload
      else payload in
    (State "" "", onAdd (UseTodos.field payload "title") w).

Definition onKeyDown (e : keyEvent) (s : state * W) : state * W :=
  if String.eqb (key e) "Enter" && (ctrlKey e || metaKey e || negb (shiftKey e))
  then if canAdd (fst s) then handleSubmit s else s
  else s.

End Props.

End TodoInput.

Module TodoItem.

Record state : Type := State {
  editing : bool;
  draft : value
}.

Section Props.

Context {W : Type}.
Variable onUpdate : value → value → W → W.

(** [save()]; [None] when [draft.trim] is no function. *)
Definition save (item : obj) (s : state * W) : option (state * W) :=
  let '(st, w) := s in
  match draft st with
  | VStr d =>
      let next := trim d in
      if negb (truthy (VStr next)) || strictEq (VStr next) (UseTodos.field item "title")
      then Some (State false (or_ (UseTodos.field item "title") (VStr "")), w)
      else Some (State false (draft st),
                 onUpdate (UseTodos.field item "id")
                   (VObj {[ "title" := VStr next ]}) w)
  | _ => None
  end.

Definition cancel (item : obj) (s : state * W) : state * W :=
  (State false (or_ (UseTodos.field item "title") (VStr "")), snd s).

End Props.

End TodoItem.

(* ===================================================================== *)
(** ** A session on the browser's storage *)
(* ===================================================================== *)

Module Session.

Section Session.

Variable accepts : gmap string string → string → string → bool.
Variable JSON_parse : string → option value.
Variable JSON_stringify : value → string.
Variable generateId : nat → string.
Variable env : Env.environment.
Variable fetch : Api.network.

(** The effect of useTodos.js that saves the list in local mode. *)
Definition persist (st : UseTodos.state) (ls : Browser.localStorage) : Browser.localStorage :=
  match UseTodos.provider st with
  | ModeLocal =>
      Storage.saveTodos accepts JSON_stringify
        (VArr (List.map VObj (UseTodos.allTasks st))) ls
  | ModeApi => ls
  end.

(** What [loadLocal()] returns on this storage. *)
Definition loadLocal (ls : Browser.localStorage) : option (list value) :=
  match fst (Storage.loadTodos accepts JSON_parse ls) with
  | VArr l => Some l
  | _ => None
  end.

(** The session that mounts on this storage. *)
Definition reload (ls : Browser.localStorage) : UseTodos.state :=
  UseTodos.mounted generateId (loadLocal ls) env fetch.

End Session.

End Session.

(* ===================================================================== *)
(** ** More sample data *)
(* ===================================================================== *)

Module Demo.

(** A browser without quota pressure, and one whose storage is full. *)
Definition roomy : gmap string string → string → string → bool := fun _ _ _ => true.
Definition full : gmap string string → string → string → bool := fun _ _ _ => false.

Definition emptyStorage : Browser.localStorage := Browser.LocalStorage true ∅.
Definition noStorage : Browser.localStorage := Browser.LocalStorage false ∅.

(** A codec that knows two texts: the empty list and the sample list. *)
Definition stringify (v : value) : string :=
  match v with
  | VArr [] => "[]"
  | _ => "[three tasks]"
  end.

Definition parse (s : string) : option value :=
  if String.eqb s "[]" then Some (VArr [])
  else if String.eqb s "[three tasks]" then Some (VArr (List.map VObj Sample.threeTasks))
  else None.

End Demo.

(* ===================================================================== *)
(** ** Properties *)
(* ===================================================================== *)

Import UseTodos.

(** *** Objects and spreads *)

Lemma spread_singleton (t : obj) (k : string) (v : value) :
  spread t {[ k := v ]} = <[ k := v ]> t.
Proof. unfold spread. symmetry. apply insert_union_singleton_l. Qed.

Lemma spread_empty_l (o : obj) : spread ∅ o = o.
Proof. unfold spread. apply (right_id_L ∅ (∪)). Qed.

Lemma field_insert_ne (t : obj) (k k' : string) (v : value) :
  k ≠ k' → field (<[ k := v ]> t) k' = field t k'.
Proof. intros Hne. unfold field, get. by rewrite lookup_insert_ne. Qed.

Lemma field_insert_eq (t : obj) (k : string) (v : value) :
  field (<[ k := v ]> t) k = v.
Proof. unfold field, get. by rewrite lookup_insert_eq. Qed.

Lemma field_spread_absent (t u : obj) (k : string) :
  u !! k = None → field (spread t u) k = field t k.
Proof.
  intros Hk. unfold field, get, spread.
  rewrite lookup_union_r; done.
Qed.

(** *** The hook's classification of errors *)

Lemma isNetworkOrServerError_object (err : obj) :
  isNetworkOrServerError (VObj err) =
  truthy (field err "isNetworkOrServerError")
  || match field err "status" with
     | VNum n => 500 <=? n
     | _ => false
     end.
Proof.
  unfold isNetworkOrServerError, and_, or_, field. cbn [truthy].
  destruct (truthy (get (VObj err) "isNetworkOrServerError")) eqn:Hflag.
  - exact Hflag.
  - cbn [orb truthy]. by destruct (get (VObj err) "status").
Qed.

(** *** The optimistic protocol *)

Section Protocol.

Variable generateId : nat → string.
Variable fetch : Api.network.

Lemma withOptimistic_local change apiCall rollback st :
  withOptimistic ModeLocal change apiCall rollback st
  = setAllTasks (change (allTasks st)) st.
Proof. reflexivity. Qed.

Lemma withOptimistic_resolved change apiCall st st' :
  apiCall (setAllTasks (change (allTasks st)) st) = (st', None) →
  withOptimistic ModeApi change apiCall restoreSnapshot st = st'.
Proof. intros H. unfold withOptimistic. by rewrite H. Qed.

(** A commit that raises a rejected error restores the snapshot and leaves
    the provider alone. *)
Lemma withOptimistic_rejected change apiCall st st' err :
  apiCall (setAllTasks (change (allTasks st)) st) = (st', Some err) →
  isNetworkOrServerError (VObj err) = false →
  withOptimistic ModeApi change apiCall restoreSnapshot st
  = setAllTasks (allTasks st) st'.
Proof.
  intros Hcall Hrej. unfold withOptimistic.
  rewrite Hcall. cbn [restoreSnapshot]. by rewrite Hrej.
Qed.

(** A commit that raises a transient error restores the snapshot and
    demotes the provider. *)
Lemma withOptimistic_transient change apiCall st st' err :
  apiCall (setAllTasks (change (allTasks st)) st) = (st', Some err) →
  isNetworkOrServerError (VObj err) = true →
  withOptimistic ModeApi change apiCall restoreSnapshot st
  = setProvider ModeLocal (setAllTasks (allTasks st) st').
Proof.
  intros Hcall Htr. unfold withOptimistic.
  rewrite Hcall. cbn [restoreSnapshot]. by rewrite Htr.
Qed.

Lemma await_rejected (c : Api.call) st :
  failsRejected c →
  ∃ err, await_ c st = (st, Some err) ∧ isNetworkOrServerError (VObj err) = false.
Proof.
  intros (err & Hout & Hrej). exists err. split; [|done].
  unfold await_. by rewrite Hout.
Qed.

Lemma await_succeeds (c : Api.call) st :
  succeeds c → await_ c st = (st, None).
Proof. intros [v Hv]. unfold await_. by rewrite Hv. Qed.

Lemma setAllTasks_same st : setAllTasks (allTasks st) st = st.
Proof. by destruct st. Qed.

Lemma setAllTasks_twice ts ts' st :
  setAllTasks ts (setAllTasks ts' st) = setAllTasks ts st.
Proof. reflexivity. Qed.

(** The commit of a toggle, update or delete in remote mode, once rejected,
    leaves the state as it was. *)
Lemma rollback_await change (c : Api.call) st :
  failsRejected c →
  withOptimistic ModeApi change (await_ c) restoreSnapshot st = st.
Proof.
  intros Hc.
  destruct (await_rejected c (setAllTasks (change (allTasks st)) st) Hc)
    as (err & Hcall & Hrej).
  rewrite (withOptimistic_rejected _ _ _ _ _ Hcall Hrej).
  rewrite setAllTasks_twice. apply setAllTasks_same.
Qed.

(** An object that already has the three properties absorbs the defaults. *)
Lemma spread_absorb (base o : obj) :
  (∀ k, is_Some (base !! k) → is_Some (o !! k)) → spread base o = o.
Proof.
  intros Hdom. unfold spread. apply map_eq. intros k.
  rewrite lookup_union. destruct (o !! k) as [v|] eqn:Hk.
  - by destruct (base !! k).
  - destruct (base !! k) as [w|] eqn:Hb; [|done].
    destruct (Hdom k) as [v Hv]; [by eexists|]. congruence.
Qed.

Lemma is_Some_defaults (a b c : value) (o : obj) (k : string) :
  is_Some (o !! "id") → is_Some (o !! "title") → is_Some (o !! "completed") →
  is_Some ((<[ "id" := a ]> (<[ "title" := b ]> ({[ "completed" := c ]} : obj))) !! k) →
  is_Some (o !! k).
Proof.
  intros Hi Ht Hc.
  destruct (decide (k = "id")) as [->|?]; [done|].
  rewrite lookup_insert_ne by done.
  destruct (decide (k = "title")) as [->|?]; [done|].
  rewrite lookup_insert_ne by done.
  destruct (decide (k = "completed")) as [->|?]; [done|].
  rewrite lookup_singleton_ne by done. by intros [? ?].
Qed.

(** [normalizeTodo] on an object: the identifier is the object's own, or a
    fresh one, and the object's own properties are spread last. *)
Lemma normalizeTodo_object (o : obj) (n : nat) :
  normalizeTodo generateId (VObj o) n =
  let '(id, n') :=
    match nullish (field o "id") (field o "_id") with
    | VUndef | VNull => (VStr (generateId n), S n)
    | v => (v, n)
    end in
  (Some (spread
           (<[ "id" := id ]>
              (<[ "title" := VStr (trim (ToString (nullish (field o "title") (VStr "")))) ]>
                 {[ "completed" := VBool (truthy (field o "completed")) ]}))
           o), n').
Proof.
  unfold normalizeTodo, field.
  cbn [truthy typeof negb orb String.eqb Ascii.eqb Bool.eqb ownProps].
  unfold mbind, Gen_bind, mret, Gen_ret, freshId.
  by destruct (nullish _ _).
Qed.

(** An object with an identifier, a title and a flag is returned as it is:
    whatever the title and the flag are. *)
Lemma normalizeTodo_complete (o : obj) (id : value) (n : nat) :
  o !! "id" = Some id → id ≠ VUndef → id ≠ VNull →
  is_Some (o !! "title") → is_Some (o !! "completed") →
  normalizeTodo generateId (VObj o) n = (Some o, n).
Proof.
  intros Hid Hu Hn Ht Hc. rewrite normalizeTodo_object.
  assert (Hf : field o "id" = id) by (unfold field, get; by rewrite Hid).
  rewrite Hf.
  destruct id; try done; cbn; f_equal; f_equal; apply spread_absorb; intros k;
    apply is_Some_defaults; eauto.
Qed.

(** The placeholder built by [addTodo] is already normal. *)
Lemma normalizeTodo_placeholder (id text : string) (n : nat) :
  normalizeTodo generateId
    (VObj (<[ "id" := VStr id ]>
             (<[ "title" := VStr text ]> {[ "completed" := VBool false ]}))) n
  = (Some (<[ "id" := VStr id ]>
             (<[ "title" := VStr text ]> {[ "completed" := VBool false ]})), n).
Proof.
  by apply (normalizeTodo_complete _ (VStr id)).
Qed.

Lemma truthy_VStr (s : string) : truthy (VStr s) = true ↔ s ≠ "".
Proof.
  cbn. rewrite negb_true_iff. split.
  - intros H ->. by rewrite String.eqb_refl in H.
  - intros H. by apply String.eqb_neq.
Qed.

Lemma truthy_VStr_false (s : string) : truthy (VStr s) = false ↔ s = "".
Proof.
  cbn. rewrite negb_false_iff. apply String.eqb_eq.
Qed.

(** *** [addTodo], case by case *)

Lemma addTodo_blank title st :
  trim (ToString (or_ title (VStr ""))) = "" →
  addTodo generateId fetch title st = st.
Proof.
  intros Hblank. unfold addTodo.
  apply truthy_VStr_false in Hblank. by rewrite Hblank.
Qed.

Lemma addTodo_local title st :
  provider st = ModeLocal →
  trim (ToString (or_ title (VStr ""))) ≠ "" →
  addTodo generateId fetch title st
  = State ModeLocal
      (<[ "id" := VStr (generateId (generated st)) ]>
         (<[ "title" := VStr (trim (ToString (or_ title (VStr "")))) ]>
            {[ "completed" := VBool false ]}) :: allTasks st)
      (S (generated st)).
Proof.
  intros Hp Hne. unfold addTodo.
  apply truthy_VStr in Hne. rewrite Hne. cbn [negb].
  unfold runGen, freshId. cbn [generated provider allTasks].
  rewrite normalizeTodo_placeholder. by rewrite Hp.
Qed.

Lemma addTodo_remote_rejected title st :
  provider st = ModeApi →
  (∀ payload, failsRejected (Api.createTodo fetch payload)) →
  allTasks (addTodo generateId fetch title st) = allTasks st
  ∧ provider (addTodo generateId fetch title st) = ModeApi.
Proof.
  intros Hp Hrej.
  destruct (decide (trim (ToString (or_ title (VStr ""))) = "")) as [Hblank|Hne].
  { by rewrite addTodo_blank. }
  unfold addTodo.
  apply truthy_VStr in Hne. rewrite Hne. cbn [negb].
  unfold runGen, freshId. cbn [generated provider allTasks].
  rewrite normalizeTodo_placeholder. rewrite Hp.
  unfold withOptimistic.
  destruct (Hrej (VObj (<[ "title" := VStr (trim (ToString (or_ title (VStr "")))) ]>
                          {[ "completed" := VBool false ]})))
    as (err & Hout & Herr).
  rewrite Hout. cbn [restoreSnapshot]. by rewrite Herr.
Qed.

End Protocol.

(** *** Client-usage errors of the adapter (C10) *)

(** C10.  Called with a missing or empty identifier (any falsy one), the
    adapter's update and delete put nothing on the wire and raise an error
    whose status is 400 and which carries no [isNetworkOrServerError]
    property; the hook does not take such an error for a network or server
    failure, and a commit in remote mode that raises it leaves the state,
    task list and provider, exactly as it was before the mutation. *)
Theorem missing_id_raises_before_request
    (fetch : Api.network) (id payload : value)
    (change : list obj → list obj) (st : state) :
  truthy id = false →
  ∃ errU errD,
    Api.updateTodo fetch id payload = Api.Call [] (Api.Throw errU)
    ∧ Api.deleteTodo fetch id = Api.Call [] (Api.Throw errD)
    ∧ errU !! "status" = Some (VNum 400)
    ∧ errD !! "status" = Some (VNum 400)
    ∧ errU !! "isNetworkOrServerError" = None
    ∧ errD !! "isNetworkOrServerError" = None
    ∧ isNetworkOrServerError (VObj errU) = false
    ∧ isNetworkOrServerError (VObj errD) = false
    ∧ withOptimistic ModeApi change
        (await_ (Api.updateTodo fetch id payload)) restoreSnapshot st = st
    ∧ withOptimistic ModeApi change
        (await_ (Api.deleteTodo fetch id)) restoreSnapshot st = st.
Proof.
  intros Hid. unfold Api.updateTodo, Api.deleteTodo. rewrite Hid. cbn [negb].
  eexists _, _. repeat split; try reflexivity.
  - apply rollback_await. eexists. split; reflexivity.
  - apply rollback_await. eexists. split; reflexivity.
Qed.

Lemma missing_id_raises_before_request_witness :
  ∃ errU errD,
    Api.updateTodo Sample.offline (VStr "") (VObj ∅) = Api.Call [] (Api.Throw errU)
    ∧ Api.deleteTodo Sample.offline (VStr "") = Api.Call [] (Api.Throw errD)
    ∧ errU !! "status" = Some (VNum 400)
    ∧ errD !! "status" = Some (VNum 400)
    ∧ errU !! "isNetworkOrServerError" = None
    ∧ errD !! "isNetworkOrServerError" = None
    ∧ isNetworkOrServerError (VObj errU) = false
    ∧ isNetworkOrServerError (VObj errD) = false
    ∧ withOptimistic ModeApi (fun prev => [])
        (await_ (Api.updateTodo Sample.offline (VStr "") (VObj ∅))) restoreSnapshot
        (Sample.remote Sample.threeTasks) = Sample.remote Sample.threeTasks
    ∧ withOptimistic ModeApi (fun prev => [])
        (await_ (Api.deleteTodo Sample.offline (VStr ""))) restoreSnapshot
        (Sample.remote Sample.threeTasks) = Sample.remote Sample.threeTasks.
Proof.
  apply (missing_id_raises_before_request Sample.offline (VStr "") (VObj ∅)
           (fun prev => []) (Sample.remote Sample.threeTasks)).
  reflexivity.
Defined.

(** *** Rejected commits (C3) *)

Section Rejected.

Variable generateId : nat → string.
Variable fetch : Api.network.

Lemma toggleTodo_rejected id st :
  provider st = ModeApi →
  (∀ payload, failsRejected (Api.updateTodo fetch id payload)) →
  toggleTodo fetch id st = st.
Proof.
  intros Hp Hrej. unfold toggleTodo.
  destruct (truthy id); [|done]. cbn [negb].
  destruct (find _ _) as [target|]; [|done].
  rewrite Hp. by apply rollback_await.
Qed.

Lemma updateTodo_rejected id updates st :
  provider st = ModeApi →
  (∀ payload, failsRejected (Api.updateTodo fetch id payload)) →
  updateTodo fetch id updates st = st.
Proof.
  intros Hp Hrej. unfold updateTodo.
  destruct (_ || _ || _); [done|].
  rewrite Hp. by apply rollback_await.
Qed.

Lemma deleteTodo_rejected id st :
  provider st = ModeApi →
  failsRejected (Api.deleteTodo fetch id) →
  deleteTodo fetch id st = st.
Proof.
  intros Hp Hrej. unfold deleteTodo.
  destruct (truthy id); [|done]. cbn [negb].
  rewrite Hp. by apply rollback_await.
Qed.

End Rejected.

(** *** Adding a task (C6) *)

(** In remote mode an add whose create call is rejected leaves the list as
    long as it was, and an add whose create call is answered with a
    completed task under the server's identifier puts that task first. *)
Lemma addTodo_remote_is_not_a_prepend :
  trim (ToString (or_ (VStr "Buy milk") (VStr ""))) ≠ ""
  ∧ List.length (allTasks (addTodo Sample.generateId (Sample.answering 422 VNull)
                             (VStr "Buy milk") (Sample.remote Sample.threeTasks)))
    = List.length Sample.threeTasks
  ∧ List.length (allTasks (addTodo Sample.generateId (Sample.answering 422 VNull)
                             (VStr "Buy milk") (Sample.remote Sample.threeTasks)))
    ≠ S (List.length Sample.threeTasks)
  ∧ hd_error (allTasks (addTodo Sample.generateId
                          (Sample.answering 201 (VObj (Sample.task "srv-9" "Buy milk" true)))
                          (VStr "Buy milk") (Sample.remote Sample.threeTasks)))
    = Some (Sample.task "srv-9" "Buy milk" true).
Proof.
  split; [vm_compute; discriminate|].
  split; [vm_compute; reflexivity|].
  split; [vm_compute; discriminate|]. vm_compute. reflexivity.
Qed.

(** C6, amended.  A title that trims to the empty string leaves the state
    unchanged.  A title whose trimmed form is not empty puts, in local
    mode, one new task in front of the list: its identifier is the one
    [generateId] hands out, its title the trimmed text, its flag [false].
    In remote mode, when the create call succeeds the list is one task
    longer and its first task is what the server answered, normalized, or
    that same new task when the answer is no object; when the create call
    raises, the list is the one the add started from. *)
Theorem addTodo_prepends_one_task
    (generateId : nat → string) (fetch : Api.network) (title : value) (st : state) :
  let trimmed := trim (ToString (or_ title (VStr ""))) in
  let newItem : obj :=
    <[ "id" := VStr (generateId (generated st)) ]>
      (<[ "title" := VStr trimmed ]> {[ "completed" := VBool false ]}) in
  (trimmed = "" → addTodo generateId fetch title st = st)
  ∧ (trimmed ≠ "" → provider st = ModeLocal →
     allTasks (addTodo generateId fetch title st) = newItem :: allTasks st
     ∧ List.length (allTasks (addTodo generateId fetch title st))
       = S (List.length (allTasks st)))
  ∧ (trimmed ≠ "" → provider st = ModeApi →
     ∀ created,
       (∀ payload, Api.outcome (Api.createTodo fetch payload) = Api.Ok created) →
       List.length (allTasks (addTodo generateId fetch title st))
       = S (List.length (allTasks st))
       ∧ hd_error (allTasks (addTodo generateId fetch title st))
         = Some match (normalizeTodo generateId created (S (generated st))).1 with
                | Some server => server
                | None => newItem
                end)
  ∧ (trimmed ≠ "" → provider st = ModeApi →
     (∀ payload, ∃ err, Api.outcome (Api.createTodo fetch payload) = Api.Throw err) →
     allTasks (addTodo generateId fetch title st) = allTasks st).
Proof.
  intros trimmed newItem. split; [|split; [|split]].
  - apply addTodo_blank.
  - intros Hne Hp. subst trimmed newItem. by rewrite addTodo_local.
  - intros Hne Hp created Hok. subst trimmed newItem. unfold addTodo.
    apply truthy_VStr in Hne. rewrite Hne. cbn [negb].
    unfold runGen, freshId. cbn [generated provider allTasks].
    rewrite normalizeTodo_placeholder. rewrite Hp.
    unfold withOptimistic. rewrite Hok.
    cbn [generated provider allTasks setAllTasks].
    destruct (normalizeTodo generateId created (S (generated st))) as [[server|] n'].
    + cbn [allTasks setAllTasks fst]. split; [by rewrite length_map|].
      cbn [List.map hd_error]. rewrite field_insert_eq. cbn [strictEq].
      rewrite String.eqb_refl. by rewrite spread_empty_l.
    + done.
  - intros Hne Hp Hfail. subst trimmed newItem. unfold addTodo.
    apply truthy_VStr in Hne. rewrite Hne. cbn [negb].
    unfold runGen, freshId. cbn [generated provider allTasks].
    rewrite normalizeTodo_placeholder. rewrite Hp.
    unfold withOptimistic.
    destruct (Hfail (VObj (<[ "title" := VStr (trim (ToString (or_ title (VStr "")))) ]>
                             {[ "completed" := VBool false ]})))
      as [err Hout].
    rewrite Hout. cbn [restoreSnapshot].
    by destruct (isNetworkOrServerError (VObj err)).
Qed.

Lemma addTodo_prepends_one_task_witness :
  (addTodo Sample.generateId Sample.offline (VStr "   ") (Sample.local Sample.threeTasks)
   = Sample.local Sample.threeTasks)
  ∧ allTasks (addTodo Sample.generateId Sample.offline (VStr " Buy milk ")
                (Sample.local Sample.threeTasks))
    = Sample.task "tmp-0" "Buy milk" false :: Sample.threeTasks
  ∧ hd_error
      (allTasks (addTodo Sample.generateId
                   (Sample.answering 201 (VObj (Sample.task "srv-9" "Buy milk" false)))
                   (VStr " Buy milk ") (Sample.remote Sample.threeTasks)))
    = Some (Sample.task "srv-9" "Buy milk" false)
  ∧ allTasks (addTodo Sample.generateId (Sample.answering 422 VNull)
                (VStr " Buy milk ") (Sample.remote Sample.threeTasks))
    = Sample.threeTasks.
Proof.
  pose proof (addTodo_prepends_one_task Sample.generateId Sample.offline
                (VStr "   ") (Sample.local Sample.threeTasks)) as (Hblank & _).
  pose proof (addTodo_prepends_one_task Sample.generateId Sample.offline
                (VStr " Buy milk ") (Sample.local Sample.threeTasks)) as (_ & Hlocal & _).
  pose proof (addTodo_prepends_one_task Sample.generateId
                (Sample.answering 201 (VObj (Sample.task "srv-9" "Buy milk" false)))
                (VStr " Buy milk ") (Sample.remote Sample.threeTasks))
    as (_ & _ & Hremote & _).
  pose proof (addTodo_prepends_one_task Sample.generateId (Sample.answering 422 VNull)
                (VStr " Buy milk ") (Sample.remote Sample.threeTasks))
    as (_ & _ & _ & Hfailed).
  split; [|split; [|split]].
  - apply Hblank. reflexivity.
  - apply Hlocal; [vm_compute; discriminate | reflexivity].
  - destruct (Hremote ltac:(vm_compute; discriminate) eq_refl
                (VObj (Sample.task "srv-9" "Buy milk" false))
                ltac:(intros payload; reflexivity)) as [_ Hhead].
    exact Hhead.
  - apply Hfailed; [vm_compute; discriminate | reflexivity |].
    intros payload. eexists. reflexivity.
Defined.

(** *** Clearing the completed tasks (C7) *)

Lemma filter_none_negb {A} (p : A → bool) (l : list A) :
  List.filter p l = [] → List.filter (fun x => negb (p x)) l = l.
Proof.
  induction l as [|x l IH]; [done|]. cbn [List.filter].
  destruct (p x); [done|]. cbn [negb]. intros H. by rewrite IH.
Qed.

Lemma filter_sublist {A} (p : A → bool) (l : list A) : sublist (List.filter p l) l.
Proof.
  induction l as [|x l IH]; cbn [List.filter]; [constructor|].
  destruct (p x); by constructor.
Qed.

Lemma clearCompleted_unfold (fetch : Api.network) (st : state) :
  allTasks (clearCompleted fetch st)
  = List.filter (fun t => negb (completed t)) (allTasks st)
  ∧ provider (clearCompleted fetch st) = provider st
  ∧ (List.filter completed (allTasks st) = [] → clearCompleted fetch st = st).
Proof.
  unfold clearCompleted. rewrite length_map.
  fold completed.
  destruct (List.filter completed (allTasks st)) as [|t rest] eqn:Hdone.
  - cbn [List.length Nat.eqb]. split; [|done].
    symmetry. by apply filter_none_negb.
  - cbn [List.length Nat.eqb]. split; [|split; [|done]].
    + destruct (provider st); reflexivity.
    + destruct (provider st) eqn:Hp; exact Hp.
Qed.

(** C7.  Whatever the network answers to the per-identifier deletes, and in
    either mode, [clearCompleted] leaves exactly the tasks that are not
    completed, in their order, and does not touch the provider; with no
    completed task it leaves the state as it is. *)
Theorem clearCompleted_keeps_active_tasks (fetch : Api.network) (st : state) :
  allTasks (clearCompleted fetch st)
  = List.filter (fun t => negb (completed t)) (allTasks st)
  ∧ sublist (allTasks (clearCompleted fetch st)) (allTasks st)
  ∧ provider (clearCompleted fetch st) = provider st
  ∧ (List.filter completed (allTasks st) = [] → clearCompleted fetch st = st).
Proof.
  destruct (clearCompleted_unfold fetch st) as (Htasks & Hp & Hnone).
  split; [done|]. split; [|done].
  rewrite Htasks. apply filter_sublist.
Qed.

Lemma clearCompleted_keeps_active_tasks_witness :
  allTasks (clearCompleted (Sample.answering 500 VNull) (Sample.remote Sample.threeTasks))
  = [Sample.task "2" "two" false]
  ∧ clearCompleted Sample.offline (Sample.local [Sample.task "2" "two" false])
    = Sample.local [Sample.task "2" "two" false].
Proof.
  split.
  - apply (clearCompleted_keeps_active_tasks (Sample.answering 500 VNull)
             (Sample.remote Sample.threeTasks)).
  - apply (clearCompleted_keeps_active_tasks Sample.offline
             (Sample.local [Sample.task "2" "two" false])).
    reflexivity.
Defined.

(** *** What a rejected commit leaves (C3) *)

(** In remote mode, with every delete answered 404, [clearCompleted] leaves
    the list without the completed tasks: the rejected deletes are settled,
    not raised, and nothing is rolled back. *)
Lemma clearCompleted_keeps_removal_when_rejected :
  provider (Sample.remote Sample.threeTasks) = ModeApi
  ∧ commitRejected (Sample.answering 404 VNull) ClearCompleted
      (Sample.remote Sample.threeTasks)
  ∧ allTasks (mutate Sample.generateId (Sample.answering 404 VNull) ClearCompleted
                (Sample.remote Sample.threeTasks))
    = [Sample.task "2" "two" false]
  ∧ allTasks (mutate Sample.generateId (Sample.answering 404 VNull) ClearCompleted
                (Sample.remote Sample.threeTasks))
    ≠ allTasks (Sample.remote Sample.threeTasks).
Proof.
  split; [reflexivity|]. split.
  { intros t [<-|[<-|[<-|[]]]] Hdone;
      first [ discriminate Hdone | eexists; split; vm_compute; reflexivity ]. }
  split; [vm_compute; reflexivity|]. vm_compute. discriminate.
Qed.

(** C3, amended.  In remote mode, when the backend call of a mutation fails
    with a rejected error the provider stays remote; after an add, a toggle,
    an update or a delete the task list is the one the mutation started
    from, so for [add] the new task is gone again; after [clearCompleted]
    the task list is the one without the completed tasks. *)
Theorem rejected_commit_restores_snapshot
    (generateId : nat → string) (fetch : Api.network) (m : mutation) (st : state) :
  provider st = ModeApi →
  commitRejected fetch m st →
  provider (mutate generateId fetch m st) = ModeApi
  ∧ allTasks (mutate generateId fetch m st)
    = match m with
      | ClearCompleted => List.filter (fun t => negb (completed t)) (allTasks st)
      | _ => allTasks st
      end.
Proof.
  intros Hp Hrej. destruct m as [title|id|id updates|id|]; cbn [mutate commitRejected] in *.
  - by destruct (addTodo_remote_rejected generateId fetch title st Hp Hrej).
  - by rewrite toggleTodo_rejected.
  - by rewrite updateTodo_rejected.
  - by rewrite deleteTodo_rejected.
  - destruct (clearCompleted_unfold fetch st) as (Htasks & Hprov & _).
    by rewrite Hprov.
Qed.

Lemma rejected_commit_restores_snapshot_witness :
  provider (mutate Sample.generateId (Sample.answering 422 VNull)
              (Add (VStr "Buy milk")) (Sample.remote Sample.threeTasks))
  = ModeApi
  ∧ allTasks (mutate Sample.generateId (Sample.answering 422 VNull)
                (Add (VStr "Buy milk")) (Sample.remote Sample.threeTasks))
    = Sample.threeTasks.
Proof.
  apply (rejected_commit_restores_snapshot Sample.generateId
           (Sample.answering 422 VNull) (Add (VStr "Buy milk"))
           (Sample.remote Sample.threeTasks)).
  - reflexivity.
  - intros payload. eexists. split; vm_compute; reflexivity.
Defined.

(** *** The derived view (C8) *)

Lemma ToString_or_string (s : string) : ToString (or_ (VStr s) (VStr "")) = s.
Proof.
  unfold or_. destruct (truthy (VStr s)) eqn:Hs; [done|].
  apply truthy_VStr_false in Hs. by subst.
Qed.

Lemma toLowerCase_length (s : string) :
  String.length (toLowerCase s) = String.length s.
Proof. induction s as [|c s IH]; [done|]. cbn. by rewrite IH. Qed.

Lemma length_positive (s : string) :
  (0 <? String.length s)%nat = negb (String.eqb s "").
Proof. by destruct s. Qed.

Lemma matchesFilter_filterCondition (f : filterValue) (t : obj) :
  (if String.eqb (filterName f) "all" then true
   else if String.eqb (filterName f) "active" then negb (truthy (field t "completed"))
   else if String.eqb (filterName f) "completed" then truthy (field t "completed")
   else true)
  = filterCondition f t.
Proof. by destruct f. Qed.

Lemma filterAndSearch_trimmedView (tasks : list obj) (f : filterValue) (search : string) :
  filterAndSearch tasks (filterName f) search = trimmedView tasks f search.
Proof.
  unfold filterAndSearch, trimmedView. apply List.filter_ext. intros t.
  rewrite matchesFilter_filterCondition. f_equal.
  rewrite ToString_or_string, toLowerCase_length, length_positive.
  unfold searchCondition, title.
  by destruct (String.eqb (trim search) "").
Qed.

(** The search text [" milk"] is no substring of the title ["milk"], yet the
    view for it keeps the task: the text is trimmed before it is matched. *)
Lemma statedView_fails_on_padded_search :
  filterAndSearch [Sample.task "a" "milk" false] "all" " milk"
  ≠ statedView [Sample.task "a" "milk" false] FilterAll " milk".
Proof. vm_compute. discriminate. Qed.

(** C8, amended.  The derived view keeps, in list order, exactly the tasks
    that satisfy the filter condition and match the trimmed search text in
    their title, case-insensitively (a search text that trims to the empty
    string passes everything); the view for [active] holds no completed
    task and the view for [completed] holds only completed ones. *)
Theorem filterAndSearch_keeps_matching_tasks
    (tasks : list obj) (f : filterValue) (search : string) :
  filterAndSearch tasks (filterName f) search = trimmedView tasks f search
  ∧ sublist (filterAndSearch tasks (filterName f) search) tasks
  ∧ (∀ t, In t (filterAndSearch tasks (filterName f) search) ↔
          In t tasks ∧ filterCondition f t = true
          ∧ searchCondition (trim search) t = true)
  ∧ (∀ t, In t (filterAndSearch tasks "active" search) →
          completed t = false ∧ field t "completed" ≠ VBool true)
  ∧ (∀ t, In t (filterAndSearch tasks "completed" search) →
          completed t = true ∧ field t "completed" ≠ VBool false).
Proof.
  split; [apply filterAndSearch_trimmedView|].
  split; [apply filter_sublist|].
  split; [|split].
  - intros t. rewrite filterAndSearch_trimmedView. unfold trimmedView.
    rewrite List.filter_In, andb_true_iff. tauto.
  - intros t Ht.
    rewrite (filterAndSearch_trimmedView tasks FilterActive) in Ht.
    apply List.filter_In in Ht as [_ Ht]. apply andb_true_iff in Ht as [Ht _].
    cbn [filterCondition] in Ht. apply negb_true_iff in Ht. split; [done|].
    unfold completed in Ht. intros Heq. by rewrite Heq in Ht.
  - intros t Ht.
    rewrite (filterAndSearch_trimmedView tasks FilterCompleted) in Ht.
    apply List.filter_In in Ht as [_ Ht]. apply andb_true_iff in Ht as [Ht _].
    cbn [filterCondition] in Ht. split; [done|].
    unfold completed in Ht. intros Heq. by rewrite Heq in Ht.
Qed.

Lemma filterAndSearch_keeps_matching_tasks_witness :
  filterAndSearch [Sample.task "a" "Buy Milk" false; Sample.task "b" "Buy bread" false]
    "all" "milk"
  = [Sample.task "a" "Buy Milk" false].
Proof.
  exact (eq_trans
           (proj1 (filterAndSearch_keeps_matching_tasks
                     [Sample.task "a" "Buy Milk" false; Sample.task "b" "Buy bread" false]
                     FilterAll "milk"))
           eq_refl).
Defined.

(** *** Failures of the adapter (C5) *)

Lemma throwForResponse_status (resp : Api.response) :
  Api.throwForResponse resp !! "status" = Some (VNum (Api.status resp)).
Proof.
  unfold Api.throwForResponse.
  rewrite !lookup_insert_ne by done. apply lookup_insert_eq.
Qed.

Lemma throwForResponse_flag (resp : Api.response) :
  Api.throwForResponse resp !! "isNetworkOrServerError"
  = Some (VBool ((500 <=? Api.status resp) && (Api.status resp <=? 599))).
Proof. unfold Api.throwForResponse. apply lookup_insert_eq. Qed.

(** The error of a failure response passes the [catch] clause unchanged. *)
Lemma requestJson_catch_response (resp : Api.response) :
  Api.requestJson_catch (Api.ErrorObject (Api.throwForResponse resp))
  = Api.throwForResponse resp.
Proof.
  unfold Api.requestJson_catch, get.
  by rewrite throwForResponse_status.
Qed.

Lemma requestJson_catch_noStatus (e : Api.thrown) :
  noStatus e →
  Api.requestJson_catch e !! "isNetworkOrServerError" = Some (VBool true).
Proof.
  destruct e as [fields|]; cbn [noStatus Api.requestJson_catch].
  - intros Hno. apply String.eqb_neq in Hno. rewrite Hno. cbn [negb].
    apply lookup_insert_eq.
  - intros _. apply lookup_insert_eq.
Qed.

Lemma isNetworkOrServerError_flagged (err : obj) :
  err !! "isNetworkOrServerError" = Some (VBool true) →
  isNetworkOrServerError (VObj err) = true.
Proof.
  intros Hflag. rewrite isNetworkOrServerError_object.
  unfold field, get. by rewrite Hflag.
Qed.

Lemma isNetworkOrServerError_response (resp : Api.response) :
  isNetworkOrServerError (VObj (Api.throwForResponse resp)) = true
  ↔ 500 ≤ Api.status resp.
Proof.
  rewrite isNetworkOrServerError_object. unfold field, get.
  rewrite throwForResponse_flag, throwForResponse_status.
  cbn [default from_option id truthy].
  rewrite orb_true_iff, andb_true_iff, !Z.leb_le. lia.
Qed.

Lemma perform_sends_requestJson (fetch : Api.network) (op : operation) (req : Api.request) :
  Api.sent (perform fetch op) = [req] →
  perform fetch op = Api.requestJson fetch req.
Proof.
  destruct op as [|payload|id payload|id]; cbn [perform].
  - unfold Api.listTodos. cbn. by intros [= <-].
  - unfold Api.createTodo. cbn. by intros [= <-].
  - unfold Api.updateTodo. destruct (truthy id); cbn; [by intros [= <-]|done].
  - unfold Api.deleteTodo. destruct (truthy id); cbn; [by intros [= <-]|done].
Qed.

(** A response with status 600 makes the operation raise an error that
    carries the status and is not flagged transient. *)
Lemma adapter_flag_is_clear_at_status_600 :
  ∃ err, Api.outcome (perform (Sample.answering 600 VNull) OpList) = Api.Throw err
    ∧ err !! "status" = Some (VNum 600)
    ∧ 500 ≤ 600
    ∧ err !! "isNetworkOrServerError" = Some (VBool false)
    ∧ err !! "isNetworkOrServerError" ≠ Some (VBool true).
Proof.
  eexists. split; [reflexivity|]. vm_compute. repeat split; discriminate.
Qed.

(** C5, amended.  Whichever of the four operations sent the request: a
    response outside 200..299 makes the operation raise an error that
    carries the response status; the adapter flags that error transient
    exactly when the status is in 500..599 and flags it not transient
    otherwise, while the hook's check, which also reads the status, takes
    it for transient exactly when the status is 500 or more; and a failure
    of the transport, which carries no numeric status, raises an error
    that the adapter flags transient. *)
Theorem adapter_failure_is_classified
    (fetch : Api.network) (op : operation) (req : Api.request) :
  Api.sent (perform fetch op) = [req] →
  match fetch req with
  | Api.Resolved resp =>
      Api.ok resp = false →
      ∃ err, Api.outcome (perform fetch op) = Api.Throw err
        ∧ err !! "status" = Some (VNum (Api.status resp))
        ∧ (err !! "isNetworkOrServerError" = Some (VBool true)
           ↔ 500 ≤ Api.status resp ≤ 599)
        ∧ (err !! "isNetworkOrServerError" = Some (VBool false)
           ↔ ¬ (500 ≤ Api.status resp ≤ 599))
        ∧ (isNetworkOrServerError (VObj err) = true ↔ 500 ≤ Api.status resp)
  | Api.Rejected e =>
      noStatus e →
      ∃ err, Api.outcome (perform fetch op) = Api.Throw err
        ∧ err !! "isNetworkOrServerError" = Some (VBool true)
        ∧ isNetworkOrServerError (VObj err) = true
  end.
Proof.
  intros Hsent. rewrite (perform_sends_requestJson _ _ _ Hsent).
  unfold Api.requestJson. cbn [Api.outcome].
  destruct (fetch req) as [resp|e].
  - intros Hok. rewrite Hok. cbn [negb].
    rewrite requestJson_catch_response.
    exists (Api.throwForResponse resp).
    split; [done|]. split; [apply throwForResponse_status|].
    rewrite throwForResponse_flag.
    split; [|split; [|apply isNetworkOrServerError_response]].
    + destruct ((500 <=? Api.status resp) && (Api.status resp <=? 599)) eqn:Hflag.
      * apply andb_true_iff in Hflag. rewrite !Z.leb_le in Hflag. done.
      * apply andb_false_iff in Hflag. rewrite !Z.leb_gt in Hflag.
        split; [done|]. lia.
    + destruct ((500 <=? Api.status resp) && (Api.status resp <=? 599)) eqn:Hflag.
      * apply andb_true_iff in Hflag. rewrite !Z.leb_le in Hflag.
        split; [done|]. intros Hout. by destruct Hout.
      * apply andb_false_iff in Hflag. rewrite !Z.leb_gt in Hflag.
        split; [lia|done].
  - intros Hno. eexists. split; [done|].
    split; [by apply requestJson_catch_noStatus|].
    by apply isNetworkOrServerError_flagged, requestJson_catch_noStatus.
Qed.

Lemma adapter_failure_is_classified_witness :
  ∃ err, Api.outcome (perform (Sample.answering 503 VNull) (OpDelete (VStr "a")))
         = Api.Throw err
    ∧ err !! "status" = Some (VNum 503)
    ∧ (err !! "isNetworkOrServerError" = Some (VBool true) ↔ 500 ≤ 503 ≤ 599)
    ∧ (err !! "isNetworkOrServerError" = Some (VBool false) ↔ ¬ (500 ≤ 503 ≤ 599))
    ∧ (isNetworkOrServerError (VObj err) = true ↔ 500 ≤ 503).
Proof.
  apply (adapter_failure_is_classified (Sample.answering 503 VNull)
           (OpDelete (VStr "a"))
           (Api.Request Api.DELETE (Api.TodoById "a") None)).
  - reflexivity.
  - reflexivity.
Defined.

(** *** Toggling a task (C9) *)

Lemma find_map_preserving {A} (p : A → bool) (g : A → A) (l : list A) :
  (∀ x, p (g x) = p x) →
  List.find p (List.map g l) = option_map g (List.find p l).
Proof.
  intros Hp. induction l as [|x l IH]; [done|].
  cbn [List.map List.find]. rewrite Hp. by destruct (p x).
Qed.

Lemma find_absent {A} (p : A → bool) (l : list A) :
  (∀ x, In x l → p x = false) → List.find p l = None.
Proof.
  induction l as [|x l IH]; [done|]. intros Hall. cbn [List.find].
  rewrite (Hall x) by (by left). apply IH. intros y Hy. apply Hall. by right.
Qed.

Lemma hasId_set_completed (id v : value) (t : obj) :
  hasId id (<[ "completed" := v ]> t) = hasId id t.
Proof. unfold hasId. by rewrite field_insert_ne. Qed.

Lemma completed_set_completed (b : bool) (t : obj) :
  completed (<[ "completed" := VBool b ]> t) = b.
Proof. unfold completed. by rewrite field_insert_eq. Qed.

Section Toggle.

Variable fetch : Api.network.

(** A toggle that goes through writes the negated flag of the first task
    with the identifier into every task with the identifier. *)
Lemma toggleTodo_applied id target st :
  truthy id = true →
  List.find (hasId id) (allTasks st) = Some target →
  (provider st = ModeLocal ∨ ∀ payload, succeeds (Api.updateTodo fetch id payload)) →
  toggleTodo fetch id st
  = setAllTasks
      (List.map (fun t => if hasId id t
                          then <[ "completed" := VBool (negb (completed target)) ]> t
                          else t)
         (allTasks st)) st.
Proof.
  intros Hid Hfind Hcommit. unfold toggleTodo. rewrite Hid. cbn [negb].
  fold (hasId id). rewrite Hfind. fold (completed target).
  assert (Hmap : ∀ ts,
    List.map (fun t => if strictEq (field t "id") id
                       then spread t {[ "completed" := VBool (negb (completed target)) ]}
                       else t) ts
    = List.map (fun t => if hasId id t
                         then <[ "completed" := VBool (negb (completed target)) ]> t
                         else t) ts).
  { intros ts. apply List.map_ext. intros t. by rewrite spread_singleton. }
  destruct (provider st) eqn:Hp.
  - rewrite withOptimistic_local. by rewrite Hmap.
  - destruct Hcommit as [Hlocal|Hok]; [done|].
    rewrite (withOptimistic_resolved _ _ _ (setAllTasks
      (List.map (fun t => if strictEq (field t "id") id
                          then spread t {[ "completed" := VBool (negb (completed target)) ]}
                          else t) (allTasks st)) st)).
    + by rewrite Hmap.
    + by apply await_succeeds.
Qed.

Lemma toggleTodo_absent id st :
  (∀ t, In t (allTasks st) → hasId id t = false) →
  toggleTodo fetch id st = st.
Proof.
  intros Habsent. unfold toggleTodo.
  destruct (truthy id); [|done]. cbn [negb].
  fold (hasId id). by rewrite find_absent.
Qed.

End Toggle.

(** A task whose flag is stored as the number 1 has the flag [true] after
    two toggles: the list is not the one the toggles started from. *)
Lemma toggleTodo_twice_changes_numeric_flag :
  hasId (VStr "a") (<[ "completed" := VNum 1 ]> (Sample.task "a" "x" false)) = true
  ∧ allTasks (toggleTodo Sample.offline (VStr "a")
                (toggleTodo Sample.offline (VStr "a")
                   (Sample.local [<[ "completed" := VNum 1 ]> (Sample.task "a" "x" false)])))
    = [Sample.task "a" "x" true]
  ∧ Sample.task "a" "x" true !! "completed" = Some (VBool true)
  ∧ (<[ "completed" := VNum 1 ]> (Sample.task "a" "x" false)) !! "completed"
    = Some (VNum 1)
  ∧ toggleTodo Sample.offline (VStr "a")
      (toggleTodo Sample.offline (VStr "a")
         (Sample.local [<[ "completed" := VNum 1 ]> (Sample.task "a" "x" false)]))
    ≠ Sample.local [<[ "completed" := VNum 1 ]> (Sample.task "a" "x" false)].
Proof.
  split; [reflexivity|]. split; [vm_compute; reflexivity|].
  split; [reflexivity|]. split; [reflexivity|].
  intros Heq. apply (f_equal allTasks) in Heq.
  apply (f_equal (List.map (fun t => t !! "completed"))) in Heq.
  vm_compute in Heq. discriminate Heq.
Qed.

(** C9, amended.  In local mode, or with both update calls succeeding: when
    the tasks identified by [id] (the one task, where identifiers are
    unique) store the boolean flag [b], one toggle of a non-empty [id]
    stores the flag [negb b] in them and a second toggle gives back the
    state the first one started from; when no task is identified by [id], a
    toggle leaves the state unchanged.  Whatever the flags are, two toggles
    store in every task identified by [id] the truth value, as a boolean,
    of the flag of the first such task. *)
Theorem toggleTodo_twice_is_identity
    (fetch : Api.network) (id : value) (b : bool) (st : state) :
  ((provider st = ModeLocal ∨ ∀ payload, succeeds (Api.updateTodo fetch id payload)) →
   (∃ t, In t (allTasks st) ∧ hasId id t = true) →
   (∀ t, In t (allTasks st) → hasId id t = true →
         t !! "completed" = Some (VBool b)) →
   toggleTodo fetch id (toggleTodo fetch id st) = st
   ∧ (truthy id = true →
      ∀ t, In t (allTasks (toggleTodo fetch id st)) → hasId id t = true →
           t !! "completed" = Some (VBool (negb b))))
  ∧ ((∀ t, In t (allTasks st) → hasId id t = false) →
     toggleTodo fetch id st = st)
  ∧ ((provider st = ModeLocal ∨ ∀ payload, succeeds (Api.updateTodo fetch id payload)) →
     truthy id = true →
     ∀ target, List.find (hasId id) (allTasks st) = Some target →
       toggleTodo fetch id (toggleTodo fetch id st)
       = setAllTasks
           (List.map (fun t => if hasId id t
                               then <[ "completed" := VBool (completed target) ]> t
                               else t)
              (allTasks st)) st).
Proof.
  assert (Htwice :
    (provider st = ModeLocal ∨ ∀ payload, succeeds (Api.updateTodo fetch id payload)) →
    truthy id = true →
    ∀ target, List.find (hasId id) (allTasks st) = Some target →
      toggleTodo fetch id (toggleTodo fetch id st)
      = setAllTasks
          (List.map (fun t => if hasId id t
                              then <[ "completed" := VBool (completed target) ]> t
                              else t)
             (allTasks st)) st).
  { intros Hcommit Hid target Hfind.
    destruct (List.find_some _ _ Hfind) as [Hin Hhas].
    rewrite (toggleTodo_applied fetch id target st Hid Hfind Hcommit).
    rewrite (toggleTodo_applied fetch id
               (<[ "completed" := VBool (negb (completed target)) ]> target)).
    - cbn [allTasks setAllTasks]. rewrite completed_set_completed, negb_involutive.
      rewrite List.map_map. destruct st as [p ts n]. unfold setAllTasks.
      cbn [provider allTasks generated] in *. f_equal.
      apply List.map_ext. intros t.
      destruct (hasId id t) eqn:Ht_id.
      + rewrite hasId_set_completed, Ht_id. by rewrite insert_insert_eq.
      + by rewrite Ht_id.
    - done.
    - cbn [allTasks setAllTasks].
      rewrite find_map_preserving.
      + rewrite Hfind. cbn [option_map]. by rewrite Hhas.
      + intros t. destruct (hasId id t) eqn:Ht_id;
          [by rewrite hasId_set_completed|done].
    - done. }
  split; [|split; [apply toggleTodo_absent|exact Htwice]].
  intros Hcommit (t0 & Hin0 & Hid0) Hflag.
  destruct (truthy id) eqn:Hid; cycle 1.
  { split; [|done]. unfold toggleTodo. by rewrite Hid. }
  destruct (List.find (hasId id) (allTasks st)) as [target|] eqn:Hfind; cycle 1.
  { pose proof (List.find_none _ _ Hfind t0 Hin0) as Hno. congruence. }
  destruct (List.find_some _ _ Hfind) as [Hin Hhas].
  assert (Hb : completed target = b).
  { unfold completed, field, get. by rewrite (Hflag target Hin Hhas). }
  split.
  - rewrite (Htwice Hcommit eq_refl target eq_refl), Hb.
    destruct st as [p ts n]. unfold setAllTasks.
    cbn [provider allTasks generated] in *. f_equal.
    rewrite <- (List.map_id ts) at 2. apply List.map_ext_in. intros t Ht.
    destruct (hasId id t) eqn:Ht_id; [|done].
    by apply insert_id, Hflag.
  - intros _ t Ht Ht_id.
    rewrite (toggleTodo_applied fetch id target st Hid Hfind Hcommit), Hb in Ht.
    cbn [allTasks setAllTasks] in Ht.
    apply List.in_map_iff in Ht as (t' & <- & Ht').
    destruct (hasId id t') eqn:Ht'_id.
    + apply lookup_insert_eq.
    + congruence.
Qed.

Lemma toggleTodo_twice_is_identity_witness :
  (toggleTodo Sample.offline (VStr "2")
     (toggleTodo Sample.offline (VStr "2") (Sample.local Sample.threeTasks))
   = Sample.local Sample.threeTasks
   ∧ (truthy (VStr "2") = true →
      ∀ t, In t (allTasks (toggleTodo Sample.offline (VStr "2")
                             (Sample.local Sample.threeTasks))) →
           hasId (VStr "2") t = true →
           t !! "completed" = Some (VBool (negb false))))
  ∧ toggleTodo Sample.offline (VStr "9") (Sample.local Sample.threeTasks)
    = Sample.local Sample.threeTasks.
Proof.
  split.
  - apply (toggleTodo_twice_is_identity Sample.offline (VStr "2") false
             (Sample.local Sample.threeTasks)).
    + left. reflexivity.
    + exists (Sample.task "2" "two" false). split; [|reflexivity].
      right. left. reflexivity.
    + intros t [<-|[<-|[<-|[]]]]; vm_compute; intros H; first [discriminate H | reflexivity].
  - apply (toggleTodo_twice_is_identity Sample.offline (VStr "9") false
             (Sample.local Sample.threeTasks)).
    intros t [<-|[<-|[<-|[]]]]; reflexivity.
Defined.

(** *** Identifiers under mutation (C2) *)

Lemma ids_map_preserving (g : obj → obj) (tasks : list obj) :
  (∀ t, field (g t) "id" = field t "id") → ids (List.map g tasks) = ids tasks.
Proof.
  intros Hg. unfold ids. rewrite List.map_map. by apply List.map_ext.
Qed.

Section Identifiers.

Variable generateId : nat → string.
Variable fetch : Api.network.

(** After a toggle, update or delete, the list is the optimistic one or the
    snapshot. *)
Lemma withOptimistic_await_tasks p change (c : Api.call) st :
  let st' :=
    withOptimistic p change
      (match p with
       | ModeApi => await_ c
       | ModeLocal => fun st => (st, None)
       end) restoreSnapshot st in
  allTasks st' = change (allTasks st) ∨ allTasks st' = allTasks st.
Proof.
  destruct p; [by left|]. unfold withOptimistic, await_. cbn zeta.
  destruct (Api.outcome c) as [v|err]; [by left|right].
  cbn [restoreSnapshot]. by destruct (isNetworkOrServerError (VObj err)).
Qed.

Lemma toggleTodo_ids id st :
  ids (allTasks (toggleTodo fetch id st)) = ids (allTasks st).
Proof.
  unfold toggleTodo. destruct (truthy id); [|done]. cbn [negb].
  destruct (List.find _ _) as [target|]; [|done].
  destruct (withOptimistic_await_tasks (provider st)
              (List.map (fun t => if strictEq (field t "id") id
                                  then spread t {[ "completed" :=
                                         VBool (negb (truthy (field target "completed"))) ]}
                                  else t))
              (Api.updateTodo fetch id
                 (VObj {[ "completed" :=
                            VBool (negb (truthy (field target "completed"))) ]}))
              st) as [-> | ->]; [|done].
  apply ids_map_preserving. intros t.
  destruct (strictEq (field t "id") id); [|done].
  rewrite spread_singleton. by apply field_insert_ne.
Qed.

Lemma updateTodo_ids id updates st :
  ownProps updates !! "id" = None →
  ids (allTasks (updateTodo fetch id updates st)) = ids (allTasks st).
Proof.
  intros Hno. unfold updateTodo. destruct (_ || _ || _); [done|].
  rewrite spread_empty_l.
  set (safeUpdates := match field (ownProps updates) "title" with
                      | VStr title => <[ "title" := VStr (trim title) ]> (ownProps updates)
                      | _ => ownProps updates
                      end).
  assert (Hsafe : safeUpdates !! "id" = None).
  { subst safeUpdates. destruct (field (ownProps updates) "title"); try done.
    by rewrite lookup_insert_ne. }
  destruct (withOptimistic_await_tasks (provider st)
              (List.map (fun t => if strictEq (field t "id") id
                                  then spread t safeUpdates else t))
              (Api.updateTodo fetch id (VObj safeUpdates)) st) as [-> | ->]; [|done].
  apply ids_map_preserving. intros t.
  destruct (strictEq (field t "id") id); [|done].
  by apply field_spread_absent.
Qed.

Lemma deleteTodo_sublist id st :
  sublist (allTasks (deleteTodo fetch id st)) (allTasks st).
Proof.
  unfold deleteTodo. destruct (truthy id); [|done]. cbn [negb].
  destruct (withOptimistic_await_tasks (provider st)
              (List.filter (fun t => negb (strictEq (field t "id") id)))
              (Api.deleteTodo fetch id) st) as [-> | ->]; [|done].
  apply filter_sublist.
Qed.

Lemma addTodo_keeps_tasks title st :
  (∀ t, In t (allTasks st) → hasId (VStr (generateId (generated st))) t = false) →
  ∃ created, allTasks (addTodo generateId fetch title st) = (created ++ allTasks st)%list.
Proof.
  intros Hfresh.
  destruct (decide (trim (ToString (or_ title (VStr ""))) = "")) as [Hblank|Hne].
  { exists []. by rewrite addTodo_blank. }
  destruct (provider st) eqn:Hp.
  { eexists [_]. by rewrite addTodo_local. }
  unfold addTodo.
  apply truthy_VStr in Hne. rewrite Hne. cbn [negb].
  unfold runGen, freshId. cbn [generated provider allTasks].
  rewrite normalizeTodo_placeholder. rewrite Hp.
  unfold withOptimistic.
  destruct (Api.outcome _) as [created|err].
  - cbn [generated provider allTasks setAllTasks].
    destruct (normalizeTodo generateId created (S (generated st))) as [[server|] n'].
    + cbn [allTasks setAllTasks List.map]. eexists [_]. cbn [app]. f_equal.
      rewrite <- (List.map_id (allTasks st)) at 2.
      apply List.map_ext_in. intros t Ht.
      rewrite field_insert_eq. fold (hasId (VStr (generateId (generated st))) t).
      by rewrite Hfresh.
    + by eexists [_].
  - exists []. cbn [restoreSnapshot]. by destruct (isNetworkOrServerError (VObj err)).
Qed.

End Identifiers.

(** An update whose fields carry an [id] overwrites the identifier of the
    task it matches. *)
Lemma updateTodo_overwrites_id :
  ids (allTasks (Sample.local [Sample.task "a" "x" false])) = [VStr "a"]
  ∧ ids (allTasks (updateTodo Sample.offline (VStr "a") (VObj {[ "id" := VStr "b" ]})
                     (Sample.local [Sample.task "a" "x" false])))
    = [VStr "b"]
  ∧ ids (allTasks (updateTodo Sample.offline (VStr "a") (VObj {[ "id" := VStr "b" ]})
                     (Sample.local [Sample.task "a" "x" false])))
    ≠ ids (allTasks (Sample.local [Sample.task "a" "x" false])).
Proof. vm_compute. repeat split; discriminate. Qed.

(** C2, amended.  No mutation changes the identifier of a task that is in
    the list, provided the fields of an update carry no [id]: a toggle and
    such an update leave the sequence of identifiers as it is, a delete and
    [clearCompleted] leave a subsequence of the tasks, untouched, and an add
    whose generated identifier is not in use leaves the tasks that were in
    the list, untouched, behind what it creates. *)
Theorem mutations_keep_identifiers
    (generateId : nat → string) (fetch : Api.network) (m : mutation) (st : state) :
  match m with
  | Add _ =>
      (∀ t, In t (allTasks st) → hasId (VStr (generateId (generated st))) t = false) →
      ∃ created, allTasks (mutate generateId fetch m st) = (created ++ allTasks st)%list
  | Toggle _ =>
      ids (allTasks (mutate generateId fetch m st)) = ids (allTasks st)
  | Update _ updates =>
      ownProps updates !! "id" = None →
      ids (allTasks (mutate generateId fetch m st)) = ids (allTasks st)
  | Delete _ | ClearCompleted =>
      sublist (allTasks (mutate generateId fetch m st)) (allTasks st)
  end.
Proof.
  destruct m as [title|id|id updates|id|]; cbn [mutate].
  - apply addTodo_keeps_tasks.
  - apply toggleTodo_ids.
  - apply updateTodo_ids.
  - apply deleteTodo_sublist.
  - rewrite (proj1 (clearCompleted_unfold fetch st)).
    apply filter_sublist.
Qed.

Lemma mutations_keep_identifiers_witness :
  ids (allTasks (mutate Sample.generateId Sample.offline
                   (Update (VStr "2") (VObj {[ "title" := VStr " deux " ]}))
                   (Sample.local Sample.threeTasks)))
  = ids (allTasks (Sample.local Sample.threeTasks))
  ∧ ∃ created,
      allTasks (mutate Sample.generateId Sample.offline (Add (VStr "four"))
                  (Sample.local Sample.threeTasks))
      = (created ++ allTasks (Sample.local Sample.threeTasks))%list.
Proof.
  split.
  - apply (mutations_keep_identifiers Sample.generateId Sample.offline
             (Update (VStr "2") (VObj {[ "title" := VStr " deux " ]}))
             (Sample.local Sample.threeTasks)).
    reflexivity.
  - apply (mutations_keep_identifiers Sample.generateId Sample.offline
             (Add (VStr "four")) (Sample.local Sample.threeTasks)).
    intros t [<-|[<-|[<-|[]]]]; reflexivity.
Defined.

(** *** Titles and white space (C1) *)

Lemma leadingSpace_trimStart (s : string) : leadingSpace (trimStart s) = false.
Proof.
  induction s as [|c s IH]; [done|]. cbn [trimStart].
  destruct (isWhiteSpace c) eqn:Hc; [done|]. cbn [leadingSpace]. exact Hc.
Qed.

Lemma trailingSpace_trimEnd (s : string) : trailingSpace (trimEnd s) = false.
Proof.
  induction s as [|c s IH]; [done|]. cbn [trimEnd].
  destruct (trimEnd s) as [|c' r].
  - destruct (isWhiteSpace c) eqn:Hc; [done|]. cbn [trailingSpace]. exact Hc.
  - exact IH.
Qed.

Lemma leadingSpace_trimEnd (s : string) :
  leadingSpace s = false → leadingSpace (trimEnd s) = false.
Proof.
  destruct s as [|c s]; [done|]. cbn [leadingSpace trimEnd]. intros Hc.
  destruct (trimEnd s); [by rewrite Hc|done].
Qed.

(** [trim] leaves no white space at either end. *)
Lemma trim_clean (s : string) :
  leadingSpace (trim s) = false ∧ trailingSpace (trim s) = false.
Proof.
  unfold trim. split.
  - apply leadingSpace_trimEnd, leadingSpace_trimStart.
  - apply trailingSpace_trimEnd.
Qed.

(** The task that [addTodo] puts in the list has a trimmed title. *)
Lemma addTodo_stores_trimmed_title
    (generateId : nat → string) (fetch : Api.network) (text : value) (st : state) :
  provider st = ModeLocal →
  trim (ToString (or_ text (VStr ""))) ≠ "" →
  ∃ t rest s,
    allTasks (addTodo generateId fetch text st) = t :: rest
    ∧ field t "title" = VStr s
    ∧ leadingSpace s = false ∧ trailingSpace s = false.
Proof.
  intros Hp Hne. rewrite addTodo_local by done.
  eexists _, _, _. split; [reflexivity|]. split.
  - rewrite field_insert_ne by done. apply field_insert_eq.
  - apply trim_clean.
Qed.

(** [normalizeTodo] hands every own property of an object through as it
    is: the spread of the object comes after the defaults. *)
Lemma normalizeTodo_keeps_own_properties
    (generateId : nat → string) (o : obj) (k : string) (v : value) (n : nat) :
  o !! k = Some v →
  ∃ o' n', normalizeTodo generateId (VObj o) n = (Some o', n') ∧ o' !! k = Some v.
Proof.
  intros Hk. rewrite normalizeTodo_object.
  destruct (nullish _ _); eexists _, _; (split; [reflexivity|]);
    unfold spread; by apply lookup_union_Some_l.
Qed.

(** C1.  A stored task, or a task of the remote list, whose title is padded
    with white space is in the task list after mount with its title still
    padded: [normalizeTodo] computes the trimmed title and then spreads the
    object, whose own [title] replaces it. *)
Theorem mount_keeps_padded_title :
  List.map (fun t => field t "title")
    (allTasks (mounted Sample.generateId Sample.paddedStore Sample.noEnv Sample.offline))
  = [VStr "  Buy milk "]
  ∧ List.map (fun t => field t "title")
      (allTasks (mounted Sample.generateId None Sample.remoteEnv
                   (Sample.answering 200
                      (VArr [VObj (Sample.task "a" "  Buy milk " false)]))))
    = [VStr "  Buy milk "]
  ∧ leadingSpace "  Buy milk " = true
  ∧ trailingSpace "  Buy milk " = true.
Proof. vm_compute. done. Qed.

(** *** The scenarios of the specification *)

Example search_milk :
  filterAndSearch [Sample.task "a" "Buy Milk" false; Sample.task "b" "Buy bread" false]
    "all" "milk"
  = [Sample.task "a" "Buy Milk" false].
Proof. reflexivity. Qed.

Example clear_three :
  ∀ fetch, allTasks (clearCompleted fetch (Sample.remote Sample.threeTasks))
           = [Sample.task "2" "two" false].
Proof. reflexivity. Qed.

Example transient_list_falls_back :
  mounted Sample.generateId (Some [VObj (Sample.task "a" "x" true)])
    Sample.remoteEnv (Sample.answering 503 VNull)
  = State ModeLocal [Sample.task "a" "x" true] 0.
Proof. vm_compute. reflexivity. Qed.

Example rejected_create_disappears :
  addTodo Sample.generateId (Sample.answering 422 VNull) (VStr "Buy milk")
    (Sample.remote [])
  = State ModeApi [] 1.
Proof. vm_compute. reflexivity. Qed.

Example status_999_is_taken_for_transient :
  addTodo Sample.generateId (Sample.answering 999 VNull) (VStr "Buy milk")
    (Sample.remote [])
  = State ModeLocal [] 1.
Proof. vm_compute. reflexivity. Qed.

(* ===================================================================== *)
(** ** Further properties of the hook *)
(* ===================================================================== *)

(** *** Guards, transient failures and the one-way mode *)

Section Commit.

Variable generateId : nat → string.
Variable fetch : Api.network.

Lemma await_transient (c : Api.call) st :
  failsTransient c →
  ∃ err, await_ c st = (st, Some err) ∧ isNetworkOrServerError (VObj err) = true.
Proof.
  intros (err & Hout & Htr). exists err. split; [|done].
  unfold await_. by rewrite Hout.
Qed.

Lemma demote_await change (c : Api.call) st :
  failsTransient c →
  withOptimistic ModeApi change (await_ c) restoreSnapshot st = setProvider ModeLocal st.
Proof.
  intros Hc.
  destruct (await_transient c (setAllTasks (change (allTasks st)) st) Hc)
    as (err & Hcall & Htr).
  rewrite (withOptimistic_transient _ _ _ _ _ Hcall Htr).
  by rewrite setAllTasks_twice, setAllTasks_same.
Qed.

Lemma resolve_await change (c : Api.call) st :
  succeeds c →
  withOptimistic ModeApi change (await_ c) restoreSnapshot st
  = setAllTasks (change (allTasks st)) st.
Proof.
  intros Hc. apply withOptimistic_resolved. by apply await_succeeds.
Qed.

Lemma guard_update_false id updates :
  truthy id && truthy updates && String.eqb (typeof updates) "object" = false →
  negb (truthy id) || negb (truthy updates)
  || negb (String.eqb (typeof updates) "object") = true.
Proof. by destruct (truthy id), (truthy updates), (String.eqb _ _). Qed.

Lemma guard_update_true id updates :
  truthy id && truthy updates && String.eqb (typeof updates) "object" = true →
  negb (truthy id) || negb (truthy updates)
  || negb (String.eqb (typeof updates) "object") = false.
Proof. by destruct (truthy id), (truthy updates), (String.eqb _ _). Qed.

Lemma addTodo_remote_transient text st :
  provider st = ModeApi →
  trim (ToString (or_ text (VStr ""))) ≠ "" →
  (∀ payload, failsTransient (Api.createTodo fetch payload)) →
  addTodo generateId fetch text st
  = State ModeLocal (allTasks st) (S (generated st)).
Proof.
  intros Hp Hne Htr. unfold addTodo.
  apply truthy_VStr in Hne. rewrite Hne. cbn [negb].
  unfold runGen, freshId. cbn [generated provider allTasks].
  rewrite normalizeTodo_placeholder. rewrite Hp.
  unfold withOptimistic.
  destruct (Htr (VObj (<[ "title" := VStr (trim (ToString (or_ text (VStr "")))) ]>
                         {[ "completed" := VBool false ]})))
    as (err & Hout & Herr).
  rewrite Hout. cbn [restoreSnapshot]. by rewrite Herr.
Qed.

End Commit.

(** X1.  A mutation that does not pass its guard (a blank title, a missing
    identifier, a toggle of an identifier no task has, fields that are no
    object, no completed task to clear) returns the state it was given, in
    either mode and whatever the network would answer. *)
Theorem guarded_mutation_changes_nothing
    (generateId : nat → string) (fetch : Api.network) (m : mutation) (st : state) :
  passesGuard m st = false → mutate generateId fetch m st = st.
Proof.
  destruct m as [text|id|id updates|id|]; cbn [mutate passesGuard]; intros Hg.
  - apply addTodo_blank. by apply truthy_VStr_false.
  - unfold toggleTodo. destruct (truthy id); [|done]. cbn [negb andb] in *.
    by destruct (List.find _ _).
  - unfold updateTodo. by rewrite guard_update_false.
  - unfold deleteTodo. by rewrite Hg.
  - unfold clearCompleted. apply negb_false_iff in Hg. by rewrite Hg.
Qed.

Lemma guarded_mutation_changes_nothing_witness :
  mutate Sample.generateId (Sample.answering 500 VNull) (Toggle (VStr "9"))
    (Sample.remote Sample.threeTasks)
  = Sample.remote Sample.threeTasks.
Proof.
  apply (guarded_mutation_changes_nothing Sample.generateId (Sample.answering 500 VNull)
           (Toggle (VStr "9")) (Sample.remote Sample.threeTasks)).
  reflexivity.
Defined.

(** X2.  In remote mode, a mutation that passes its guard and whose commit
    fails with a transient error ends with the task list it started from and
    with the provider demoted to local. *)
Theorem transient_commit_demotes_to_local
    (generateId : nat → string) (fetch : Api.network) (m : mutation) (st : state) :
  provider st = ModeApi →
  passesGuard m st = true →
  commitTransient fetch m →
  allTasks (mutate generateId fetch m st) = allTasks st
  ∧ provider (mutate generateId fetch m st) = ModeLocal.
Proof.
  intros Hp Hg Htr.
  destruct m as [text|id|id updates|id|]; cbn [mutate passesGuard commitTransient] in *.
  - rewrite addTodo_remote_transient; [done|done| |done].
    by apply truthy_VStr.
  - unfold toggleTodo. apply andb_true_iff in Hg as [Hid Hfind].
    rewrite Hid. cbn [negb]. destruct (List.find _ _) as [target|]; [|done].
    rewrite Hp. by rewrite demote_await.
  - unfold updateTodo. rewrite guard_update_true by done.
    rewrite Hp. by rewrite demote_await.
  - unfold deleteTodo. rewrite Hg. cbn [negb].
    rewrite Hp. by rewrite demote_await.
  - done.
Qed.

Lemma transient_commit_demotes_to_local_witness :
  allTasks (mutate Sample.generateId Sample.offline (Delete (VStr "2"))
              (Sample.remote Sample.threeTasks))
  = Sample.threeTasks
  ∧ provider (mutate Sample.generateId Sample.offline (Delete (VStr "2"))
                (Sample.remote Sample.threeTasks))
    = ModeLocal.
Proof.
  apply (transient_commit_demotes_to_local Sample.generateId Sample.offline
           (Delete (VStr "2")) (Sample.remote Sample.threeTasks)).
  - reflexivity.
  - reflexivity.
  - eexists. split; vm_compute; reflexivity.
Defined.


Section LocalMode.

Variable generateId : nat → string.

Lemma mutate_local (fetch fetch' : Api.network) m st :
  provider st = ModeLocal →
  mutate generateId fetch m st = mutate generateId fetch' m st
  ∧ provider (mutate generateId fetch m st) = ModeLocal.
Proof.
  intros Hp. destruct m as [text|id|id updates|id|]; cbn [mutate].
  - destruct (decide (trim (ToString (or_ text (VStr ""))) = "")) as [Hblank|Hne].
    + by rewrite !addTodo_blank.
    + by rewrite !addTodo_local.
  - unfold toggleTodo. destruct (truthy id); [|done]. cbn [negb].
    destruct (List.find _ _); [|done]. by rewrite Hp.
  - unfold updateTodo. destruct (_ || _ || _); [done|]. by rewrite Hp.
  - unfold deleteTodo. destruct (truthy id); [|done]. by rewrite Hp.
  - unfold clearCompleted. destruct (_ =? _)%nat; [done|]. by rewrite Hp.
Qed.

End LocalMode.

(** X3.  Once the provider is local it stays local through every run of
    mutations, and the run does not depend on the network: the remote
    adapter is not consulted again.  Hence no run of mutations turns a
    local session into a remote one. *)
Theorem local_mode_is_final
    (generateId : nat → string) (fetch fetch' : Api.network)
    (ms : list mutation) (st : state) :
  (provider st = ModeLocal →
   mutateAll generateId fetch ms st = mutateAll generateId fetch' ms st
   ∧ provider (mutateAll generateId fetch ms st) = ModeLocal)
  ∧ (provider (mutateAll generateId fetch ms st) = ModeApi → provider st = ModeApi).
Proof.
  assert (Hlocal : ∀ st, provider st = ModeLocal →
    mutateAll generateId fetch ms st = mutateAll generateId fetch' ms st
    ∧ provider (mutateAll generateId fetch ms st) = ModeLocal).
  { clear st. induction ms as [|m ms IH]; intros st Hp; [done|].
    unfold mutateAll. cbn [fold_left]. fold (mutateAll generateId fetch ms).
    fold (mutateAll generateId fetch' ms).
    destruct (mutate_local generateId fetch fetch' m st Hp) as [Heq Hp'].
    rewrite <- Heq. by apply IH. }
  split; [apply Hlocal|].
  intros Hapi. destruct (provider st) eqn:Hp; [|done].
  destruct (Hlocal st Hp) as [_ Hl]. congruence.
Qed.

Lemma local_mode_is_final_witness :
  mutateAll Sample.generateId Sample.offline
    [Add (VStr "four"); Toggle (VStr "2"); ClearCompleted] (Sample.local Sample.threeTasks)
  = mutateAll Sample.generateId (Sample.answering 200 VNull)
      [Add (VStr "four"); Toggle (VStr "2"); ClearCompleted] (Sample.local Sample.threeTasks)
  ∧ provider (mutateAll Sample.generateId Sample.offline
                [Add (VStr "four"); Toggle (VStr "2"); ClearCompleted]
                (Sample.local Sample.threeTasks))
    = ModeLocal.
Proof.
  apply (local_mode_is_final Sample.generateId Sample.offline (Sample.answering 200 VNull)
           [Add (VStr "four"); Toggle (VStr "2"); ClearCompleted]
           (Sample.local Sample.threeTasks)).
  reflexivity.
Defined.

(** *** Deleting and updating *)

Lemma filter_filter_same {A} (p : A → bool) (l : list A) :
  List.filter p (List.filter p l) = List.filter p l.
Proof.
  induction l as [|x l IH]; [done|]. cbn [List.filter].
  destruct (p x) eqn:Hx; [|done]. cbn [List.filter]. by rewrite Hx, IH.
Qed.

Section DeleteUpdate.

Variable fetch : Api.network.

Lemma deleteTodo_applied id st :
  truthy id = true →
  (provider st = ModeLocal ∨ succeeds (Api.deleteTodo fetch id)) →
  deleteTodo fetch id st
  = setAllTasks (List.filter (fun t => negb (hasId id t)) (allTasks st)) st.
Proof.
  intros Hid Hcommit. unfold deleteTodo. rewrite Hid. cbn [negb].
  destruct (provider st) eqn:Hp; [done|].
  destruct Hcommit as [?|Hok]; [done|]. by rewrite resolve_await.
Qed.

Lemma updateTodo_applied id updates st :
  truthy id && truthy updates && String.eqb (typeof updates) "object" = true →
  (provider st = ModeLocal ∨ ∀ payload, succeeds (Api.updateTodo fetch id payload)) →
  updateTodo fetch id updates st
  = setAllTasks
      (List.map
         (fun t => if hasId id t
                   then spread t
                          (match field (ownProps updates) "title" with
                           | VStr s => <[ "title" := VStr (trim s) ]> (ownProps updates)
                           | _ => ownProps updates
                           end)
                   else t)
         (allTasks st)) st.
Proof.
  intros Hg Hcommit. unfold updateTodo. rewrite guard_update_true by done.
  rewrite spread_empty_l.
  destruct (provider st) eqn:Hp; [done|].
  destruct Hcommit as [?|Hok]; [done|]. by rewrite resolve_await.
Qed.

End DeleteUpdate.

(** The fields an update merges: the own properties of its argument, with a
    string title trimmed. *)
Lemma safeUpdates_lookup (updates : value) (k : string) :
  (match field (ownProps updates) "title" with
   | VStr s => <[ "title" := VStr (trim s) ]> (ownProps updates)
   | _ => ownProps updates
   end) !! k
  = if decide (k = "title")
    then match ownProps updates !! "title" with
         | Some (VStr s) => Some (VStr (trim s))
         | o => o
         end
    else ownProps updates !! k.
Proof.
  unfold field, get.
  destruct (ownProps updates !! "title") as [v|] eqn:Ht; cbn.
  - destruct v; case_decide; subst; try done.
    + apply lookup_insert_eq.
    + by rewrite lookup_insert_ne.
  - case_decide; by subst.
Qed.

(** X4.  In local mode, or with the delete call succeeding: a delete of a
    non-empty identifier keeps, in order, exactly the tasks that do not have
    the identifier, so no task with the identifier is left; and deleting the
    same identifier a second time changes nothing. *)
Theorem deleteTodo_removes_and_is_idempotent
    (fetch : Api.network) (id : value) (st : state) :
  (provider st = ModeLocal ∨ succeeds (Api.deleteTodo fetch id)) →
  (truthy id = true →
   allTasks (deleteTodo fetch id st)
   = List.filter (fun t => negb (hasId id t)) (allTasks st)
   ∧ ∀ t, In t (allTasks (deleteTodo fetch id st)) → hasId id t = false)
  ∧ deleteTodo fetch id (deleteTodo fetch id st) = deleteTodo fetch id st.
Proof.
  intros Hcommit. destruct (truthy id) eqn:Hid; cycle 1.
  { split; [done|]. unfold deleteTodo. by rewrite Hid. }
  rewrite (deleteTodo_applied fetch id st Hid Hcommit). split.
  - intros _. split; [done|]. intros t Ht. cbn [allTasks setAllTasks] in Ht.
    apply List.filter_In in Ht as [_ Ht]. by apply negb_true_iff.
  - rewrite deleteTodo_applied; [|done|done].
    cbn [allTasks setAllTasks]. rewrite filter_filter_same.
    apply setAllTasks_twice.
Qed.

Lemma deleteTodo_removes_and_is_idempotent_witness :
  (truthy (VStr "2") = true →
   allTasks (deleteTodo (Sample.answering 204 VNull) (VStr "2")
               (Sample.remote Sample.threeTasks))
   = List.filter (fun t => negb (hasId (VStr "2") t)) Sample.threeTasks
   ∧ ∀ t, In t (allTasks (deleteTodo (Sample.answering 204 VNull) (VStr "2")
                            (Sample.remote Sample.threeTasks))) →
          hasId (VStr "2") t = false)
  ∧ deleteTodo (Sample.answering 204 VNull) (VStr "2")
      (deleteTodo (Sample.answering 204 VNull) (VStr "2") (Sample.remote Sample.threeTasks))
    = deleteTodo (Sample.answering 204 VNull) (VStr "2") (Sample.remote Sample.threeTasks).
Proof.
  apply (deleteTodo_removes_and_is_idempotent (Sample.answering 204 VNull) (VStr "2")
           (Sample.remote Sample.threeTasks)).
  right. eexists. reflexivity.
Defined.

(** X5.  In local mode, or with the update call succeeding: an update whose
    identifier and fields pass the guard leaves every task without the
    identifier as it is and, in every task with the identifier, stores a
    string title of the fields trimmed, stores every other field as given,
    and keeps the properties the fields do not name. *)
Theorem updateTodo_merges_fields
    (fetch : Api.network) (id updates : value) (st : state) :
  truthy id && truthy updates && String.eqb (typeof updates) "object" = true →
  (provider st = ModeLocal ∨ ∀ payload, succeeds (Api.updateTodo fetch id payload)) →
  Forall2
    (fun t t' =>
       if hasId id t
       then (∀ s, ownProps updates !! "title" = Some (VStr s) →
                  t' !! "title" = Some (VStr (trim s)))
            ∧ (∀ k v, ownProps updates !! k = Some v →
                      (k ≠ "title" ∨ typeof v ≠ "string") → t' !! k = Some v)
            ∧ (∀ k, ownProps updates !! k = None → t' !! k = t !! k)
       else t' = t)
    (allTasks st) (allTasks (updateTodo fetch id updates st)).
Proof.
  intros Hg Hcommit. rewrite updateTodo_applied by done.
  cbn [allTasks setAllTasks].
  induction (allTasks st) as [|t ts IH]; [constructor|].
  cbn [List.map]. constructor; [|exact IH].
  destruct (hasId id t); [|done].
  unfold spread. split; [|split].
  - intros s Hs. apply lookup_union_Some_l.
    rewrite safeUpdates_lookup, Hs. by rewrite decide_True.
  - intros k v Hk Hkind. apply lookup_union_Some_l.
    rewrite safeUpdates_lookup. destruct (decide (k = "title")) as [->|Hne]; [|done].
    rewrite Hk. destruct Hkind as [?|Hty]; [done|]. by destruct v.
  - intros k Hk. rewrite lookup_union_r; [done|].
    rewrite safeUpdates_lookup. destruct (decide (k = "title")) as [->|Hne]; [|done].
    by rewrite Hk.
Qed.

Lemma updateTodo_merges_fields_witness :
  Forall2
    (fun t t' =>
       if hasId (VStr "2") t
       then (∀ s, ownProps (VObj {[ "title" := VStr " deux " ]}) !! "title" = Some (VStr s) →
                  t' !! "title" = Some (VStr (trim s)))
            ∧ (∀ k v, ownProps (VObj {[ "title" := VStr " deux " ]}) !! k = Some v →
                      (k ≠ "title" ∨ typeof v ≠ "string") → t' !! k = Some v)
            ∧ (∀ k, ownProps (VObj {[ "title" := VStr " deux " ]}) !! k = None →
                    t' !! k = t !! k)
       else t' = t)
    Sample.threeTasks
    (allTasks (updateTodo Sample.offline (VStr "2") (VObj {[ "title" := VStr " deux " ]})
                 (Sample.local Sample.threeTasks))).
Proof.
  apply (updateTodo_merges_fields Sample.offline (VStr "2")
           (VObj {[ "title" := VStr " deux " ]}) (Sample.local Sample.threeTasks)).
  - reflexivity.
  - left. reflexivity.
Defined.


(** *** Titles stay trimmed *)

Lemma titleTrimmed_set_completed (v : value) (t : obj) :
  titleTrimmed t → titleTrimmed (<[ "completed" := v ]> t).
Proof. unfold titleTrimmed. by rewrite field_insert_ne. Qed.

Lemma titleTrimmed_merge (updates : value) (t : obj) :
  titleTrimmed t →
  titleTrimmed
    (spread t
       (match field (ownProps updates) "title" with
        | VStr s => <[ "title" := VStr (trim s) ]> (ownProps updates)
        | _ => ownProps updates
        end)).
Proof.
  intros Ht. unfold titleTrimmed, field at 1, get, spread.
  rewrite lookup_union, safeUpdates_lookup. rewrite decide_True by done.
  destruct (ownProps updates !! "title") as [v|] eqn:Hv.
  - destruct v; destruct (t !! "title"); cbn; try done; apply trim_clean.
  - unfold titleTrimmed, field, get in Ht. by destruct (t !! "title").
Qed.

Lemma Forall_sublist_in {A} (P : A → Prop) (l k : list A) :
  sublist l k → Forall P k → Forall P l.
Proof.
  intros Hsub. induction Hsub as [|x l1 l2 _ IH|x l1 l2 _ IH]; intros Hk; [done| |].
  - inversion Hk; subst. constructor; auto.
  - inversion Hk; subst. auto.
Qed.

Section Titles.

Variable generateId : nat → string.
Variable fetch : Api.network.

Lemma mutate_titleTrimmed m st :
  Forall titleTrimmed (allTasks st) →
  match m with
  | Add _ => provider st = ModeLocal
  | _ => True
  end →
  Forall titleTrimmed (allTasks (mutate generateId fetch m st)).
Proof.
  intros Hst Hm. destruct m as [text|id|id updates|id|]; cbn [mutate].
  - destruct (decide (trim (ToString (or_ text (VStr ""))) = "")) as [Hblank|Hne].
    + by rewrite addTodo_blank.
    + rewrite addTodo_local by done. cbn [allTasks]. constructor; [|done].
      unfold titleTrimmed. rewrite field_insert_ne by done. rewrite field_insert_eq.
      apply trim_clean.
  - unfold toggleTodo. destruct (truthy id); [|done]. cbn [negb].
    destruct (List.find _ _) as [target|]; [|done].
    destruct (withOptimistic_await_tasks (provider st)
                (List.map (fun t => if strictEq (field t "id") id
                                    then spread t {[ "completed" :=
                                           VBool (negb (truthy (field target "completed"))) ]}
                                    else t))
                (Api.updateTodo fetch id
                   (VObj {[ "completed" :=
                              VBool (negb (truthy (field target "completed"))) ]}))
                st) as [-> | ->]; [|done].
    apply Forall_map. eapply Forall_impl; [exact Hst|]. intros t Ht. cbn [compose].
    destruct (strictEq (field t "id") id); [|done].
    rewrite spread_singleton. by apply titleTrimmed_set_completed.
  - unfold updateTodo. destruct (_ || _ || _); [done|].
    rewrite spread_empty_l.
    destruct (withOptimistic_await_tasks (provider st)
                (List.map (fun t => if strictEq (field t "id") id
                                    then spread t
                                           (match field (ownProps updates) "title" with
                                            | VStr s =>
                                                <[ "title" := VStr (trim s) ]>
                                                  (ownProps updates)
                                            | _ => ownProps updates
                                            end)
                                    else t))
                (Api.updateTodo fetch id
                   (VObj (match field (ownProps updates) "title" with
                          | VStr s => <[ "title" := VStr (trim s) ]> (ownProps updates)
                          | _ => ownProps updates
                          end))) st) as [-> | ->]; [|done].
    apply Forall_map. eapply Forall_impl; [exact Hst|]. intros t Ht. cbn [compose].
    destruct (strictEq (field t "id") id); [|done].
    by apply titleTrimmed_merge.
  - eapply Forall_sublist_in; [apply deleteTodo_sublist|done].
  - rewrite (proj1 (clearCompleted_unfold fetch st)).
    eapply Forall_sublist_in; [apply filter_sublist|done].
Qed.

End Titles.

(** X6.  The mutations keep string titles free of white space at both
    ends: if every string title in the list is trimmed, it is so again after
    a toggle, an update, a delete or a clear in either mode and after an add
    in local mode, and so after every run of mutations of a local session. *)
Theorem mutations_keep_titles_trimmed
    (generateId : nat → string) (fetch : Api.network) (st : state) :
  Forall titleTrimmed (allTasks st) →
  (∀ m, match m with
        | Add _ => provider st = ModeLocal
        | _ => True
        end →
        Forall titleTrimmed (allTasks (mutate generateId fetch m st)))
  ∧ (provider st = ModeLocal →
     ∀ ms, Forall titleTrimmed (allTasks (mutateAll generateId fetch ms st))).
Proof.
  intros Hst. split.
  - intros m Hm. by apply mutate_titleTrimmed.
  - intros Hp ms. revert st Hst Hp.
    induction ms as [|m ms IH]; intros st Hst Hp; [done|].
    unfold mutateAll. cbn [fold_left]. fold (mutateAll generateId fetch ms).
    apply IH.
    + apply mutate_titleTrimmed; [done|]. by destruct m.
    + by apply (mutate_local generateId fetch fetch).
Qed.

Lemma mutations_keep_titles_trimmed_witness :
  Forall titleTrimmed
    (allTasks (mutateAll Sample.generateId Sample.offline
                 [Add (VStr "  four "); Update (VStr "2") (VObj {[ "title" := VStr " deux " ]})]
                 (Sample.local Sample.threeTasks))).
Proof.
  apply (mutations_keep_titles_trimmed Sample.generateId Sample.offline
           (Sample.local Sample.threeTasks)).
  - repeat constructor.
  - reflexivity.
Defined.


(** *** Successful commits *)

(** X7.  In remote mode, with the create call answered by [created] and the
    generated identifier not in use: the new task is first in the list, in
    place of the placeholder stands the normalized representation the
    server sent when that is an object, the placeholder itself stays when it
    is not (an empty or textual answer), and the tasks that were in the list
    follow unchanged. *)
Theorem addTodo_splices_created_task
    (generateId : nat → string) (fetch : Api.network)
    (text created : value) (st : state) :
  provider st = ModeApi →
  trim (ToString (or_ text (VStr ""))) ≠ "" →
  (∀ t, In t (allTasks st) → hasId (VStr (generateId (generated st))) t = false) →
  (∀ payload, Api.outcome (Api.createTodo fetch payload) = Api.Ok created) →
  allTasks (addTodo generateId fetch text st)
  = match (normalizeTodo generateId created (S (generated st))).1 with
    | Some server => server
    | None =>
        <[ "id" := VStr (generateId (generated st)) ]>
          (<[ "title" := VStr (trim (ToString (or_ text (VStr "")))) ]>
             {[ "completed" := VBool false ]})
    end :: allTasks st.
Proof.
  intros Hp Hne Hfresh Hcreated. unfold addTodo.
  apply truthy_VStr in Hne. rewrite Hne. cbn [negb].
  unfold runGen, freshId. cbn [generated provider allTasks].
  rewrite normalizeTodo_placeholder. rewrite Hp.
  unfold withOptimistic. rewrite Hcreated.
  cbn [generated provider allTasks setAllTasks].
  destruct (normalizeTodo generateId created (S (generated st))) as [[server|] n'];
    cbn [fst]; [|done].
  cbn [allTasks setAllTasks List.map].
  rewrite field_insert_eq. cbn [strictEq]. rewrite String.eqb_refl, spread_empty_l.
  f_equal. rewrite <- (List.map_id (allTasks st)) at 2.
  apply List.map_ext_in. intros t Ht.
  fold (hasId (VStr (generateId (generated st))) t). by rewrite Hfresh.
Qed.

Lemma addTodo_splices_created_task_witness :
  allTasks (addTodo Sample.generateId
              (Sample.answering 201 (VObj (Sample.task "srv-9" "Buy milk" false)))
              (VStr " Buy milk ") (Sample.remote Sample.threeTasks))
  = Sample.task "srv-9" "Buy milk" false :: Sample.threeTasks.
Proof.
  apply (addTodo_splices_created_task Sample.generateId
           (Sample.answering 201 (VObj (Sample.task "srv-9" "Buy milk" false)))
           (VStr " Buy milk ") (VObj (Sample.task "srv-9" "Buy milk" false))
           (Sample.remote Sample.threeTasks)).
  - reflexivity.
  - vm_compute. discriminate.
  - intros t [<-|[<-|[<-|[]]]]; reflexivity.
  - intros payload. reflexivity.
Defined.

(** X8.  In remote mode, a toggle, an update, a delete or a clear whose
    commit succeeds leaves the task list that the same mutation gives in
    local mode, and the provider stays remote. *)
Theorem successful_commit_keeps_optimistic_list
    (generateId : nat → string) (fetch : Api.network) (m : mutation) (st : state) :
  provider st = ModeApi →
  (∀ text, m ≠ Add text) →
  commitSucceeds fetch m →
  allTasks (mutate generateId fetch m st)
  = allTasks (mutate generateId fetch m (setProvider ModeLocal st))
  ∧ provider (mutate generateId fetch m st) = ModeApi.
Proof.
  intros Hp Hm Hok.
  destruct m as [text|id|id updates|id|]; cbn [mutate commitSucceeds] in *.
  - by destruct (Hm text).
  - unfold toggleTodo. cbn [allTasks provider setProvider].
    destruct (truthy id); [|done]. cbn [negb].
    destruct (List.find _ _) as [target|]; [|done].
    rewrite Hp. by rewrite resolve_await.
  - unfold updateTodo. cbn [allTasks provider setProvider].
    destruct (_ || _ || _); [done|].
    rewrite Hp. by rewrite resolve_await.
  - unfold deleteTodo. cbn [allTasks provider setProvider].
    destruct (truthy id); [|done]. cbn [negb].
    rewrite Hp. by rewrite resolve_await.
  - rewrite !(proj1 (clearCompleted_unfold fetch _)).
    split; [done|]. by rewrite (proj1 (proj2 (clearCompleted_unfold fetch st))).
Qed.

Lemma successful_commit_keeps_optimistic_list_witness :
  allTasks (mutate Sample.generateId (Sample.answering 200 VNull) (Toggle (VStr "2"))
              (Sample.remote Sample.threeTasks))
  = allTasks (mutate Sample.generateId (Sample.answering 200 VNull) (Toggle (VStr "2"))
                (setProvider ModeLocal (Sample.remote Sample.threeTasks)))
  ∧ provider (mutate Sample.generateId (Sample.answering 200 VNull) (Toggle (VStr "2"))
                (Sample.remote Sample.threeTasks))
    = ModeApi.
Proof.
  apply (successful_commit_keeps_optimistic_list Sample.generateId
           (Sample.answering 200 VNull) (Toggle (VStr "2"))
           (Sample.remote Sample.threeTasks)).
  - reflexivity.
  - intros text. discriminate.
  - intros payload. eexists. reflexivity.
Defined.


(** *** Normalization *)

Section Normalize.

Variable generateId : nat → string.

Lemma normalizeTodo_array (l : list value) (n : nat) :
  normalizeTodo generateId (VArr l) n
  = (Some (spread
             (<[ "id" := VStr (generateId n) ]>
                (<[ "title" := VStr "" ]> {[ "completed" := VBool false ]}))
             (ownProps (VArr l))), S n).
Proof. reflexivity. Qed.

Lemma normalizeTodo_primitive (t : value) (n : nat) :
  match t with
  | VObj _ | VArr _ => True
  | _ => normalizeTodo generateId t n = (None, n)
  end.
Proof.
  destruct t as [| |b|z|s|o|l]; try done.
  - by destruct b.
  - unfold normalizeTodo. cbn [truthy typeof]. by destruct (negb (negb (z =? 0))).
  - unfold normalizeTodo. cbn [truthy typeof]. by destruct (negb (negb (String.eqb s ""))).
Qed.

Lemma defaults_lookup (a b c : value) (k : string) :
  (<[ "id" := a ]> (<[ "title" := b ]> ({[ "completed" := c ]} : obj))) !! k
  = if decide (k = "id") then Some a
    else if decide (k = "title") then Some b
    else if decide (k = "completed") then Some c
    else None.
Proof.
  repeat case_decide; subst.
  - apply lookup_insert_eq.
  - rewrite lookup_insert_ne by done. apply lookup_insert_eq.
  - rewrite !lookup_insert_ne by done. apply lookup_singleton_eq.
  - rewrite !lookup_insert_ne by done. by apply lookup_singleton_ne.
Qed.

(** What the spread of an object over the three defaults holds. *)
Lemma normalized_lookup (a b c : value) (own : obj) (k : string) :
  spread (<[ "id" := a ]> (<[ "title" := b ]> {[ "completed" := c ]})) own !! k
  = match own !! k with
    | Some v => Some v
    | None =>
        if decide (k = "id") then Some a
        else if decide (k = "title") then Some b
        else if decide (k = "completed") then Some c
        else None
    end.
Proof.
  unfold spread. rewrite lookup_union, defaults_lookup.
  destruct (own !! k); repeat case_decide; reflexivity.
Qed.

Lemma normalizeTodo_spreads (t : value) (n : nat) :
  match t with
  | VObj _ | VArr _ =>
      ∃ a b c n',
        normalizeTodo generateId t n
        = (Some (spread (<[ "id" := a ]> (<[ "title" := b ]> {[ "completed" := c ]}))
                   (ownProps t)), n')
        ∧ (n' = n ∨ n' = S n)
  | _ => True
  end.
Proof.
  destruct t as [| |b|z|s|o|l]; try done.
  - rewrite normalizeTodo_object.
    destruct (nullish _ _); eexists _, _, _, _; (split; [reflexivity|]); auto.
  - rewrite normalizeTodo_array. eexists _, _, _, _. split; [reflexivity|]. auto.
Qed.

Lemma normalizeAll_complete (ts : list obj) (n : nat) :
  Forall complete ts → normalizeAll generateId (List.map VObj ts) n = (ts, n).
Proof.
  induction 1 as [|t ts ((id & Hid & Hu & Hn) & Ht & Hc) _ IH]; [done|].
  cbn [List.map normalizeAll]. unfold mbind, Gen_bind.
  rewrite (normalizeTodo_complete generateId t id n Hid Hu Hn Ht Hc).
  by rewrite IH.
Qed.

Lemma mounted_local_complete (env : Env.environment) (fetch : Api.network)
    (ts : list obj) :
  Forall complete ts →
  Env.getDataMode env = ModeLocal →
  mounted generateId (Some (List.map VObj ts)) env fetch = State ModeLocal ts 0.
Proof.
  intros Hts Hmode. unfold mounted, init, initialState, normalizedLocal, runGen.
  rewrite Hmode. rewrite normalizeAll_complete by done.
  cbn [generated setProvider provider allTasks].
  by rewrite normalizeAll_complete.
Qed.


Lemma normalizeTodo_normalizedFrom (t : value) (n : nat) :
  isObject t = true →
  ∃ o' n', normalizeTodo generateId t n = (Some o', n') ∧ normalizedFrom t o'.
Proof.
  assert (Hshape : ∀ a b c (own : obj),
    (own !! "title" = None → b = VStr "") →
    (own !! "completed" = None → c = VBool false) →
    (∀ k x, own !! k = Some x →
       spread (<[ "id" := a ]> (<[ "title" := b ]> {[ "completed" := c ]})) own !! k
       = Some x)
    ∧ is_Some (spread (<[ "id" := a ]> (<[ "title" := b ]> {[ "completed" := c ]})) own
               !! "id")
    ∧ (own !! "title" = None →
       spread (<[ "id" := a ]> (<[ "title" := b ]> {[ "completed" := c ]})) own
       !! "title" = Some (VStr ""))
    ∧ (own !! "completed" = None →
       spread (<[ "id" := a ]> (<[ "title" := b ]> {[ "completed" := c ]})) own
       !! "completed" = Some (VBool false))
    ∧ (∀ k, k ≠ "id" → k ≠ "title" → k ≠ "completed" →
       spread (<[ "id" := a ]> (<[ "title" := b ]> {[ "completed" := c ]})) own !! k
       = own !! k)).
  { intros a b c own Hb Hc. split; [|split; [|split; [|split]]].
    - intros k x Hk. by rewrite normalized_lookup, Hk.
    - rewrite normalized_lookup. destruct (own !! "id"); by eexists.
    - intros Ht. rewrite normalized_lookup, Ht. cbn. by rewrite Hb.
    - intros Hd. rewrite normalized_lookup, Hd. cbn. by rewrite Hc.
    - intros k Hi Ht Hd. rewrite normalized_lookup.
      destruct (own !! k); [done|]. by repeat case_decide. }
  intros Ht.
  destruct t as [| |b|z|s|o|l];
    try (by unfold isObject in Ht; cbn in Ht; rewrite ?andb_false_r in Ht).
  - rewrite normalizeTodo_object.
    destruct (nullish (field o "id") (field o "_id")); eexists _, _;
      (split; [reflexivity|]); apply Hshape; cbn [ownProps]; unfold field, get;
      by intros ->.
  - rewrite normalizeTodo_array. eexists _, _. split; [reflexivity|].
    by apply Hshape.
Qed.

Lemma normalizeTodo_not_object (t : value) (n : nat) :
  isObject t = false → normalizeTodo generateId t n = (None, n).
Proof.
  intros Ht. pose proof (normalizeTodo_primitive t n) as Hprim.
  destruct t; first [exact Hprim | discriminate Ht].
Qed.

(** The normalized list holds, in order, the objects of the list,
    normalized. *)
Lemma normalizeAll_normalizedFrom (l : list value) (n : nat) :
  Forall2 normalizedFrom (List.filter isObject l) (normalizeAll generateId l n).1.
Proof.
  revert n. induction l as [|t l IH]; intros n; [constructor|].
  cbn [normalizeAll List.filter]. unfold mbind, Gen_bind, mret, Gen_ret.
  destruct (isObject t) eqn:Ht.
  - destruct (normalizeTodo_normalizedFrom t n Ht) as (o' & n' & Hnorm & Hfrom).
    rewrite Hnorm. specialize (IH n').
    destruct (normalizeAll generateId l n') as [os n'']. by constructor.
  - rewrite (normalizeTodo_not_object t n Ht). specialize (IH n).
    by destruct (normalizeAll generateId l n) as [os n''].
Qed.

End Normalize.

(** *** The mount effect (C4) *)

(** C4.  When the data mode is remote: if the initial list call raises a
    transient error, the session after mount is local and its task list
    holds, in order, the objects that [loadLocal()] returned, normalized (no
    task when it returned nothing), so a stored list of complete tasks is
    the task list as it stands; if the call raises a rejected error, the
    session stays remote and its task list stays empty. *)
Theorem init_falls_back_on_transient_failure
    (generateId : nat → string) (loadLocal : option (list value))
    (env : Env.environment) (fetch : Api.network) :
  Env.getDataMode env = ModeApi →
  (failsTransient (Api.listTodos fetch) →
   provider (mounted generateId loadLocal env fetch) = ModeLocal
   ∧ Forall2 normalizedFrom
       (List.filter isObject (default [] loadLocal))
       (allTasks (mounted generateId loadLocal env fetch))
   ∧ (∀ ts, loadLocal = Some (List.map VObj ts) → Forall complete ts →
            allTasks (mounted generateId loadLocal env fetch) = ts))
  ∧ (failsRejected (Api.listTodos fetch) →
     provider (mounted generateId loadLocal env fetch) = ModeApi
     ∧ allTasks (mounted generateId loadLocal env fetch) = []).
Proof.
  intros Hmode. unfold mounted, init, initialState. rewrite Hmode.
  split.
  - intros (err & Hout & Herr). rewrite Hout, Herr.
    unfold runGen, normalizedLocal. cbn [generated setProvider].
    pose proof (normalizeAll_normalizedFrom generateId (default [] loadLocal) 0) as Hfrom.
    split; [|split].
    + by destruct loadLocal as [l|];
        destruct (normalizeAll generateId _ 0%nat) as [local n].
    + destruct loadLocal as [l|]; cbn [default from_option Datatypes.id] in Hfrom;
        by destruct (normalizeAll generateId _ 0%nat) as [local n].
    + intros ts -> Hts. by rewrite (normalizeAll_complete generateId ts 0 Hts).
  - intros (err & Hout & Herr). by rewrite Hout, Herr.
Qed.

Lemma init_falls_back_on_transient_failure_witness :
  (provider (mounted Sample.generateId Sample.paddedStore Sample.remoteEnv Sample.offline)
   = ModeLocal
   ∧ allTasks (mounted Sample.generateId Sample.paddedStore Sample.remoteEnv Sample.offline)
     = [Sample.task "a" "  Buy milk " false])
  ∧ (provider (mounted Sample.generateId Sample.paddedStore Sample.remoteEnv
                 (Sample.answering 404 VNull)) = ModeApi
     ∧ allTasks (mounted Sample.generateId Sample.paddedStore Sample.remoteEnv
                   (Sample.answering 404 VNull)) = []).
Proof.
  split.
  - destruct (init_falls_back_on_transient_failure Sample.generateId Sample.paddedStore
                Sample.remoteEnv Sample.offline) as [Htransient _].
    + vm_compute. reflexivity.
    + destruct Htransient as (Hlocal & _ & Hlist).
      * eexists. split; vm_compute; reflexivity.
      * split; [exact Hlocal|].
        apply (Hlist [Sample.task "a" "  Buy milk " false]); [reflexivity|].
        constructor; [|constructor]. split; [|split].
        -- exists (VStr "a"). split; [reflexivity|]. split; discriminate.
        -- eexists. reflexivity.
        -- eexists. reflexivity.
  - apply (init_falls_back_on_transient_failure Sample.generateId Sample.paddedStore
             Sample.remoteEnv (Sample.answering 404 VNull)).
    + vm_compute. reflexivity.
    + eexists. split; vm_compute; reflexivity.
Defined.

(** X9.  [normalizeTodo] returns [null] for everything that is no object
    (a primitive, [null], [undefined]) and draws no identifier then.  For an
    object or an array it returns an object that has an [id], a [title] and
    a [completed] property and every own property of the argument with the
    value it had; it draws at most one identifier. *)
Theorem normalizeTodo_result_shape
    (generateId : nat → string) (t : value) (n : nat) :
  match t with
  | VObj _ | VArr _ =>
      ∃ o' n',
        normalizeTodo generateId t n = (Some o', n')
        ∧ (n' = n ∨ n' = S n)
        ∧ is_Some (o' !! "id") ∧ is_Some (o' !! "title") ∧ is_Some (o' !! "completed")
        ∧ (∀ k v, ownProps t !! k = Some v → o' !! k = Some v)
        ∧ (∀ k, k ≠ "id" → k ≠ "title" → k ≠ "completed" → o' !! k = ownProps t !! k)
  | _ => normalizeTodo generateId t n = (None, n)
  end.
Proof.
  pose proof (normalizeTodo_primitive generateId t n) as Hprim.
  pose proof (normalizeTodo_spreads generateId t n) as Hobj.
  assert (Hshape : ∀ a b c (own : obj),
    let o' := spread (<[ "id" := a ]> (<[ "title" := b ]> {[ "completed" := c ]})) own in
    is_Some (o' !! "id") ∧ is_Some (o' !! "title") ∧ is_Some (o' !! "completed")
    ∧ (∀ k v, own !! k = Some v → o' !! k = Some v)
    ∧ (∀ k, k ≠ "id" → k ≠ "title" → k ≠ "completed" → o' !! k = own !! k)).
  { intros a b c own o'. subst o'. repeat split.
    - rewrite normalized_lookup. destruct (own !! "id"); by eexists.
    - rewrite normalized_lookup. destruct (own !! "title"); by eexists.
    - rewrite normalized_lookup. destruct (own !! "completed"); by eexists.
    - intros k v Hk. by rewrite normalized_lookup, Hk.
    - intros k H1 H2 H3. rewrite normalized_lookup.
      destruct (own !! k); [done|]. by rewrite !decide_False. }
  destruct t; try done;
    destruct Hobj as (a & b & c & n' & Heq & Hn);
    eexists _, n'; (split; [exact Heq|]); (split; [exact Hn|]); apply Hshape.
Qed.

(** X10.  Normalizing is idempotent on its result: an object that
    [normalizeTodo] returned is returned unchanged when it is normalized
    again. *)
Theorem normalizeTodo_is_idempotent
    (generateId : nat → string) (t : value) (o' : obj) (n n' m : nat) :
  normalizeTodo generateId t n = (Some o', n') →
  (normalizeTodo generateId (VObj o') m).1 = Some o'.
Proof.
  intros Hnorm.
  assert (Hkeys : is_Some (o' !! "id") ∧ is_Some (o' !! "title")
                  ∧ is_Some (o' !! "completed")).
  { pose proof (normalizeTodo_primitive generateId t n) as Hprim.
    pose proof (normalizeTodo_spreads generateId t n) as Hobj.
    destruct t; try congruence;
      destruct Hobj as (a & b & c & n'' & Heq & _);
      rewrite Heq in Hnorm; injection Hnorm as <- _;
      rewrite !normalized_lookup;
      (repeat split; match goal with |- is_Some (match ?x with _ => _ end) =>
                       destruct x; by eexists end). }
  destruct Hkeys as (Hi & Ht & Hc).
  rewrite normalizeTodo_object.
  destruct (nullish _ _); cbn [fst]; f_equal; apply spread_absorb; intros k;
    by apply is_Some_defaults.
Qed.

Lemma normalizeTodo_is_idempotent_witness :
  (normalizeTodo Sample.generateId
     (VObj (<[ "id" := VStr "tmp-0" ]>
              (<[ "title" := VStr "" ]> (<[ "completed" := VBool false ]>
                                           {[ "name" := VStr "x" ]})))) 5%nat).1
  = Some (<[ "id" := VStr "tmp-0" ]>
            (<[ "title" := VStr "" ]> (<[ "completed" := VBool false ]>
                                         {[ "name" := VStr "x" ]}))).
Proof.
  apply (normalizeTodo_is_idempotent Sample.generateId (VObj {[ "name" := VStr "x" ]})
           _ 0%nat 1%nat 5%nat).
  vm_compute. reflexivity.
Defined.

(** X11.  A list of complete tasks (each with an identifier that is neither
    [null] nor [undefined], a title and a flag) passes normalization
    unchanged and draws no identifier; so a session that mounts on such a
    list, stored locally or sent by the server, holds exactly that list. *)
Theorem complete_tasks_mount_unchanged
    (generateId : nat → string) (env : Env.environment) (fetch : Api.network)
    (ts : list obj) (n : nat) :
  Forall complete ts →
  normalizeAll generateId (List.map VObj ts) n = (ts, n)
  ∧ (Env.getDataMode env = ModeLocal →
     mounted generateId (Some (List.map VObj ts)) env fetch = State ModeLocal ts 0)
  ∧ (∀ loadLocal,
       Env.getDataMode env = ModeApi →
       Api.outcome (Api.listTodos fetch) = Api.Ok (VArr (List.map VObj ts)) →
       mounted generateId loadLocal env fetch = State ModeApi ts 0).
Proof.
  intros Hts. split; [by apply normalizeAll_complete|]. split.
  - intros Hmode. by apply mounted_local_complete.
  - intros loadLocal Hmode Hlist. unfold mounted, init, initialState, runGen.
    rewrite Hmode, Hlist. cbn [generated setProvider provider allTasks].
    by rewrite normalizeAll_complete.
Qed.

Lemma complete_tasks_mount_unchanged_witness :
  normalizeAll Sample.generateId (List.map VObj Sample.threeTasks) 0%nat
  = (Sample.threeTasks, 0%nat)
  ∧ mounted Sample.generateId (Some (List.map VObj Sample.threeTasks)) Sample.noEnv
      Sample.offline
    = State ModeLocal Sample.threeTasks 0.
Proof.
  pose proof (complete_tasks_mount_unchanged Sample.generateId Sample.noEnv Sample.offline
                Sample.threeTasks 0%nat) as H.
  assert (Hc : Forall complete Sample.threeTasks).
  { repeat constructor; try (eexists; repeat split; [reflexivity|discriminate|discriminate]);
      by eexists. }
  destruct (H Hc) as (H1 & H2 & _). split; [exact H1|]. apply H2. reflexivity.
Defined.

(** X12.  How [normalizeTodo] finds the identifier of an object: without an
    own [id], a [_id] that is neither [null] nor [undefined] becomes the
    identifier and none is drawn; without either, the next generated
    identifier is drawn; but an own [id] that is [null] stays [null] in the
    result, since the object is spread over the identifier that was
    found. *)
Theorem normalizeTodo_resolves_identifier
    (generateId : nat → string) (o : obj) (n : nat) :
  (o !! "id" = None →
   ∀ v, o !! "_id" = Some v → v ≠ VUndef → v ≠ VNull →
   ∃ o', normalizeTodo generateId (VObj o) n = (Some o', n) ∧ o' !! "id" = Some v)
  ∧ (o !! "id" = None → o !! "_id" = None →
     ∃ o', normalizeTodo generateId (VObj o) n = (Some o', S n)
           ∧ o' !! "id" = Some (VStr (generateId n)))
  ∧ (o !! "id" = Some VNull →
     ∃ o' n', normalizeTodo generateId (VObj o) n = (Some o', n')
              ∧ o' !! "id" = Some VNull).
Proof.
  split; [|split].
  - intros Hid v Hv Hu Hn. rewrite normalizeTodo_object.
    unfold field, get. rewrite Hid, Hv. cbn [default from_option Datatypes.id nullish].
    destruct v; try done; eexists; (split; [reflexivity|]);
      by rewrite normalized_lookup, Hid.
  - intros Hid Hnone. rewrite normalizeTodo_object.
    unfold field, get. rewrite Hid, Hnone. cbn [default from_option Datatypes.id nullish].
    eexists. split; [reflexivity|]. by rewrite normalized_lookup, Hid.
  - intros Hid. rewrite normalizeTodo_object.
    destruct (nullish _ _); eexists _, _; (split; [reflexivity|]);
      by rewrite normalized_lookup, Hid.
Qed.

Lemma normalizeTodo_resolves_identifier_witness :
  (∃ o', normalizeTodo Sample.generateId (VObj {[ "_id" := VNum 7 ]}) 3%nat
         = (Some o', 3%nat) ∧ o' !! "id" = Some (VNum 7))
  ∧ (∃ o', normalizeTodo Sample.generateId (VObj {[ "title" := VStr "x" ]}) 3%nat
           = (Some o', 4%nat) ∧ o' !! "id" = Some (VStr (Sample.generateId 3)))
  ∧ (∃ o' n', normalizeTodo Sample.generateId
                (VObj (<[ "id" := VNull ]> {[ "_id" := VNum 7 ]})) 3%nat
              = (Some o', n') ∧ o' !! "id" = Some VNull).
Proof.
  split; [|split].
  - apply (normalizeTodo_resolves_identifier Sample.generateId {[ "_id" := VNum 7 ]} 3%nat);
      [reflexivity|reflexivity|discriminate|discriminate].
  - apply (normalizeTodo_resolves_identifier Sample.generateId {[ "title" := VStr "x" ]}
             3%nat); reflexivity.
  - apply (normalizeTodo_resolves_identifier Sample.generateId
             (<[ "id" := VNull ]> {[ "_id" := VNum 7 ]}) 3%nat).
    reflexivity.
Defined.


(** *** More on the derived view *)

Lemma filter_filter_and {A} (p q : A → bool) (l : list A) :
  List.filter p (List.filter q l) = List.filter (fun x => q x && p x) l.
Proof.
  induction l as [|x l IH]; [done|]. cbn [List.filter].
  destruct (q x); cbn [List.filter andb]; [|done]. by rewrite IH.
Qed.

Lemma filter_partition_length {A} (c m : A → bool) (l : list A) :
  (List.length (List.filter (fun x => negb (c x) && m x) l)
   + List.length (List.filter (fun x => c x && m x) l)
   = List.length (List.filter m l))%nat.
Proof.
  induction l as [|x l IH]; [done|]. cbn [List.filter].
  destruct (c x), (m x); cbn [negb andb List.length]; lia.
Qed.

Lemma filter_all {A} (p : A → bool) (l : list A) :
  (∀ x, p x = true) → List.filter p l = l.
Proof.
  intros Hp. induction l as [|x l IH]; [done|]. cbn [List.filter].
  by rewrite Hp, IH.
Qed.

Lemma filter_none {A} (p : A → bool) (l : list A) :
  (∀ x, p x = false) → List.filter p l = [].
Proof.
  intros Hp. induction l as [|x l IH]; [done|]. cbn [List.filter].
  by rewrite Hp.
Qed.

(** X13.  The derived view, for every filter string and search text:
    filtering a view again with the same filter and search gives the same
    view; for one search text the [active] and the [completed] views
    together have as many tasks as the [all] view; a search text that trims
    to nothing under [all] shows the whole list; and a filter string other
    than [active] and [completed] shows what [all] shows. *)
Theorem filterAndSearch_views
    (tasks : list obj) (filter search : string) :
  filterAndSearch (filterAndSearch tasks filter search) filter search
  = filterAndSearch tasks filter search
  ∧ (List.length (filterAndSearch tasks "active" search)
     + List.length (filterAndSearch tasks "completed" search)
     = List.length (filterAndSearch tasks "all" search))%nat
  ∧ (trim search = "" → filterAndSearch tasks "all" search = tasks)
  ∧ (filter ≠ "active" → filter ≠ "completed" →
     filterAndSearch tasks filter search = filterAndSearch tasks "all" search).
Proof.
  split; [|split; [|split]].
  - unfold filterAndSearch. apply filter_filter_same.
  - apply (filter_partition_length
             (fun t => truthy (field t "completed"))
             (fun t =>
                if (0 <? String.length
                           (toLowerCase (trim (ToString (or_ (VStr search) (VStr ""))))))%nat
                then includes (toLowerCase (ToString (or_ (field t "title") (VStr ""))))
                       (toLowerCase (trim (ToString (or_ (VStr search) (VStr "")))))
                else true)).
  - intros Hblank. unfold filterAndSearch.
    rewrite ToString_or_string, Hblank. by apply filter_all.
  - intros Hactive Hcompleted. unfold filterAndSearch.
    apply List.filter_ext. intros t.
    apply String.eqb_neq in Hactive, Hcompleted. rewrite Hactive, Hcompleted.
    by destruct (String.eqb filter "all").
Qed.

Lemma filterAndSearch_views_witness :
  filterAndSearch Sample.threeTasks "all" "   " = Sample.threeTasks
  ∧ filterAndSearch Sample.threeTasks "done" "t"
    = filterAndSearch Sample.threeTasks "all" "t".
Proof.
  pose proof (filterAndSearch_views Sample.threeTasks "all" "   ") as (_ & _ & Hall & _).
  pose proof (filterAndSearch_views Sample.threeTasks "done" "t") as (_ & _ & _ & Hother).
  split.
  - apply Hall. reflexivity.
  - apply Hother; discriminate.
Defined.

(** X14.  After [clearCompleted], whatever the network did with the
    deletes: the [completed] view is empty for every search text, the
    [active] view is what it was and is the whole of the [all] view, and a
    second [clearCompleted] changes nothing. *)
Theorem clearCompleted_leaves_only_active
    (fetch : Api.network) (st : state) (search : string) :
  filterAndSearch (allTasks (clearCompleted fetch st)) "completed" search = []
  ∧ filterAndSearch (allTasks (clearCompleted fetch st)) "active" search
    = filterAndSearch (allTasks st) "active" search
  ∧ filterAndSearch (allTasks (clearCompleted fetch st)) "all" search
    = filterAndSearch (allTasks st) "active" search
  ∧ clearCompleted fetch (clearCompleted fetch st) = clearCompleted fetch st.
Proof.
  destruct (clearCompleted_unfold fetch st) as (Htasks & _ & _).
  rewrite Htasks. unfold filterAndSearch. rewrite !filter_filter_and.
  split; [|split; [|split]].
  - apply filter_none. intros t. unfold completed.
    destruct (truthy (field t "completed")); reflexivity.
  - apply List.filter_ext. intros t. unfold completed.
    destruct (truthy (field t "completed")); reflexivity.
  - apply List.filter_ext. intros t. unfold completed.
    destruct (truthy (field t "completed")); reflexivity.
  - apply (clearCompleted_unfold fetch (clearCompleted fetch st)).
    rewrite Htasks. rewrite filter_filter_and.
    apply filter_none. intros t. by destruct (completed t).
Qed.

(** *** Identifiers of a local session *)

Lemma sublist_map {A B} (f : A → B) (l k : list A) :
  sublist l k → sublist (List.map f l) (List.map f k).
Proof. induction 1; cbn [List.map]; by constructor. Qed.

Section Unique.

Variable generateId : nat → string.
Variable fetch : Api.network.
Hypothesis generateId_inj : ∀ a b, generateId a = generateId b → a = b.

Lemma mutate_local_generated m st :
  provider st = ModeLocal →
  (∀ text, m ≠ Add text) →
  generated (mutate generateId fetch m st) = generated st.
Proof.
  intros Hp Hm. destruct m as [text|id|id updates|id|]; cbn [mutate].
  - by destruct (Hm text).
  - unfold toggleTodo. destruct (truthy id); [|done]. cbn [negb].
    destruct (List.find _ _); [|done]. by rewrite Hp.
  - unfold updateTodo. destruct (_ || _ || _); [done|]. by rewrite Hp.
  - unfold deleteTodo. destruct (truthy id); [|done]. by rewrite Hp.
  - unfold clearCompleted. destruct (_ =? _)%nat; [done|]. by rewrite Hp.
Qed.

Lemma idsGenerated_sublist (ts : list obj) st st' :
  idsGenerated generateId st →
  sublist (ids (allTasks st')) (ids (allTasks st)) →
  generated st' = generated st →
  idsGenerated generateId st'.
Proof.
  intros [Hnodup Hrange] Hsub Hgen. split.
  - by eapply sublist_NoDup.
  - intros v Hv. rewrite Hgen. apply Hrange.
    apply list_elem_of_In. eapply elem_of_sublist; [|exact Hsub].
    by apply list_elem_of_In.
Qed.

Lemma mutate_idsGenerated m st :
  provider st = ModeLocal →
  keepsId m →
  idsGenerated generateId st →
  idsGenerated generateId (mutate generateId fetch m st).
Proof.
  intros Hp Hkeep Hst.
  destruct m as [text|id|id updates|id|].
  - cbn [mutate].
    destruct (decide (trim (ToString (or_ text (VStr ""))) = "")) as [Hblank|Hne].
    { by rewrite addTodo_blank. }
    rewrite addTodo_local by done. destruct Hst as [Hnodup Hrange].
    unfold idsGenerated. cbn [allTasks generated ids List.map].
    rewrite field_insert_eq. fold (ids (allTasks st)). split.
    + apply NoDup_cons. split; [|done].
      intros Hin. apply list_elem_of_In in Hin.
      destruct (Hrange _ Hin) as (k & Hk & Heq).
      injection Heq as Heq. apply generateId_inj in Heq. lia.
    + intros v [<-|Hv].
      * exists (generated st). split; [lia|done].
      * destruct (Hrange v Hv) as (k & Hk & ->). exists k. split; [lia|done].
  - eapply (idsGenerated_sublist (allTasks st)); [done| |by apply mutate_local_generated].
    cbn [mutate]. by rewrite toggleTodo_ids.
  - eapply (idsGenerated_sublist (allTasks st)); [done| |by apply mutate_local_generated].
    cbn [mutate]. by rewrite updateTodo_ids.
  - eapply (idsGenerated_sublist (allTasks st)); [done| |by apply mutate_local_generated].
    cbn [mutate]. apply sublist_map, deleteTodo_sublist.
  - eapply (idsGenerated_sublist (allTasks st)); [done| |by apply mutate_local_generated].
    cbn [mutate]. apply sublist_map.
    rewrite (proj1 (clearCompleted_unfold fetch st)). apply filter_sublist.
Qed.

End Unique.

(** X15.  If [generateId] never returns the same identifier twice, then in
    a local session whose tasks all carry generated, pairwise distinct
    identifiers (an empty list, say), every run of mutations whose updates
    carry no [id] field leaves a list of tasks with generated, pairwise
    distinct identifiers. *)
Theorem local_session_keeps_ids_unique
    (generateId : nat → string) (fetch : Api.network)
    (ms : list mutation) (st : state) :
  (∀ a b, generateId a = generateId b → a = b) →
  provider st = ModeLocal →
  idsGenerated generateId st →
  Forall keepsId ms →
  idsGenerated generateId (mutateAll generateId fetch ms st).
Proof.
  intros Hinj Hp Hst Hms. revert st Hp Hst.
  induction Hms as [|m ms Hm _ IH]; intros st Hp Hst; [done|].
  unfold mutateAll. cbn [fold_left]. fold (mutateAll generateId fetch ms).
  apply IH.
  - by apply (mutate_local generateId fetch fetch).
  - by apply mutate_idsGenerated.
Qed.


Lemma to_uint_nonnil (n : nat) : Nat.to_uint n ≠ Decimal.Nil.
Proof.
  intros Hnil. pose proof (DecimalNat.Unsigned.to_of (Nat.to_uint n)) as Hto.
  rewrite DecimalNat.Unsigned.of_to, Hnil in Hto. discriminate Hto.
Qed.

Lemma sample_generateId_inj (a b : nat) :
  Sample.generateId a = Sample.generateId b → a = b.
Proof.
  unfold Sample.generateId. intros Heq.
  change ("tmp-" ++ ?s) with (String "t" (String "m" (String "p" (String "-" s)))) in Heq.
  injection Heq as Heq.
  apply (f_equal NilZero.uint_of_string) in Heq.
  rewrite !NilZero.usu in Heq by apply to_uint_nonnil.
  injection Heq as Heq. apply (f_equal Nat.of_uint) in Heq.
  by rewrite !DecimalNat.Unsigned.of_to in Heq.
Qed.

Lemma local_session_keeps_ids_unique_witness :
  idsGenerated Sample.generateId
    (mutateAll Sample.generateId Sample.offline
       [Add (VStr "one"); Add (VStr "two"); Toggle (VStr "tmp-0");
        Update (VStr "tmp-1") (VObj {[ "title" := VStr "2" ]}); ClearCompleted]
       (Sample.local [])).
Proof.
  apply (local_session_keeps_ids_unique Sample.generateId Sample.offline).
  - apply sample_generateId_inj.
  - reflexivity.
  - split; [constructor|]. intros v [].
  - repeat constructor.
Defined.


(* ===================================================================== *)
(** ** Properties of the environment utilities *)
(* ===================================================================== *)

(** *** Trimming and lower-casing *)

Lemma trimStart_clean (s : string) : leadingSpace s = false → trimStart s = s.
Proof. destruct s as [|c s]; [done|]. cbn. by intros ->. Qed.

Lemma trimEnd_clean (s : string) : trailingSpace s = false → trimEnd s = s.
Proof.
  induction s as [|c s IH]; [done|]. cbn [trailingSpace trimEnd].
  destruct s as [|c' s'].
  - cbn. by intros ->.
  - intros H. by rewrite (IH H).
Qed.

Lemma trim_idempotent (s : string) : trim (trim s) = trim s.
Proof.
  destruct (trim_clean s) as [Hl Ht]. unfold trim at 1.
  by rewrite (trimStart_clean _ Hl), (trimEnd_clean _ Ht).
Qed.

Lemma isWhiteSpace_lowerChar (c : ascii) : isWhiteSpace (lowerChar c) = isWhiteSpace c.
Proof. destruct c as [[] [] [] [] [] [] [] []]; reflexivity. Qed.

Lemma lowerChar_idempotent (c : ascii) : lowerChar (lowerChar c) = lowerChar c.
Proof. destruct c as [[] [] [] [] [] [] [] []]; reflexivity. Qed.

Lemma toLowerCase_idempotent (s : string) : toLowerCase (toLowerCase s) = toLowerCase s.
Proof.
  induction s as [|c s IH]; [done|]. cbn [toLowerCase].
  by rewrite lowerChar_idempotent, IH.
Qed.

Lemma trimStart_toLowerCase (s : string) :
  trimStart (toLowerCase s) = toLowerCase (trimStart s).
Proof.
  induction s as [|c s IH]; [done|]. cbn [toLowerCase trimStart].
  rewrite isWhiteSpace_lowerChar. by destruct (isWhiteSpace c).
Qed.

Lemma trimEnd_toLowerCase (s : string) :
  trimEnd (toLowerCase s) = toLowerCase (trimEnd s).
Proof.
  induction s as [|c s IH]; [done|]. cbn [toLowerCase trimEnd].
  rewrite IH, isWhiteSpace_lowerChar.
  destruct (trimEnd s); cbn [toLowerCase]; [by destruct (isWhiteSpace c)|done].
Qed.

Lemma trim_toLowerCase (s : string) : trim (toLowerCase s) = toLowerCase (trim s).
Proof. unfold trim. by rewrite trimStart_toLowerCase, trimEnd_toLowerCase. Qed.

Lemma toLowerCase_empty (s : string) : toLowerCase s = "" ↔ s = "".
Proof. by destruct s. Qed.

(** *** The data mode *)

Lemma readEnv_unfold (env : Env.environment) (key : string) (d : option string) :
  Env.readEnv env key d
  = match env !! key with
    | Some v => if String.eqb (trim v) "" then d else Some (trim v)
    | None => d
    end.
Proof.
  unfold Env.readEnv. destruct (env !! key) as [v|]; [|done].
  rewrite length_positive. by destruct (String.eqb (trim v) "").
Qed.

Lemma readEnv_Some (env : Env.environment) (key s : string) :
  Env.readEnv env key None = Some s ↔
  ∃ v, env !! key = Some v ∧ trim v ≠ "" ∧ s = trim v.
Proof.
  rewrite readEnv_unfold. destruct (env !! key) as [v|].
  - destruct (String.eqb_spec (trim v) "") as [Hb|Hb]; split.
    + done.
    + intros (w & [= <-] & Hw & _). done.
    + intros [= <-]. by exists v.
    + intros (w & [= <-] & _ & ->). done.
  - split; [done|]. by intros (w & ? & _).
Qed.

Lemma readEnv_None (env : Env.environment) (key : string) :
  Env.readEnv env key None = None ↔ ∀ v, env !! key = Some v → trim v = "".
Proof.
  rewrite readEnv_unfold. destruct (env !! key) as [v|].
  - destruct (String.eqb_spec (trim v) "") as [Hb|Hb]; split; try done.
    + by intros _ w [= <-].
    + intros H. by destruct Hb; apply H.
  - split; [|done]. by intros _ w.
Qed.

(** X16.  The data mode is remote exactly when [REACT_APP_API_BASE] or
    [REACT_APP_BACKEND_URL] is set to something that is not blank; the base
    address is the trimmed value of [REACT_APP_API_BASE] when that is not
    blank, else the trimmed value of [REACT_APP_BACKEND_URL] when that is
    not blank, else there is none; and with neither set the session mounts
    in local mode without consulting the network. *)
Theorem getDataMode_follows_api_base (env : Env.environment) :
  (Env.getDataMode env = ModeApi ↔
     (∃ v, env !! "REACT_APP_API_BASE" = Some v ∧ trim v ≠ "")
     ∨ (∃ v, env !! "REACT_APP_BACKEND_URL" = Some v ∧ trim v ≠ ""))
  ∧ (∀ v, env !! "REACT_APP_API_BASE" = Some v → trim v ≠ "" →
          Env.getApiBase env = Some (trim v))
  ∧ (∀ v, (∀ w, env !! "REACT_APP_API_BASE" = Some w → trim w = "") →
          env !! "REACT_APP_BACKEND_URL" = Some v → trim v ≠ "" →
          Env.getApiBase env = Some (trim v))
  ∧ ((∀ w, env !! "REACT_APP_API_BASE" = Some w → trim w = "") →
     (∀ w, env !! "REACT_APP_BACKEND_URL" = Some w → trim w = "") →
     Env.getApiBase env = None)
  ∧ (∀ b, Env.getApiBase env = Some b →
          b ≠ "" ∧ leadingSpace b = false ∧ trailingSpace b = false)
  ∧ (Env.getDataMode env = ModeLocal →
     ∀ generateId loadLocal fetch fetch',
       mounted generateId loadLocal env fetch = mounted generateId loadLocal env fetch'
       ∧ provider (mounted generateId loadLocal env fetch) = ModeLocal).
Proof.
  unfold Env.getDataMode, Env.getApiBase, Env.internalGetRawApiBase.
  split; [|split; [|split; [|split; [|split]]]].
  - destruct (Env.readEnv env "REACT_APP_API_BASE" None) as [a|] eqn:Ha.
    { split; [|done]. intros _. left.
      apply readEnv_Some in Ha as (v & Hv & Hne & _). eauto. }
    destruct (Env.readEnv env "REACT_APP_BACKEND_URL" None) as [b|] eqn:Hb.
    { split; [|done]. intros _. right.
      apply readEnv_Some in Hb as (v & Hv & Hne & _). eauto. }
    split; [done|]. intros [(v & Hv & Hne)|(v & Hv & Hne)].
    + destruct Hne. by apply (proj1 (readEnv_None _ _) Ha).
    + destruct Hne. by apply (proj1 (readEnv_None _ _) Hb).
  - intros v Hv Hne.
    assert (Ha : Env.readEnv env "REACT_APP_API_BASE" None = Some (trim v)).
    { apply readEnv_Some. by exists v. }
    by rewrite Ha.
  - intros v Hblank Hv Hne.
    assert (Ha : Env.readEnv env "REACT_APP_API_BASE" None = None)
      by (by apply readEnv_None).
    assert (Hb : Env.readEnv env "REACT_APP_BACKEND_URL" None = Some (trim v)).
    { apply readEnv_Some. by exists v. }
    by rewrite Ha, Hb.
  - intros Hblank Hblank'.
    assert (Ha : Env.readEnv env "REACT_APP_API_BASE" None = None)
      by (by apply readEnv_None).
    assert (Hb : Env.readEnv env "REACT_APP_BACKEND_URL" None = None)
      by (by apply readEnv_None).
    by rewrite Ha, Hb.
  - intros b Hb.
    assert (Hread : ∃ k, Env.readEnv env k None = Some b).
    { destruct (Env.readEnv env "REACT_APP_API_BASE" None) as [a|] eqn:Ha.
      - injection Hb as <-. eauto.
      - destruct (Env.readEnv env "REACT_APP_BACKEND_URL" None) as [c|] eqn:Hc; [|done].
        injection Hb as <-. eauto. }
    destruct Hread as (k & Hk). apply readEnv_Some in Hk as (v & _ & Hne & ->).
    split; [done|]. apply trim_clean.
  - intros Hmode generateId loadLocal fetch fetch'.
    unfold mounted, init, initialState, Env.getDataMode, Env.internalGetRawApiBase.
    rewrite Hmode. unfold runGen.
    destruct (normalizedLocal generateId loadLocal 0%nat) as [local n].
    cbn [generated provider allTasks setProvider].
    by destruct (normalizedLocal generateId loadLocal n).
Qed.

Lemma getDataMode_follows_api_base_witness :
  Env.getApiBase Sample.remoteEnv = Some "https://todos.example.test/api"
  ∧ Env.getApiBase {[ "REACT_APP_API_BASE" := "  ";
                      "REACT_APP_BACKEND_URL" := " http://backend.test " ]}
    = Some "http://backend.test"
  ∧ provider (mounted Sample.generateId Sample.paddedStore Sample.noEnv Sample.offline)
    = ModeLocal.
Proof.
  pose proof (getDataMode_follows_api_base Sample.remoteEnv) as (_ & Hbase & _).
  pose proof (getDataMode_follows_api_base
                {[ "REACT_APP_API_BASE" := "  ";
                   "REACT_APP_BACKEND_URL" := " http://backend.test " ]})
    as (_ & _ & Hfallback & _).
  pose proof (getDataMode_follows_api_base Sample.noEnv) as (_ & _ & _ & _ & _ & Hlocal).
  split; [|split].
  - apply (Hbase "https://todos.example.test/api"); [reflexivity|].
    vm_compute. discriminate.
  - apply (Hfallback " http://backend.test ").
    + intros w Hw. vm_compute in Hw. by injection Hw as <-.
    + reflexivity.
    + vm_compute. discriminate.
  - apply (Hlocal eq_refl Sample.generateId Sample.paddedStore Sample.offline
             Sample.offline).
Defined.


(** *** Feature flags *)

Lemma elem_of_flags_fold (x : string) (l : list string) (acc : gset string) :
  x ∈ fold_left (fun set s => {[ toLowerCase s ]} ∪ set) l acc
  ↔ x ∈ acc ∨ ∃ s, In s l ∧ x = toLowerCase s.
Proof.
  revert acc. induction l as [|s l IH]; intros acc; cbn [fold_left].
  - split; [by left|]. by intros [?|(s & [] & _)].
  - rewrite IH. rewrite elem_of_union, elem_of_singleton. split.
    + intros [[->|Hacc]|(s' & Hin & ->)].
      * right. exists s. split; [by left|done].
      * by left.
      * right. exists s'. split; [by right|done].
    + intros [Hacc|(s' & [<-|Hin] & ->)].
      * left. by right.
      * left. by left.
      * right. by exists s'.
Qed.

Lemma elem_of_parseCSVFlagsToSet (x raw : string) :
  x ∈ Env.parseCSVFlagsToSet (Some raw)
  ↔ ∃ item, In item (split "," raw) ∧ trim item ≠ "" ∧ x = toLowerCase (trim item).
Proof.
  unfold Env.parseCSVFlagsToSet.
  destruct (truthy (VStr raw)) eqn:Hraw; cbn [negb].
  - rewrite elem_of_flags_fold. split.
    + intros [Hempty|(s & Hin & ->)]; [by apply not_elem_of_empty in Hempty|].
      apply List.filter_In in Hin as [Hin Hlen].
      apply List.in_map_iff in Hin as (item & <- & Hitem).
      exists item. split; [done|]. split; [|done].
      rewrite length_positive in Hlen. apply negb_true_iff in Hlen.
      by apply String.eqb_neq.
    + intros (item & Hin & Hne & ->). right. exists (trim item). split; [|done].
      apply List.filter_In. split.
      * apply List.in_map_iff. by exists item.
      * rewrite length_positive. apply negb_true_iff. by apply String.eqb_neq.
  - apply truthy_VStr_false in Hraw as ->. split.
    + intros Hempty. by apply not_elem_of_empty in Hempty.
    + intros (item & [<-|[]] & Hne & _). done.
Qed.

Lemma isFeatureEnabled_true (env : Env.environment) (f : string) :
  Env.isFeatureEnabled env (VStr f) = true
  ↔ trim f ≠ ""
    ∧ ∃ item, In item (split "," (Env.flags_raw (Env.getFeatureFlags env)))
              ∧ toLowerCase (trim item) = toLowerCase (trim f).
Proof.
  unfold Env.isFeatureEnabled, Env.getFeatureFlags.
  cbn [Env.flags_set Env.flags_raw].
  destruct (truthy (VStr f)) eqn:Hf; cbn [negb]; cycle 1.
  { apply truthy_VStr_false in Hf as ->. split; [done|].
    intros [Hne _]. by destruct Hne. }
  destruct (truthy (VStr (toLowerCase (trim f)))) eqn:Hn; cbn [negb]; cycle 1.
  { apply truthy_VStr_false in Hn. apply (proj1 (toLowerCase_empty _)) in Hn.
    split; [done|]. intros [Hne _]. by destruct Hne. }
  apply truthy_VStr in Hn.
  rewrite bool_decide_eq_true, elem_of_parseCSVFlagsToSet. split.
  - intros (item & Hin & Hne & Heq). split.
    + intros Hblank. apply Hn. by rewrite Hblank.
    + by exists item.
  - intros (Hne & item & Hin & Heq). exists item. split; [done|]. split; [|done].
    intros Hblank. apply Hn. by rewrite <- Heq, Hblank.
Qed.

Lemma isFeatureEnabled_normal (env : Env.environment) (f g : string) :
  toLowerCase (trim g) = toLowerCase (trim f) →
  Env.isFeatureEnabled env (VStr g) = Env.isFeatureEnabled env (VStr f).
Proof.
  intros Heq. apply Bool.eq_true_iff_eq. rewrite !isFeatureEnabled_true, Heq.
  assert (Hblank : trim g ≠ "" ↔ trim f ≠ "").
  { rewrite <- !(toLowerCase_empty (trim _)). by rewrite Heq. }
  by rewrite Hblank.
Qed.

(** X17.  A feature flag is enabled exactly when it is not blank and some
    item of the comma-separated list [REACT_APP_FEATURE_FLAGS] equals it
    once both are trimmed and lower-cased; so the answer does not change
    when the flag is lower-cased or trimmed first, a value that is no
    string is never enabled, and with the variable unset or blank no flag
    is enabled. *)
Theorem isFeatureEnabled_ignores_case_and_blanks (env : Env.environment) (f : string) :
  (Env.isFeatureEnabled env (VStr f) = true
   ↔ trim f ≠ ""
     ∧ ∃ item, In item (split "," (Env.flags_raw (Env.getFeatureFlags env)))
               ∧ toLowerCase (trim item) = toLowerCase (trim f))
  ∧ Env.isFeatureEnabled env (VStr (toLowerCase f)) = Env.isFeatureEnabled env (VStr f)
  ∧ Env.isFeatureEnabled env (VStr (trim f)) = Env.isFeatureEnabled env (VStr f)
  ∧ (∀ v, (∀ s, v ≠ VStr s) → Env.isFeatureEnabled env v = false)
  ∧ (Env.readEnv env "REACT_APP_FEATURE_FLAGS" None = None →
     Env.isFeatureEnabled env (VStr f) = false).
Proof.
  split; [apply isFeatureEnabled_true|]. split; [|split; [|split]].
  - apply isFeatureEnabled_normal.
    by rewrite trim_toLowerCase, toLowerCase_idempotent.
  - apply isFeatureEnabled_normal. by rewrite trim_idempotent.
  - intros v Hv. destruct v; try done. by destruct (Hv s).
  - intros Hunset. apply Bool.not_true_is_false. rewrite isFeatureEnabled_true.
    intros (Hne & item & Hin & Heq).
    assert (Hraw : Env.flags_raw (Env.getFeatureFlags env) = "").
    { unfold Env.getFeatureFlags. cbn [Env.flags_raw].
      rewrite readEnv_unfold in *.
      destruct (env !! "REACT_APP_FEATURE_FLAGS") as [v|]; [|done].
      by destruct (String.eqb (trim v) ""). }
    rewrite Hraw in Hin. destruct Hin as [<-|[]].
    apply Hne. apply toLowerCase_empty. by rewrite <- Heq.
Qed.

Lemma isFeatureEnabled_ignores_case_and_blanks_witness :
  Env.isFeatureEnabled {[ "REACT_APP_FEATURE_FLAGS" := " Search, due_date ,," ]}
    (VStr " SEARCH ") = true.
Proof.
  apply (isFeatureEnabled_ignores_case_and_blanks
           {[ "REACT_APP_FEATURE_FLAGS" := " Search, due_date ,," ]} " SEARCH ").
  split; [vm_compute; discriminate|].
  exists "Search". split; [|reflexivity]. left. reflexivity.
Defined.


(* ===================================================================== *)
(** ** Properties of the storage adapter *)
(* ===================================================================== *)

Section StorageFacts.

Variable accepts : gmap string string → string → string → bool.
Variable JSON_parse : string → option value.
Variable JSON_stringify : value → string.

Lemma hasLocalStorage_unreachable (ls : Browser.localStorage) :
  Browser.reachable ls = false →
  Storage.hasLocalStorage accepts ls = (false, ls).
Proof.
  intros Hr. unfold Storage.hasLocalStorage, Browser.setItem. by rewrite Hr.
Qed.

Lemma hasLocalStorage_full (ls : Browser.localStorage) :
  accepts (Browser.items ls) "todo_app_ls_test" "1" = false →
  Storage.hasLocalStorage accepts ls = (false, ls).
Proof.
  intros Hfull. unfold Storage.hasLocalStorage, Browser.setItem.
  change (Storage.NAMESPACE ++ "_ls_test") with "todo_app_ls_test".
  rewrite Hfull. by rewrite andb_false_r.
Qed.

Lemma hasLocalStorage_available (ls : Browser.localStorage) :
  Browser.reachable ls = true →
  accepts (Browser.items ls) "todo_app_ls_test" "1" = true →
  Storage.hasLocalStorage accepts ls
  = (true, Browser.LocalStorage true (delete "todo_app_ls_test" (Browser.items ls))).
Proof.
  intros Hr Hroom. unfold Storage.hasLocalStorage, Browser.setItem.
  change (Storage.NAMESPACE ++ "_ls_test") with "todo_app_ls_test".
  rewrite Hr, Hroom. cbn [andb Browser.removeItem Browser.reachable Browser.items].
  by rewrite delete_insert_eq.
Qed.

(** The probe never touches another key. *)
Lemma hasLocalStorage_keeps (ls : Browser.localStorage) (k : string) :
  k ≠ "todo_app_ls_test" →
  Browser.items (Storage.hasLocalStorage accepts ls).2 !! k = Browser.items ls !! k
  ∧ Browser.reachable (Storage.hasLocalStorage accepts ls).2 = Browser.reachable ls.
Proof.
  intros Hk. destruct (Browser.reachable ls) eqn:Hr.
  - destruct (accepts (Browser.items ls) "todo_app_ls_test" "1") eqn:Hroom.
    + rewrite hasLocalStorage_available by done. cbn. by rewrite lookup_delete_ne.
    + by rewrite hasLocalStorage_full.
  - by rewrite hasLocalStorage_unreachable.
Qed.

Lemma loadTodos_unfold (ls : Browser.localStorage) :
  Storage.loadTodos accepts JSON_parse ls
  = (if (Storage.hasLocalStorage accepts ls).1
     then Storage.safeJsonParse JSON_parse
            (Browser.items (Storage.hasLocalStorage accepts ls).2 !! Storage.TODOS_KEY)
            (VArr [])
     else VArr [],
     (Storage.hasLocalStorage accepts ls).2).
Proof.
  unfold Storage.loadTodos.
  destruct (Browser.reachable ls) eqn:Hr.
  - destruct (accepts (Browser.items ls) "todo_app_ls_test" "1") eqn:Hroom.
    + by rewrite hasLocalStorage_available.
    + by rewrite hasLocalStorage_full.
  - by rewrite hasLocalStorage_unreachable.
Qed.

Lemma safeJsonParse_array (raw : option string) :
  ∃ l, Storage.safeJsonParse JSON_parse raw (VArr []) = VArr l.
Proof.
  unfold Storage.safeJsonParse. destruct raw as [raw|]; [|by eexists].
  destruct (JSON_parse raw) as [[]|]; by eexists.
Qed.

End StorageFacts.

(** X18.  [loadTodos] returns an array whatever the storage holds and
    whatever the parser makes of it: the empty array when the storage
    cannot be reached or takes no write, when nothing is stored under the
    key, when the stored text does not parse and when it parses to
    something that is no array.  It leaves every stored key as it is, the
    probe key apart. *)
Theorem loadTodos_returns_an_array
    (accepts : gmap string string → string → string → bool)
    (JSON_parse : string → option value) (ls : Browser.localStorage) :
  (∃ l, (Storage.loadTodos accepts JSON_parse ls).1 = VArr l)
  ∧ (Browser.reachable ls = false
     ∨ accepts (Browser.items ls) "todo_app_ls_test" "1" = false
     ∨ Browser.items ls !! Storage.TODOS_KEY = None
     ∨ (∃ raw, Browser.items ls !! Storage.TODOS_KEY = Some raw
               ∧ ∀ l, JSON_parse raw ≠ Some (VArr l)) →
     (Storage.loadTodos accepts JSON_parse ls).1 = VArr [])
  ∧ (∀ k, k ≠ "todo_app_ls_test" →
          Browser.items (Storage.loadTodos accepts JSON_parse ls).2 !! k
          = Browser.items ls !! k).
Proof.
  rewrite loadTodos_unfold. cbn [fst snd]. split; [|split].
  - destruct (Storage.hasLocalStorage accepts ls).1; [|by eexists].
    apply safeJsonParse_array.
  - intros Hcase.
    destruct (Storage.hasLocalStorage accepts ls).1 eqn:Havail; [|done].
    rewrite (proj1 (hasLocalStorage_keeps accepts ls Storage.TODOS_KEY ltac:(done))).
    destruct Hcase as [Hr|[Hfull|[Hnone|(raw & Hraw & Hbad)]]].
    + by rewrite hasLocalStorage_unreachable in Havail.
    + by rewrite hasLocalStorage_full in Havail.
    + by rewrite Hnone.
    + rewrite Hraw. unfold Storage.safeJsonParse.
      destruct (JSON_parse raw) as [[]|] eqn:Hp; try done. by destruct (Hbad l).
  - intros k Hk. by apply hasLocalStorage_keeps.
Qed.

Lemma loadTodos_returns_an_array_witness :
  (Storage.loadTodos Demo.roomy Demo.parse
     (Browser.LocalStorage true {[ Storage.TODOS_KEY := "{not a list" ]})).1
  = VArr [].
Proof.
  apply (loadTodos_returns_an_array Demo.roomy Demo.parse
           (Browser.LocalStorage true {[ Storage.TODOS_KEY := "{not a list" ]})).
  right. right. right. exists "{not a list". split; [reflexivity|].
  intros l. vm_compute. discriminate.
Defined.

Section SaveLoad.

Variable accepts : gmap string string → string → string → bool.
Variable JSON_parse : string → option value.
Variable JSON_stringify : value → string.

Lemma saveTodos_stores (l : list value) (ls : Browser.localStorage) :
  Browser.reachable ls = true →
  (∀ items, accepts items "todo_app_ls_test" "1" = true) →
  (∀ items, accepts items Storage.TODOS_KEY (JSON_stringify (VArr l)) = true) →
  Storage.saveTodos accepts JSON_stringify (VArr l) ls
  = Browser.LocalStorage true
      (<[ Storage.TODOS_KEY := JSON_stringify (VArr l) ]>
         (delete "todo_app_ls_test" (Browser.items ls))).
Proof.
  intros Hr Hroom Hfits. unfold Storage.saveTodos.
  rewrite hasLocalStorage_available by done.
  cbn [negb]. unfold Browser.setItem, Storage.safeJsonStringify.
  cbn [Browser.reachable Browser.items nullish andb]. by rewrite Hfits.
Qed.

Lemma loadTodos_stored (l : list value) (ls : Browser.localStorage) :
  Browser.reachable ls = true →
  (∀ items, accepts items "todo_app_ls_test" "1" = true) →
  Browser.items ls !! Storage.TODOS_KEY = Some (JSON_stringify (VArr l)) →
  JSON_parse (JSON_stringify (VArr l)) = Some (VArr l) →
  (Storage.loadTodos accepts JSON_parse ls).1 = VArr l.
Proof.
  intros Hr Hroom Hstored Hcodec. rewrite loadTodos_unfold. cbn [fst].
  rewrite hasLocalStorage_available by done. cbn [fst snd Browser.items].
  rewrite lookup_delete_ne by done. rewrite Hstored.
  unfold Storage.safeJsonParse. by rewrite Hcodec.
Qed.

End SaveLoad.

(** X19.  On storage that can be reached and has room, with a list that
    [JSON.parse] reads back from what [JSON.stringify] wrote: [loadTodos]
    after [saveTodos] returns the saved list, whatever was stored before.
    On storage that cannot be reached, or that takes no write, [saveTodos]
    changes nothing and raises nothing. *)
Theorem saveTodos_then_loadTodos
    (accepts : gmap string string → string → string → bool)
    (JSON_parse : string → option value) (JSON_stringify : value → string)
    (l : list value) (ls : Browser.localStorage) :
  (Browser.reachable ls = true →
   (∀ items, accepts items "todo_app_ls_test" "1" = true) →
   (∀ items, accepts items Storage.TODOS_KEY (JSON_stringify (VArr l)) = true) →
   JSON_parse (JSON_stringify (VArr l)) = Some (VArr l) →
   (Storage.loadTodos accepts JSON_parse
      (Storage.saveTodos accepts JSON_stringify (VArr l) ls)).1 = VArr l)
  ∧ (Browser.reachable ls = false
     ∨ (∀ items k v, accepts items k v = false) →
     Storage.saveTodos accepts JSON_stringify (VArr l) ls = ls).
Proof.
  split.
  - intros Hr Hroom Hfits Hcodec. rewrite saveTodos_stores by done.
    apply (loadTodos_stored accepts JSON_parse JSON_stringify l); try done.
    apply lookup_insert_eq.
  - intros [Hr|Hfull]; unfold Storage.saveTodos.
    + by rewrite hasLocalStorage_unreachable.
    + by rewrite hasLocalStorage_full.
Qed.

Lemma saveTodos_then_loadTodos_witness :
  (Storage.loadTodos Demo.roomy Demo.parse
     (Storage.saveTodos Demo.roomy Demo.stringify (VArr (List.map VObj Sample.threeTasks))
        (Browser.LocalStorage true {[ Storage.TODOS_KEY := "[]" ]}))).1
  = VArr (List.map VObj Sample.threeTasks)
  ∧ Storage.saveTodos Demo.full Demo.stringify (VArr (List.map VObj Sample.threeTasks))
      Demo.emptyStorage
    = Demo.emptyStorage.
Proof.
  split.
  - apply (saveTodos_then_loadTodos Demo.roomy Demo.parse Demo.stringify
             (List.map VObj Sample.threeTasks)
             (Browser.LocalStorage true {[ Storage.TODOS_KEY := "[]" ]}));
      reflexivity.
  - apply (saveTodos_then_loadTodos Demo.full Demo.parse Demo.stringify
             (List.map VObj Sample.threeTasks) Demo.emptyStorage).
    right. reflexivity.
Defined.


(** *** A session on the browser's storage *)

(** X20.  A local session whose tasks are complete survives a reload: on
    storage that can be reached and has room, and with a list that
    [JSON.parse] reads back from what [JSON.stringify] wrote, the session
    that mounts in local mode on what the persisting effect saved holds the
    same task list; and reading that storage twice returns the same list
    both times. *)
Theorem local_session_survives_reload
    (accepts : gmap string string → string → string → bool)
    (JSON_parse : string → option value) (JSON_stringify : value → string)
    (generateId : nat → string) (env : Env.environment) (fetch : Api.network)
    (st : state) (ls : Browser.localStorage) :
  provider st = ModeLocal →
  Forall complete (allTasks st) →
  Env.getDataMode env = ModeLocal →
  Browser.reachable ls = true →
  (∀ items, accepts items "todo_app_ls_test" "1" = true) →
  (∀ items, accepts items Storage.TODOS_KEY
              (JSON_stringify (VArr (List.map VObj (allTasks st)))) = true) →
  JSON_parse (JSON_stringify (VArr (List.map VObj (allTasks st))))
  = Some (VArr (List.map VObj (allTasks st))) →
  let saved := Session.persist accepts JSON_stringify st ls in
  Session.reload accepts JSON_parse generateId env fetch saved
  = State ModeLocal (allTasks st) 0
  ∧ Session.loadLocal accepts JSON_parse (Storage.loadTodos accepts JSON_parse saved).2
    = Session.loadLocal accepts JSON_parse saved.
Proof.
  intros Hp Hts Hmode Hr Hroom Hfits Hcodec saved.
  assert (Hsaved : saved
    = Browser.LocalStorage true
        (<[ Storage.TODOS_KEY := JSON_stringify (VArr (List.map VObj (allTasks st))) ]>
           (delete "todo_app_ls_test" (Browser.items ls)))).
  { subst saved. unfold Session.persist. rewrite Hp. by apply saveTodos_stores. }
  assert (Hload : ∀ ls',
    Browser.reachable ls' = true →
    Browser.items ls' !! Storage.TODOS_KEY
    = Some (JSON_stringify (VArr (List.map VObj (allTasks st)))) →
    Session.loadLocal accepts JSON_parse ls' = Some (List.map VObj (allTasks st))).
  { intros ls' Hr' Hstored. unfold Session.loadLocal.
    by rewrite (loadTodos_stored accepts JSON_parse JSON_stringify
                  (List.map VObj (allTasks st)) ls'). }
  assert (Hfirst : Session.loadLocal accepts JSON_parse saved
                   = Some (List.map VObj (allTasks st))).
  { apply Hload; rewrite Hsaved; [done|]. apply lookup_insert_eq. }
  split.
  - unfold Session.reload. rewrite Hfirst. by apply mounted_local_complete.
  - rewrite Hfirst. apply Hload.
    + rewrite loadTodos_unfold. cbn [snd].
      rewrite (proj2 (hasLocalStorage_keeps accepts saved Storage.TODOS_KEY
                        ltac:(done))).
      by rewrite Hsaved.
    + rewrite loadTodos_unfold. cbn [snd].
      rewrite (proj1 (hasLocalStorage_keeps accepts saved Storage.TODOS_KEY
                        ltac:(done))).
      rewrite Hsaved. apply lookup_insert_eq.
Qed.

Lemma local_session_survives_reload_witness :
  Session.reload Demo.roomy Demo.parse Sample.generateId Sample.noEnv Sample.offline
    (Session.persist Demo.roomy Demo.stringify (Sample.local Sample.threeTasks)
       Demo.emptyStorage)
  = State ModeLocal Sample.threeTasks 0.
Proof.
  apply (local_session_survives_reload Demo.roomy Demo.parse Demo.stringify
           Sample.generateId Sample.noEnv Sample.offline
           (Sample.local Sample.threeTasks) Demo.emptyStorage); try reflexivity.
  repeat constructor; try (eexists; repeat split; [reflexivity|discriminate|discriminate]);
    by eexists.
Defined.


(** *** Generated identifiers *)

Lemma digitValue36_digit36 (d : N) : (d < 36)%N → digitValue36 (digit36 d) = d.
Proof.
  intros Hd. unfold digitValue36, digit36.
  destruct (d <? 10)%N eqn:Hten.
  - apply N.ltb_lt in Hten. rewrite N_ascii_embedding by lia.
    assert (H : (48 + d <? 58)%N = true) by (apply N.ltb_lt; lia).
    rewrite H. lia.
  - apply N.ltb_ge in Hten. rewrite N_ascii_embedding by lia.
    assert (H : (87 + d <? 58)%N = false) by (apply N.ltb_ge; lia).
    rewrite H. lia.
Qed.

Lemma digit36_no_underscore (d : N) : (d < 36)%N → digit36 d ≠ "_"%char.
Proof.
  intros Hd Heq. apply (f_equal N_of_ascii) in Heq. unfold digit36 in Heq.
  change (N_of_ascii "_"%char) with 95%N in Heq.
  destruct (d <? 10)%N eqn:Hten.
  - apply N.ltb_lt in Hten. rewrite N_ascii_embedding in Heq by lia. lia.
  - apply N.ltb_ge in Hten. rewrite N_ascii_embedding in Heq by lia. lia.
Qed.

Lemma fromBase36_app (acc : N) (s t : string) :
  fromBase36 acc (s ++ t) = fromBase36 (fromBase36 acc s) t.
Proof. revert acc. induction s as [|c s IH]; intros acc; [done|]. cbn. apply IH. Qed.

Lemma fromBase36_toBase36 (fuel : nat) (n : N) :
  (n < 36 ^ N.of_nat fuel)%N → fromBase36 0 (toBase36 fuel n) = n.
Proof.
  revert n. induction fuel as [|fuel IH]; intros n Hn.
  - cbn in *. lia.
  - cbn [toBase36]. destruct (n <? 36)%N eqn:Hsmall.
    + apply N.ltb_lt in Hsmall. cbn [fromBase36].
      rewrite digitValue36_digit36 by done. lia.
    + apply N.ltb_ge in Hsmall. rewrite fromBase36_app. cbn [fromBase36].
      rewrite IH.
      * rewrite digitValue36_digit36 by (apply N.mod_lt; lia).
        pose proof (N.div_mod n 36 ltac:(lia)). lia.
      * rewrite Nat2N.inj_succ, N.pow_succ_r' in Hn.
        apply N.Div0.div_lt_upper_bound. lia.
Qed.

Lemma fromBase36_toString36 (n : N) : fromBase36 0 (toString36 n) = n.
Proof.
  unfold toString36. apply fromBase36_toBase36.
  rewrite Nat2N.inj_succ, N2Nat.id.
  destruct (N.eq_dec n 0) as [->|Hn]; [done|].
  pose proof (N.log2_spec n ltac:(lia)) as [_ Hup].
  eapply N.lt_le_trans; [exact Hup|].
  apply N.pow_le_mono_l. lia.
Qed.

Lemma list_ascii_of_string_app (s t : string) :
  list_ascii_of_string (s ++ t) = (list_ascii_of_string s ++ list_ascii_of_string t)%list.
Proof. induction s as [|c s IH]; [done|]. simpl. f_equal. exact IH. Qed.

Lemma toBase36_no_underscore (fuel : nat) (n : N) :
  Forall (fun c => c ≠ "_"%char) (list_ascii_of_string (toBase36 fuel n)).
Proof.
  revert n. induction fuel as [|fuel IH]; intros n; [constructor|].
  cbn [toBase36]. destruct (n <? 36)%N eqn:Hsmall.
  - apply N.ltb_lt in Hsmall. cbn. constructor; [|constructor].
    by apply digit36_no_underscore.
  - rewrite list_ascii_of_string_app. apply Forall_app. split; [apply IH|].
    cbn. constructor; [|constructor].
    apply digit36_no_underscore. apply N.mod_lt. lia.
Qed.

Lemma underscore_inside (r w : string) :
  ¬ Forall (fun c => c ≠ "_"%char) (list_ascii_of_string (r ++ "_" ++ w)).
Proof.
  induction r as [|a r IH]; simpl; intros H; inversion H; subst; [done|].
  by apply IH.
Qed.

(** Two texts that end in an underscore and a numeral without underscores
    are equal only if the numerals are. *)
Lemma last_segment_inj (p q x y : string) :
  Forall (fun c => c ≠ "_"%char) (list_ascii_of_string x) →
  Forall (fun c => c ≠ "_"%char) (list_ascii_of_string y) →
  p ++ "_" ++ x = q ++ "_" ++ y → x = y.
Proof.
  intros Hx Hy. revert q. induction p as [|a p IH]; intros [|b q] Heq; simpl in Heq.
  - injection Heq as Hs. exact Hs.
  - injection Heq as _ Hs. change ("" ++ x) with x in Hs.
    rewrite Hs in Hx. by apply underscore_inside in Hx.
  - injection Heq as _ Hs. change ("" ++ y) with y in Hs.
    rewrite <- Hs in Hy. by apply underscore_inside in Hy.
  - injection Heq as _ Hs. by apply (IH q).
Qed.

Lemma string_append_assoc (s t u : string) : (s ++ t) ++ u = s ++ t ++ u.
Proof.
  induction s as [|c s IH]; [done|].
  change (String c ((s ++ t) ++ u) = String c (s ++ t ++ u)). by rewrite IH.
Qed.

Lemma generateId_shape (now : N) (random : string) (c : N) :
  (Storage.generateId now random c).1
  = (Storage.NAMESPACE ++ "_" ++ toString36 now ++ "_" ++ String.substring 2 6 random)
    ++ "_" ++ toString36 ((c + 1) mod 65535).
Proof.
  unfold Storage.generateId. cbn [fst].
  by rewrite !string_append_assoc.
Qed.

(** X21.  Two identifiers that [generateId] returns with counters less than
    65535 apart are different, whatever the clock and the random number
    were at the two calls; each call advances the counter by one. *)
Theorem generateId_differs_within_counter_range
    (now1 now2 : N) (random1 random2 : string) (c1 c2 : N) :
  (c1 < c2 < c1 + 65535)%N →
  (Storage.generateId now1 random1 c1).1 ≠ (Storage.generateId now2 random2 c2).1
  ∧ (Storage.generateId now1 random1 c1).2 = (c1 + 1)%N.
Proof.
  intros Hc. split; [|done]. rewrite !generateId_shape. intros Heq.
  apply last_segment_inj in Heq; [|apply toBase36_no_underscore..].
  apply (f_equal (fromBase36 0)) in Heq. rewrite !fromBase36_toString36 in Heq.
  pose proof (N.div_mod (c1 + 1) 65535 ltac:(lia)).
  pose proof (N.div_mod (c2 + 1) 65535 ltac:(lia)).
  pose proof (N.mod_lt (c1 + 1) 65535 ltac:(lia)).
  nia.
Qed.

Lemma generateId_differs_within_counter_range_witness :
  (Storage.generateId 1700000000000 "0.4fzyo82mvyr" 0).1
  ≠ (Storage.generateId 1700000000000 "0.4fzyo82mvyr" 1).1
  ∧ (Storage.generateId 1700000000000 "0.4fzyo82mvyr" 0).2 = 1%N.
Proof.
  apply (generateId_differs_within_counter_range 1700000000000 1700000000000
           "0.4fzyo82mvyr" "0.4fzyo82mvyr" 0 1).
  lia.
Defined.

Example generateId_sample :
  (Storage.generateId 1700000000000 "0.4fzyo82mvyr" 0).1 = "todo_app_loyw3v28_4fzyo8_1".
Proof. vm_compute. reflexivity. Qed.


(* ===================================================================== *)
(** ** Properties of the theme hook *)
(* ===================================================================== *)

Lemma getInitialTheme_light_or_dark (ls : Browser.localStorage) :
  Theme.getInitialTheme ls = "light" ∨ Theme.getInitialTheme ls = "dark".
Proof.
  unfold Theme.getInitialTheme.
  destruct (Theme.readLocalStorage ls Theme.THEME_STORAGE_KEY) as [stored|]; [|by left].
  destruct (String.eqb_spec stored "light") as [->|_]; [by left|].
  destruct (String.eqb_spec stored "dark") as [->|_]; [by right|by left].
Qed.

(** X22.  The theme is ["light"] or ["dark"] at every moment: whatever the
    storage holds at start and after any number of toggles; on these two a
    toggle switches to the other one and two toggles give the theme back. *)
Theorem theme_is_light_or_dark (ls : Browser.localStorage) (n : nat) :
  let theme := Nat.iter n Theme.toggleTheme (Theme.getInitialTheme ls) in
  (theme = "light" ∨ theme = "dark")
  ∧ Theme.toggleTheme theme ≠ theme
  ∧ Theme.toggleTheme (Theme.toggleTheme theme) = theme.
Proof.
  cbn zeta.
  assert (Hth : Nat.iter n Theme.toggleTheme (Theme.getInitialTheme ls) = "light"
                ∨ Nat.iter n Theme.toggleTheme (Theme.getInitialTheme ls) = "dark").
  { induction n as [|n IH]; [apply getInitialTheme_light_or_dark|].
    rewrite Nat.iter_succ. destruct IH as [-> | ->]; [by right|by left]. }
  split; [done|]. by destruct Hth as [-> | ->].
Qed.

(** X23.  The theme persists: once the effect has run for a theme that is
    ["light"] or ["dark"], on storage that can be reached and takes the
    write, the root element carries the theme and the initial theme of the
    next session is that theme.  On storage that cannot be reached the
    effect still sets the attribute, leaves the storage alone, and the next
    session starts ["light"]. *)
Theorem theme_survives_reload
    (accepts : gmap string string → string → string → bool)
    (theme : string) (p : Theme.page) :
  (theme = "light" ∨ theme = "dark") →
  Theme.dataTheme (Theme.themeEffect accepts theme p) = Some theme
  ∧ (Browser.reachable (Theme.storage p) = true →
     accepts (Browser.items (Theme.storage p)) Theme.THEME_STORAGE_KEY theme = true →
     Theme.getInitialTheme (Theme.storage (Theme.themeEffect accepts theme p)) = theme)
  ∧ (Browser.reachable (Theme.storage p) = false →
     Theme.storage (Theme.themeEffect accepts theme p) = Theme.storage p
     ∧ Theme.getInitialTheme (Theme.storage (Theme.themeEffect accepts theme p)) = "light").
Proof.
  intros Hth. unfold Theme.themeEffect. cbn [Theme.dataTheme Theme.storage].
  split; [by destruct Hth as [-> | ->]|]. split.
  - intros Hr Hfits.
    unfold Theme.writeLocalStorage, Browser.setItem. rewrite Hr, Hfits. cbn [andb].
    unfold Theme.getInitialTheme, Theme.readLocalStorage, Browser.getItem.
    cbn [Browser.reachable Browser.items]. rewrite lookup_insert_eq.
    by destruct Hth as [-> | ->].
  - intros Hr.
    unfold Theme.writeLocalStorage, Browser.setItem. rewrite Hr. cbn [andb].
    split; [done|].
    unfold Theme.getInitialTheme, Theme.readLocalStorage, Browser.getItem.
    by rewrite Hr.
Qed.

Lemma theme_survives_reload_witness :
  Theme.getInitialTheme
    (Theme.storage (Theme.themeEffect Demo.roomy "dark" (Theme.Page Demo.emptyStorage None)))
  = "dark".
Proof.
  apply (theme_survives_reload Demo.roomy "dark" (Theme.Page Demo.emptyStorage None));
    [by right|reflexivity|reflexivity].
Defined.

(* ===================================================================== *)
(** ** Properties of the debounced search *)
(* ===================================================================== *)

Lemma setSearch_settled (val : string) (st : Search.state) :
  Search.settled st →
  Search.setSearch val st
  = Search.State val (Search.search st) (Some (Search.nextHandle st))
      [(Search.nextHandle st, val)] (S (Search.nextHandle st)).
Proof.
  destruct st as [imm deb ref ts next]. unfold Search.settled.
  cbn [Search.nextHandle Search.timers Search.search Search.searchImmediate
       Search.timerRef].
  intros [Hnext Hts].
  unfold Search.setSearch, Search.debouncedSetSearch, Search.clearTimer.
  cbn [Search.nextHandle Search.timers Search.search Search.searchImmediate
       Search.timerRef].
  destruct ts as [|[h v] [|t ts]]; [| |done].
  - by destruct ref as [h|]; [destruct (negb (h =? 0)%nat)|].
  - destruct Hts as (-> & -> & Hh).
    assert (Hz : (h =? 0)%nat = false) by (apply Nat.eqb_neq; lia).
    rewrite Hz.
    cbn [negb Search.nextHandle Search.timers Search.search Search.searchImmediate
         Search.timerRef List.filter fst].
    by rewrite Nat.eqb_refl.
Qed.

Lemma settled_step (st : Search.state) (e : Search.event) :
  Search.settled st → Search.settled (Search.step st e).
Proof.
  intros Hst. destruct e as [val|handle].
  - cbn [Search.step]. rewrite (setSearch_settled val st Hst).
    destruct Hst as [Hnext _]. split; cbn; [lia|]. repeat split; lia.
  - destruct st as [imm deb ref ts next]. destruct Hst as [Hnext Hts].
    unfold Search.settled, Search.step, Search.timeout.
    cbn [Search.nextHandle Search.timers Search.search Search.searchImmediate
         Search.timerRef] in *.
    destruct ts as [|[h v] [|t ts]]; [done| |done].
    destruct Hts as (-> & -> & Hh). cbn [List.find List.filter fst].
    destruct (h =? handle)%nat eqn:Heq;
      cbn [negb Search.nextHandle Search.timers Search.search Search.searchImmediate
           Search.timerRef List.find List.filter]; (split; [lia|]); [done|].
    repeat split; lia.
Qed.

Lemma settled_run (es : list Search.event) (st : Search.state) :
  Search.settled st → Search.settled (Search.run es st).
Proof.
  revert st. induction es as [|e es IH]; intros st Hst; [done|].
  unfold Search.run. cbn [fold_left]. apply IH. by apply settled_step.
Qed.

(** X24.  Whatever is typed and whichever timeouts the browser runs, from
    the state at mount: at most one timeout is pending, and with none
    pending the debounced text is the text last typed; typing echoes the
    text at once, keeps the debounced text and leaves exactly one timeout
    pending; and when that timeout runs, the debounced text becomes the
    text last typed and nothing is pending. *)
Theorem debounced_search_settles (es : list Search.event) (val : string) :
  let st := Search.run es Search.initial in
  let typed := Search.step st (Search.Typed val) in
  (List.length (Search.timers st) ≤ 1)%nat
  ∧ (Search.timers st = [] → Search.search st = Search.searchImmediate st)
  ∧ Search.searchImmediate typed = val
  ∧ Search.search typed = Search.search st
  ∧ ∃ handle,
      Search.timers typed = [(handle, val)]
      ∧ Search.search (Search.step typed (Search.Elapsed handle)) = val
      ∧ Search.timers (Search.step typed (Search.Elapsed handle)) = [].
Proof.
  cbn zeta.
  assert (Hst : Search.settled (Search.run es Search.initial)).
  { apply settled_run. split; [done|reflexivity]. }
  cbn [Search.step]. rewrite (setSearch_settled val _ Hst).
  destruct (Search.run es Search.initial) as [imm deb ref ts next].
  destruct Hst as [Hnext Hts].
  cbn [Search.nextHandle Search.timers Search.search Search.searchImmediate
       Search.timerRef] in *.
  split; [by destruct ts as [|[h v] [|t ts]]; cbn; try lia|].
  split; [by intros ->|].
  split; [done|]. split; [done|]. exists next. split; [done|].
  unfold Search.timeout.
  cbn [Search.nextHandle Search.timers Search.search Search.searchImmediate
       Search.timerRef List.find fst].
  rewrite Nat.eqb_refl.
  cbn [Search.search Search.timers List.filter fst]. by rewrite Nat.eqb_refl.
Qed.

Lemma debounced_search_settles_witness :
  Search.search (Search.run [Search.Typed "m"; Search.Typed "mi"; Search.Elapsed 2]
                   Search.initial) = "mi".
Proof.
  pose proof (debounced_search_settles
                [Search.Typed "m"; Search.Typed "mi"; Search.Elapsed 2] "x")
    as (_ & Hidle & _).
  by rewrite Hidle.
Defined.


(* ===================================================================== *)
(** ** Properties of the components *)
(* ===================================================================== *)

(** X25.  The two counts of the header are taken on the derived view, not
    on the whole list: the active count never exceeds the total, the total
    never exceeds the length of the list; under the [completed] filter the
    active count is zero although the list may hold active tasks, and under
    the [active] filter the two counts agree. *)
Theorem header_counts_follow_the_view (tasks : list obj) (filter search : string) :
  let view := filterAndSearch tasks filter search in
  (App.activeCount view ≤ App.totalCount view ≤ List.length tasks)%nat
  ∧ (filter = "completed" → App.activeCount view = 0%nat)
  ∧ (filter = "active" → App.activeCount view = App.totalCount view).
Proof.
  cbn zeta. unfold App.activeCount, App.totalCount. split; [split|split].
  - apply sublist_length, filter_sublist.
  - apply sublist_length, filter_sublist.
  - intros ->. unfold filterAndSearch. rewrite filter_filter_and.
    rewrite filter_none; [done|]. intros t. cbn [String.eqb Ascii.eqb Bool.eqb].
    by destruct (truthy (field t "completed")), (if (0 <? _)%nat then _ else _).
  - intros ->. unfold filterAndSearch. rewrite filter_filter_and. f_equal.
    apply List.filter_ext. intros t. cbn [String.eqb Ascii.eqb Bool.eqb].
    by destruct (truthy (field t "completed")), (if (0 <? _)%nat then _ else _).
Qed.

Lemma header_counts_follow_the_view_witness :
  App.activeCount (filterAndSearch Sample.threeTasks "completed" "") = 0%nat.
Proof.
  by apply (header_counts_follow_the_view Sample.threeTasks "completed" "").
Defined.

Lemma canAdd_truthy (st : TodoInput.state) :
  TodoInput.canAdd st = truthy (VStr (trim (TodoInput.title st))).
Proof. unfold TodoInput.canAdd. by rewrite length_positive. Qed.

(** X26.  Submitting the input in local mode.  With a title that trims to
    nothing, neither the fields nor the list change.  Otherwise both fields
    are cleared and the list gains, in front, an open task whose title is
    the trimmed text and whose identifier is fresh.  Neither the due date
    nor the feature flags affect the task: the due date never reaches the
    hook. *)
Theorem submit_adds_trimmed_task
    (generateId : nat → string) (fetch : Api.network) (env : Env.environment)
    (input : TodoInput.state) (st : state) :
  provider st = ModeLocal →
  TodoInput.handleSubmit env (App.onAdd generateId fetch) (input, st)
  = if TodoInput.canAdd input
    then (TodoInput.State "" "",
          State ModeLocal
            (<[ "id" := VStr (generateId (generated st)) ]>
               (<[ "title" := VStr (trim (TodoInput.title input)) ]>
                  {[ "completed" := VBool false ]}) :: allTasks st)
            (S (generated st)))
    else (input, st).
Proof.
  intros Hp. rewrite canAdd_truthy. unfold TodoInput.handleSubmit.
  destruct (truthy (VStr (trim (TodoInput.title input)))) eqn:Ht; cbn [negb]; [|done].
  f_equal.
  assert (Hfield : ∀ payload : obj,
            payload !! "title" = Some (VStr (trim (TodoInput.title input))) →
            App.onAdd generateId fetch (field payload "title") st
            = State ModeLocal
                (<[ "id" := VStr (generateId (generated st)) ]>
                   (<[ "title" := VStr (trim (TodoInput.title input)) ]>
                      {[ "completed" := VBool false ]}) :: allTasks st)
                (S (generated st))).
  { intros payload Hl. unfold field, get. rewrite Hl. cbn [default from_option Datatypes.id].
    unfold App.onAdd. cbn [typeof]. rewrite String.eqb_refl, Ht.
    rewrite addTodo_local; [|done|].
    - by rewrite ToString_or_string, trim_idempotent.
    - rewrite ToString_or_string, trim_idempotent. by apply truthy_VStr. }
  destruct (TodoInput.dueEnabled env && truthy (VStr (TodoInput.due input))).
  - apply Hfield. rewrite lookup_insert_ne by done. apply lookup_singleton_eq.
  - apply Hfield. apply lookup_singleton_eq.
Qed.

Lemma submit_adds_trimmed_task_witness :
  TodoInput.handleSubmit Sample.noEnv (App.onAdd Sample.generateId Sample.offline)
    (TodoInput.State "  Buy milk " "2026-01-01", Sample.local [])
  = (TodoInput.State "" "",
     State ModeLocal
       [<[ "id" := VStr (Sample.generateId 0) ]>
          (<[ "title" := VStr "Buy milk" ]> {[ "completed" := VBool false ]})]
       1).
Proof.
  by rewrite (submit_adds_trimmed_task Sample.generateId Sample.offline Sample.noEnv
                (TodoInput.State "  Buy milk " "2026-01-01") (Sample.local [])).
Defined.

(** The Enter key in the input: together with Shift and without Ctrl or Cmd
    it submits nothing; otherwise it does what a submit does.  No other key
    submits. *)
Lemma onKeyDown_submits_on_enter
    {W : Type} (env : Env.environment) (onAdd : value → W → W)
    (e : TodoInput.keyEvent) (s : TodoInput.state * W) :
  (TodoInput.key e ≠ "Enter" → TodoInput.onKeyDown env onAdd e s = s)
  ∧ (TodoInput.shiftKey e = true → TodoInput.ctrlKey e = false →
     TodoInput.metaKey e = false → TodoInput.onKeyDown env onAdd e s = s)
  ∧ (TodoInput.key e = "Enter" →
     TodoInput.shiftKey e = false ∨ TodoInput.ctrlKey e = true ∨ TodoInput.metaKey e = true →
     TodoInput.onKeyDown env onAdd e s = TodoInput.handleSubmit env onAdd s).
Proof.
  unfold TodoInput.onKeyDown. split; [|split].
  - intros Hk. apply String.eqb_neq in Hk. by rewrite Hk.
  - intros -> -> ->. by rewrite andb_false_r.
  - intros -> Hmod. cbn [String.eqb Ascii.eqb Bool.eqb].
    assert (Hm : TodoInput.ctrlKey e || TodoInput.metaKey e || negb (TodoInput.shiftKey e) = true).
    { destruct Hmod as [-> | [-> | ->]]; [by rewrite orb_true_r|done|].
      by destruct (TodoInput.ctrlKey e). }
    rewrite Hm. cbn [andb]. destruct s as [st w]. cbn [fst].
    rewrite canAdd_truthy. unfold TodoInput.handleSubmit.
    by destruct (truthy (VStr (trim (TodoInput.title st)))).
Qed.

Lemma strictEq_VStr (s : string) (v : value) :
  strictEq (VStr s) v = true ↔ v = VStr s.
Proof.
  destruct v; cbn [strictEq]; try (split; [done|by intros [=]]).
  rewrite String.eqb_eq. split; [by intros ->|by intros [= ->]].
Qed.

(** X27.  Saving an edit in local mode, for a row whose task has a
    non-empty identifier.  A draft that trims to nothing, or to the title
    the task has, changes no task and puts the task's title back in the
    draft.  Any other draft sets the title of every task with that
    identifier to the trimmed draft, changes no other field and no other
    task, and leaves the draft as typed.  Either way editing ends. *)
Theorem save_sets_trimmed_title
    (fetch : Api.network) (item : obj) (editing : bool) (d : string) (st : state) :
  provider st = ModeLocal →
  truthy (field item "id") = true →
  (trim d = "" ∨ field item "title" = VStr (trim d) →
   TodoItem.save (updateTodo fetch) item (TodoItem.State editing (VStr d), st)
   = Some (TodoItem.State false (or_ (field item "title") (VStr "")), st))
  ∧ (trim d ≠ "" → field item "title" ≠ VStr (trim d) →
     TodoItem.save (updateTodo fetch) item (TodoItem.State editing (VStr d), st)
     = Some (TodoItem.State false (VStr d),
             setAllTasks
               (List.map
                  (fun t => if hasId (field item "id") t
                            then <[ "title" := VStr (trim d) ]> t else t)
                  (allTasks st)) st)).
Proof.
  intros Hp Hid. unfold TodoItem.save. cbn [TodoItem.draft]. split.
  - intros Hsame.
    assert (Hg : negb (truthy (VStr (trim d)))
                 || strictEq (VStr (trim d)) (field item "title") = true).
    { destruct Hsame as [Hblank|Heq].
      - apply truthy_VStr_false in Hblank. by rewrite Hblank.
      - apply strictEq_VStr in Heq. rewrite Heq. apply orb_true_r. }
    by rewrite Hg.
  - intros Hne Hother.
    assert (Hg : negb (truthy (VStr (trim d)))
                 || strictEq (VStr (trim d)) (field item "title") = false).
    { apply orb_false_iff. split.
      - by apply negb_false_iff, truthy_VStr.
      - apply not_true_is_false. intros Heq. by apply strictEq_VStr in Heq. }
    rewrite Hg. do 2 f_equal.
    rewrite updateTodo_applied; [| |by left].
    + f_equal. apply List.map_ext. intros t. cbn [ownProps].
      unfold field at 2, get. rewrite lookup_singleton_eq.
      cbn [default from_option Datatypes.id].
      rewrite insert_singleton_eq, trim_idempotent. unfold hasId.
      destruct (strictEq (field t "id") (field item "id")); [|done].
      apply spread_singleton.
    + by rewrite Hid.
Qed.

Lemma save_sets_trimmed_title_witness :
  TodoItem.save (updateTodo Sample.offline) (Sample.task "a" " Buy Milk " false)
    (TodoItem.State true (VStr " Buy bread  "),
     Sample.local [Sample.task "a" " Buy Milk " false; Sample.task "b" "Other" true])
  = Some (TodoItem.State false (VStr " Buy bread  "),
          Sample.local [Sample.task "a" "Buy bread" false; Sample.task "b" "Other" true]).
Proof.
  pose proof (save_sets_trimmed_title Sample.offline (Sample.task "a" " Buy Milk " false)
                true " Buy bread  "
                (Sample.local [Sample.task "a" " Buy Milk " false;
                               Sample.task "b" "Other" true])
                eq_refl eq_refl) as [_ Hsave].
  rewrite Hsave; [reflexivity|done|done].
Defined.


(* ===================================================================== *)
(** ** Properties of [buildUrl] *)
(* ===================================================================== *)

Lemma dropTrailing_app (c : ascii) (s : string) :
  dropTrailing c (s ++ String c "") = dropTrailing c s.
Proof.
  induction s as [|a s IH].
  - change ("" ++ String c "") with (String c ""). cbn [dropTrailing].
    by rewrite Ascii.eqb_refl.
  - change (String a s ++ String c "") with (String a (s ++ String c "")).
    cbn [dropTrailing]. by rewrite IH.
Qed.

Lemma dropTrailing_clean (c : ascii) (s r : string) :
  dropTrailing c s ≠ r ++ String c "".
Proof.
  revert r. induction s as [|a s IH]; intros r.
  - by destruct r.
  - cbn [dropTrailing]. destruct (dropTrailing c s) as [|x d] eqn:Hd.
    + destruct (Ascii.eqb_spec a c) as [->|Hne]; [by destruct r|].
      destruct r as [|y r].
      * change ("" ++ String c "") with (String c ""). congruence.
      * change (String y r ++ String c "") with (String y (r ++ String c "")).
        intros [= _ Heq]. by destruct r.
    + destruct r as [|y r]; [done|].
      change (String y r ++ String c "") with (String y (r ++ String c "")).
      intros [= _ Heq]. by apply (IH r).
Qed.

Lemma dropLeading_clean (c : ascii) (s r : string) :
  dropLeading c s ≠ String c r.
Proof.
  induction s as [|a s IH]; [done|]. cbn [dropLeading].
  destruct (Ascii.eqb_spec a c) as [->|Hne]; [done|]. congruence.
Qed.

Lemma getApiBase_nonblank (env : Env.environment) (b : string) :
  Env.getApiBase env = Some b → String.eqb b "" = false.
Proof.
  unfold Env.getApiBase, Env.internalGetRawApiBase. intros Hb.
  assert (Hread : ∃ k, Env.readEnv env k None = Some b).
  { destruct (Env.readEnv env "REACT_APP_API_BASE" None) as [a|] eqn:Ha.
    - injection Hb as <-. eauto.
    - destruct (Env.readEnv env "REACT_APP_BACKEND_URL" None) as [c|] eqn:Hc; [|done].
      injection Hb as <-. eauto. }
  destruct Hread as (k & Hk). apply readEnv_Some in Hk as (v & _ & Hne & ->).
  by apply String.eqb_neq.
Qed.

(** X28.  The URL of a request is a base, one slash, and a path: the base
    does not end in a slash, the path does not begin with one, and without
    a configured base the base is empty, so the URL is relative.  Slashes
    in front of the path make no difference, and neither does one more
    slash at the end of the configured base. *)
Theorem buildUrl_joins_with_one_slash
    (env : Env.environment) (usp_toString : list (string * string) → string)
    (path : value) :
  (∃ baseUrl cleanPath,
     Api.buildUrl env usp_toString path None = baseUrl ++ "/" ++ cleanPath
     ∧ (∀ r, baseUrl ≠ r ++ "/")
     ∧ (∀ r, cleanPath ≠ "/" ++ r)
     ∧ (Env.getApiBase env = None → baseUrl = ""))
  ∧ (∀ p, path = VStr p →
       Api.buildUrl env usp_toString (VStr ("/" ++ p)) None
       = Api.buildUrl env usp_toString path None)
  ∧ (∀ env' b,
       Env.getApiBase env = Some b → Env.getApiBase env' = Some (b ++ "/") →
       Api.buildUrl env' usp_toString path None
       = Api.buildUrl env usp_toString path None).
Proof.
  unfold Api.buildUrl. split; [|split].
  - destruct (Env.getApiBase env) as [b|] eqn:Hb.
    + rewrite (getApiBase_nonblank env b Hb).
      exists (dropTrailing "/" (orString (Some b) "")),
             (dropLeading "/" (ToString (or_ path (VStr "")))).
      split; [done|]. split; [apply dropTrailing_clean|].
      split; [apply dropLeading_clean|done].
    + exists "", (dropLeading "/" (ToString (or_ path (VStr "")))).
      split; [done|]. split; [by intros [|? ?]|].
      split; [apply dropLeading_clean|done].
  - intros p ->. rewrite !ToString_or_string.
    by change (dropLeading "/" ("/" ++ p)) with (dropLeading "/" p).
  - intros env' b Hb Hb'. rewrite Hb, Hb'.
    rewrite (getApiBase_nonblank env b Hb), (getApiBase_nonblank env' _ Hb').
    unfold orString.
    rewrite (getApiBase_nonblank env b Hb), (getApiBase_nonblank env' _ Hb').
    by rewrite dropTrailing_app.
Qed.

Lemma buildUrl_joins_with_one_slash_witness :
  Api.buildUrl {[ "REACT_APP_API_BASE" := "https://todos.example.test/api/" ]}
    (fun _ => "") (VStr "/todos") None
  = "https://todos.example.test/api/todos".
Proof.
  pose proof (buildUrl_joins_with_one_slash Sample.remoteEnv (fun _ => "") (VStr "/todos"))
    as (_ & _ & Hbase).
  rewrite (Hbase {[ "REACT_APP_API_BASE" := "https://todos.example.test/api/" ]}
             "https://todos.example.test/api"); reflexivity.
Defined.


(* ===================================================================== *)
(** ** Properties of the other configuration getters *)
(* ===================================================================== *)

Lemma readEnv_clean (env : Env.environment) (key : string) (d : option string) (s : string) :
  Env.readEnv env key d = Some s → d = Some s ∨ (s ≠ "" ∧ trim s = s).
Proof.
  rewrite readEnv_unfold. destruct (env !! key) as [v|]; [|by left].
  destruct (String.eqb_spec (trim v) "") as [Hb|Hb]; [by left|].
  intros [= <-]. right. split; [done|apply trim_idempotent].
Qed.

Lemma orString_clean (a : option string) (d : string) :
  (∀ s, a = Some s → s = d ∨ (s ≠ "" ∧ trim s = s)) →
  d ≠ "" → trim d = d →
  orString a d ≠ "" ∧ trim (orString a d) = orString a d.
Proof.
  intros Ha Hd Htrim. unfold orString. destruct a as [s|]; [|done].
  destruct (String.eqb_spec s "") as [->|Hne]; [done|].
  by destruct (Ha s eq_refl) as [->|[_ Hs]].
Qed.

(** X29.  The flags of [getFeatureFlags]: the map holds [true] for exactly
    the flags of the set and nothing else, and every flag of the set is not
    empty, is lower-case and has no blanks around it. *)
Theorem getFeatureFlags_map_matches_set (env : Env.environment) (k : string) :
  let flags := Env.getFeatureFlags env in
  (Env.flags_map flags !! k = Some true ↔ k ∈ Env.flags_set flags)
  ∧ Env.flags_map flags !! k ≠ Some false
  ∧ (k ∈ Env.flags_set flags → k ≠ "" ∧ toLowerCase k = k ∧ trim k = k).
Proof.
  cbn zeta. unfold Env.getFeatureFlags. cbn [Env.flags_map Env.flags_set].
  unfold Env.setToMap. split; [|split].
  - rewrite lookup_gset_to_gmap_Some. split; [by intros [? _]|done].
  - rewrite lookup_gset_to_gmap_Some. by intros [_ ?].
  - intros Hk. apply elem_of_parseCSVFlagsToSet in Hk as (item & _ & Hne & ->).
    split; [|split].
    + intros Hblank. by apply (proj1 (toLowerCase_empty _)) in Hblank.
    + apply toLowerCase_idempotent.
    + by rewrite trim_toLowerCase, trim_idempotent.
Qed.

Lemma getFeatureFlags_map_matches_set_witness :
  Env.flags_map
    (Env.getFeatureFlags {[ "REACT_APP_FEATURE_FLAGS" := " Search, due_date ,," ]})
  !! "search" = Some true.
Proof.
  apply (getFeatureFlags_map_matches_set
           {[ "REACT_APP_FEATURE_FLAGS" := " Search, due_date ,," ]} "search").
  vm_compute. reflexivity.
Defined.

(** X30.  The other getters never return a blank string.  The log level
    and the environment name are not empty and have no blanks around them;
    without a log level that is not blank the level is ["info"]; the
    environment name prefers [REACT_APP_NODE_ENV] to [NODE_ENV] and is
    ["development"] without both; the two URLs are either absent or not
    empty and without blanks around them. *)
Theorem config_getters_never_blank (env : Env.environment) :
  (Env.getLogLevel env ≠ "" ∧ trim (Env.getLogLevel env) = Env.getLogLevel env)
  ∧ (Env.getNodeEnv env ≠ "" ∧ trim (Env.getNodeEnv env) = Env.getNodeEnv env)
  ∧ (Env.readEnv env "REACT_APP_LOG_LEVEL" None = None → Env.getLogLevel env = "info")
  ∧ (∀ s, Env.readEnv env "REACT_APP_NODE_ENV" None = Some s → Env.getNodeEnv env = s)
  ∧ (Env.readEnv env "REACT_APP_NODE_ENV" None = None →
     Env.readEnv env "NODE_ENV" None = None → Env.getNodeEnv env = "development")
  ∧ (∀ s, Env.getFrontendUrl env = Some s ∨ Env.getWebsocketUrl env = Some s →
          s ≠ "" ∧ trim s = s).
Proof.
  assert (Hclean : ∀ key s, Env.readEnv env key None = Some s → s ≠ "" ∧ trim s = s).
  { intros key s Hs. by destruct (readEnv_clean _ _ _ _ Hs). }
  split; [|split; [|split; [|split; [|split]]]].
  - unfold Env.getLogLevel. apply orString_clean; [|done|done].
    intros s Hs. destruct (readEnv_clean _ _ _ _ Hs) as [[= <-]|?]; [by left|by right].
  - unfold Env.getNodeEnv.
    assert (Hinner : orString (Env.readEnv env "NODE_ENV" None) "development" ≠ ""
                     ∧ trim (orString (Env.readEnv env "NODE_ENV" None) "development")
                       = orString (Env.readEnv env "NODE_ENV" None) "development").
    { apply orString_clean; [|done|done]. intros s Hs. right. by apply (Hclean "NODE_ENV"). }
    apply orString_clean; [|apply Hinner|apply Hinner].
    intros s Hs. right. by apply (Hclean "REACT_APP_NODE_ENV").
  - intros Hunset. unfold Env.getLogLevel. rewrite readEnv_unfold in *.
    destruct (env !! "REACT_APP_LOG_LEVEL") as [v|]; [|done].
    by destruct (String.eqb (trim v) "").
  - intros s Hs. unfold Env.getNodeEnv. rewrite Hs. unfold orString at 1.
    destruct (Hclean _ _ Hs) as [Hne _]. apply String.eqb_neq in Hne. by rewrite Hne.
  - intros Hfirst Hsecond. unfold Env.getNodeEnv. by rewrite Hfirst, Hsecond.
  - intros s [Hs|Hs]; by apply Hclean in Hs.
Qed.

Lemma config_getters_never_blank_witness :
  Env.getNodeEnv {[ "REACT_APP_NODE_ENV" := " test " ; "NODE_ENV" := "production" ]}
  = "test".
Proof.
  by apply (config_getters_never_blank
              {[ "REACT_APP_NODE_ENV" := " test " ; "NODE_ENV" := "production" ]}).
Defined.
